(** * Waldo: gameplay submission, review and clip extraction

    A shallow embedding of the tRPC gameplay router
    ([apps/web/server/trpc/router/gameplay.ts]), of the clip extraction
    service ([parseClips] / [storeClips]), of the REST footage handlers
    ([createFootage], [updateFootage], [deleteFootage], ...), of the
    part of the Prisma schema they rely on and of the output schemas of
    the router ([apps/web/utils/zod/gameplay.ts]).

    Handlers are written in a state-and-exception monad over a [World]
    made of the database, the file system, the identifier generator and a
    log of the calls made to the outside (YouTube, the analyzer process).
    An exception leaves the effects performed before it in place, as in
    the JavaScript source. *)

From Stdlib Require Import String Ascii List Bool Arith ZArith Lia.
From Stdlib Require Import QArith Qround Permutation DecimalNat DecimalString.
Import ListNotations.

Local Open Scope string_scope.
Local Open Scope list_scope.
Local Open Scope bool_scope.

Set Implicit Arguments.

(* ================================================================= *)
(** ** Enumerations *)

(** [GameplayTypes] of [utils/zod/gameplay.ts] (and [GameplayType] of the
    Prisma schema). *)
Inductive GameplayType : Type := VAL | CSG | TF2 | APE | COD | R6S.

(** The [Roles] enumeration: [USER < TRUSTED < MOD < ADMIN]. *)
Module Roles.
Inductive t : Type := User | Trusted | Mod | Admin.

Definition rank (r : t) : nat :=
  match r with User => 0 | Trusted => 1 | Mod => 2 | Admin => 3 end.

Definition geb (r floor : t) : bool := Nat.leb (rank floor) (rank r).
End Roles.

(** Modelled from the spec: the requirement kinds of the permission engine
    ([Perms] of [server/utils/hasPerms], which is not part of the sources at
    hand).  The spec gives two kinds, [isOwner] and [roleAtLeast(R)]; the
    router's [Perms.roleMod] is [roleAtLeast(moderator)]. *)
Module Perms.
Inductive t : Type :=
| isOwner
| roleAtLeast (floor : Roles.t).

Definition roleMod : t := roleAtLeast Roles.Mod.
End Perms.

(** The argument object of [hasPerms], as the call sites build it. *)
Module HasPermsInput.
Record t : Type := mk {
  userId : string;
  userRole : Roles.t;
  itemOwnerId : option string;   (* absent at the [create] call site *)
  requiredPerms : Perms.t;
  blacklisted : bool
}.
End HasPermsInput.

(** Modelled from the spec: the permission engine [hasPerms] (§4.1), whose
    module is not part of the sources at hand.  A blacklisted actor is always
    denied; [isOwner] allows iff the actor is the resource owner or holds a
    role of at least moderator; [roleAtLeast(R)] allows iff the actor's role
    is at least [R].  The spec does not say what [isOwner] answers when no
    resource owner is passed (the [create] call site): that answer is the
    parameter [ownerless]. *)
Definition hasPerms_spec (ownerless : bool) (i : HasPermsInput.t) : bool :=
  if HasPermsInput.blacklisted i then false
  else
    match HasPermsInput.requiredPerms i with
    | Perms.isOwner =>
        match HasPermsInput.itemOwnerId i with
        | Some owner => String.eqb (HasPermsInput.userId i) owner
        | None => ownerless
        end
        || Roles.geb (HasPermsInput.userRole i) Roles.Mod
    | Perms.roleAtLeast floor => Roles.geb (HasPermsInput.userRole i) floor
    end.

(* ================================================================= *)
(** ** Database rows *)

Module Footage.
Record t : Type := mk {
  id : string;
  userId : string;
  youtubeUrl : string;
  videoFormat : Z;
  footageType : GameplayType;
  isAnalyzed : bool;
  isParsed : bool
}.
End Footage.

Module Clip.
Record t : Type := mk {
  id : string;
  footageId : string
}.
End Clip.

Module FootageVotes.
Record t : Type := mk {
  id : string;
  footageId : string;
  userId : string;
  isGame : bool;
  actualGame : GameplayType
}.
End FootageVotes.

Module User.
Record t : Type := mk {
  id : string;
  name : option string;
  role : Roles.t;
  blacklisted : bool
}.
End User.

(** The tables, in storage order. *)
Record Prisma : Type := mkPrisma {
  footage : list Footage.t;
  clip : list Clip.t;
  footageVotes : list FootageVotes.t;
  user : list User.t
}.

(** [ctx.session.user], as the [session] callback of the auth options fills
    it in. *)
Module Session.
Record t : Type := mk {
  id : string;
  role : Roles.t;
  blacklisted : bool
}.
End Session.

(* ================================================================= *)
(** ** Exceptions *)

Inductive TRPC_ERROR_CODE : Type :=
| UNAUTHORIZED | NOT_FOUND | BAD_REQUEST | INTERNAL_SERVER_ERROR.

Inductive PrismaError : Type :=
| RecordNotFound            (* P2025 *)
| UniqueConstraintFailed    (* P2002 *)
| ForeignKeyConstraintFailed (* P2003 *)
| ValidationError.

Definition path : Type := list string.

Unset Elimination Schemes.
Inductive Exn : Type :=
| TRPCError (code : TRPC_ERROR_CODE) (message : option string)
            (cause : option Exn)
| PrismaClientError (e : PrismaError)
| HttpError (status : nat) (message : string)
| YtdlError
| FsError (code : string) (p : path)
| ZodError.
Set Elimination Schemes.

(* ================================================================= *)
(** ** File system

    A flat table from paths (lists of components, relative to the working
    directory, which always exists) to the kind of node found there. *)

Inductive node : Type := File | Dir.

Definition FS : Type := list (path * node).

Definition path_eqb (p q : path) : bool :=
  if list_eq_dec string_dec p q then true else false.

(** [is_under d p]: [p] is [d] or lies below [d]. *)
Fixpoint is_under (d p : path) : bool :=
  match d, p with
  | [], _ => true
  | x :: d', y :: p' => String.eqb x y && is_under d' p'
  | _ :: _, [] => false
  end.

(** The part of [p] below [d] (when [is_under d p]). *)
Definition below (d p : path) : path := skipn (length d) p.

Definition statSync (p : path) (f : FS) : option node :=
  match p with
  | [] => Some Dir
  | _ => option_map snd (find (fun e => path_eqb (fst e) p) f)
  end.

Definition existsSync (p : path) (f : FS) : bool :=
  match statSync p f with Some _ => true | None => false end.

Definition isDirectory (p : path) (f : FS) : bool :=
  match statSync p f with Some Dir => true | _ => false end.

(** The names found directly in directory [d]. *)
Definition entries (d : path) (f : FS) : list string :=
  flat_map (fun e =>
              if is_under d (fst e) then
                match below d (fst e) with
                | [x] => [x]
                | _ => []
                end
              else []) f.

Definition parent (p : path) : path := removelast p.

(* ================================================================= *)
(** ** The world and the handler monad *)

(** Calls made to the outside. *)
Inductive Call : Type :=
| GetInfo (url : string)                         (* ytdl.getInfo(url) *)
| Download (url : string) (dest : path)          (* ytdl(url).pipe(...) *)
| Spawn (command : string) (args : list string) (* child_process.spawn *).

Record World : Type := mkWorld {
  prisma : Prisma;
  fs : FS;
  cuids : nat;          (* number of identifiers drawn so far *)
  calls : list Call     (* oldest first *)
}.

Inductive Result (A : Type) : Type :=
| Ok (a : A)
| Threw (e : Exn).
Arguments Ok {A} a.
Arguments Threw {A} e.

Definition M (A : Type) : Type := World -> Result A * World.

Definition ret {A} (a : A) : M A := fun w => (Ok a, w).

Definition bind {A B} (m : M A) (k : A -> M B) : M B :=
  fun w =>
    match m w with
    | (Ok a, w') => k a w'
    | (Threw e, w') => (Threw e, w')
    end.

Definition throw {A} (e : Exn) : M A := fun w => (Threw e, w).

(** [try { m } catch (error) { h error }] *)
Definition try_catch {A} (m : M A) (h : Exn -> M A) : M A :=
  fun w =>
    match m w with
    | (Ok a, w') => (Ok a, w')
    | (Threw e, w') => h e w'
    end.

Definition get_world : M World := fun w => (Ok w, w).
Definition put_world (w : World) : M unit := fun _ => (Ok tt, w).

Declare Scope monad_scope.
Delimit Scope monad_scope with monad.
Notation "x <- c1 ;; c2" := (bind c1 (fun x => c2))
  (at level 100, c1 at next level, right associativity) : monad_scope.
Notation "c1 ;;; c2" := (bind c1 (fun _ => c2))
  (at level 100, right associativity) : monad_scope.
Local Open Scope monad_scope.

Definition set_prisma (db : Prisma) (w : World) : World :=
  mkWorld db (fs w) (cuids w) (calls w).
Definition set_fs (f : FS) (w : World) : World :=
  mkWorld (prisma w) f (cuids w) (calls w).

Definition get_prisma : M Prisma := fun w => (Ok (prisma w), w).
Definition put_prisma (db : Prisma) : M unit :=
  fun w => (Ok tt, set_prisma db w).
Definition get_fs : M FS := fun w => (Ok (fs w), w).
Definition put_fs (f : FS) : M unit := fun w => (Ok tt, set_fs f w).
Definition log (c : Call) : M unit :=
  fun w => (Ok tt, mkWorld (prisma w) (fs w) (cuids w) (calls w ++ [c])).

(** [cuid()]: the [n]-th identifier drawn is ["c"] followed by [n] in
    decimal; identifiers drawn at different times differ. *)
Definition cuid_of (n : nat) : string :=
  ("c" ++ NilEmpty.string_of_uint (Nat.to_uint n))%string.

Definition cuid : M string :=
  fun w => (Ok (cuid_of (cuids w)),
            mkWorld (prisma w) (fs w) (S (cuids w)) (calls w)).

(* ================================================================= *)
(** ** Prisma client

    The queries the handlers issue, with the constraints of the schema:
    primary keys, [@unique] on [youtubeUrl], foreign keys and their
    referential actions. *)

Inductive ReferentialAction : Type := Cascade | Restrict | NoAction.

(** [GameplayVotes.gameplay] is declared [onDelete: Cascade]. *)
Definition GameplayVotes_gameplay_onDelete : ReferentialAction := Cascade.

(** [Clip.gameplay] declares no [onDelete]; the relation is required, for
    which Prisma's default is [Restrict]. *)
Definition Clip_gameplay_onDelete : ReferentialAction := Restrict.

(** What a referential action makes of the rows [rows] that reference the
    record being deleted ([refers]); [None] when the delete is refused. *)
Definition onDelete {R} (a : ReferentialAction) (refers : R -> bool)
    (rows : list R) : option (list R) :=
  match a with
  | Cascade => Some (filter (fun r => negb (refers r)) rows)
  | Restrict | NoAction => if existsb refers rows then None else Some rows
  end.

Inductive SortOrder : Type := asc | desc.

Definition SortOrder_of_string (s : string) : option SortOrder :=
  if String.eqb s "asc" then Some asc
  else if String.eqb s "desc" then Some desc
  else None.

(** The scalar string fields of [footage] an [orderBy] may name. *)
Definition footage_field (s : string) : option (Footage.t -> string) :=
  if String.eqb s "userId" then Some Footage.userId
  else if String.eqb s "id" then Some Footage.id
  else if String.eqb s "youtubeUrl" then Some Footage.youtubeUrl
  else None.

Section Sorting.
Variable A : Type.
Variable le : A -> A -> bool.

Fixpoint insert_sorted (x : A) (l : list A) : list A :=
  match l with
  | [] => [x]
  | y :: l' => if le x y then x :: l else y :: insert_sorted x l'
  end.

Definition sort (l : list A) : list A := fold_right insert_sorted [] l.
End Sorting.

Definition order_le (key : Footage.t -> string) (o : SortOrder)
    (a b : Footage.t) : bool :=
  match o with
  | asc => String.leb (key a) (key b)
  | desc => String.leb (key b) (key a)
  end.

Module footage_.
(** [prisma.footage.findUnique({ where: { id } })] *)
Definition findUnique_id (i : string) (db : Prisma) : option Footage.t :=
  find (fun g => String.eqb (Footage.id g) i) (footage db).

(** [prisma.footage.findUnique({ where: { youtubeUrl } })] *)
Definition findUnique_youtubeUrl (url : string) (db : Prisma)
  : option Footage.t :=
  find (fun g => String.eqb (Footage.youtubeUrl g) url) (footage db).

Definition findUniqueOrThrow_id (i : string) : M Footage.t :=
  db <- get_prisma ;;
  match findUnique_id i db with
  | Some g => ret g
  | None => throw (PrismaClientError RecordNotFound)
  end.

Record CreateData : Type := mkCreateData {
  c_userId : string;
  c_youtubeUrl : string;
  c_videoFormat : option Z;      (* [number | undefined] *)
  c_footageType : GameplayType
}.

(** [prisma.footage.create({ data })]: the id defaults to [cuid()],
    [isAnalyzed] and [isParsed] to [false]. *)
Definition create (d : CreateData) : M Footage.t :=
  match c_videoFormat d with
  | None => throw (PrismaClientError ValidationError)
  | Some fmt =>
      newId <- cuid ;;
      db <- get_prisma ;;
      if existsb (fun g => String.eqb (Footage.id g) newId) (footage db)
         || existsb (fun g => String.eqb (Footage.youtubeUrl g)
                                         (c_youtubeUrl d)) (footage db)
      then throw (PrismaClientError UniqueConstraintFailed)
      else if negb (existsb (fun u => String.eqb (User.id u) (c_userId d))
                            (user db))
      then throw (PrismaClientError ForeignKeyConstraintFailed)
      else
        let g := Footage.mk newId (c_userId d) (c_youtubeUrl d) fmt
                            (c_footageType d) false false in
        put_prisma (mkPrisma (footage db ++ [g]) (clip db)
                             (footageVotes db) (user db)) ;;;
        ret g
  end.

(** [prisma.footage.update({ where: { id }, data: { isAnalyzed,
    footageType } })] *)
Definition update (i : string) (isAnalyzed : bool)
    (footageType : GameplayType) : M Footage.t :=
  db <- get_prisma ;;
  match findUnique_id i db with
  | None => throw (PrismaClientError RecordNotFound)
  | Some g =>
      let g' := Footage.mk (Footage.id g) (Footage.userId g)
                           (Footage.youtubeUrl g) (Footage.videoFormat g)
                           footageType isAnalyzed (Footage.isParsed g) in
      put_prisma
        (mkPrisma
           (map (fun x => if String.eqb (Footage.id x) i then g' else x)
                (footage db))
           (clip db) (footageVotes db) (user db)) ;;;
      ret g'
  end.

(** [prisma.footage.delete({ where: { id } })] *)
Definition delete (i : string) : M Footage.t :=
  db <- get_prisma ;;
  match findUnique_id i db with
  | None => throw (PrismaClientError RecordNotFound)
  | Some g =>
      match onDelete Clip_gameplay_onDelete
              (fun c => String.eqb (Clip.footageId c) i) (clip db),
            onDelete GameplayVotes_gameplay_onDelete
              (fun v => String.eqb (FootageVotes.footageId v) i)
              (footageVotes db)
      with
      | Some clips', Some votes' =>
          put_prisma
            (mkPrisma
               (filter (fun x => negb (String.eqb (Footage.id x) i))
                       (footage db))
               clips' votes' (user db)) ;;;
          ret g
      | _, _ => throw (PrismaClientError ForeignKeyConstraintFailed)
      end
  end.

(** [prisma.footage.count({ where: { footageType } })]; no filter when
    [ty] is [None]. *)
Definition GameplayType_eqb (a b : GameplayType) : bool :=
  match a, b with
  | VAL, VAL | CSG, CSG | TF2, TF2 | APE, APE | COD, COD | R6S, R6S => true
  | _, _ => false
  end.

Definition where_footageType (ty : option GameplayType) (g : Footage.t)
  : bool :=
  match ty with
  | None => true
  | Some t => GameplayType_eqb (Footage.footageType g) t
  end.

Definition count (ty : option GameplayType) (db : Prisma) : nat :=
  length (filter (where_footageType ty) (footage db)).

(** [prisma.footage.findMany({ where, take, skip, orderBy })]; a negative
    [skip] and an [orderBy] naming no field are rejected by the client. *)
Definition findMany (ty : option GameplayType)
    (orderBy : option (option string * option string))
    (take : nat) (skip : Z) : M (list Footage.t) :=
  db <- get_prisma ;;
  let rows := filter (where_footageType ty) (footage db) in
  if (skip <? 0)%Z then throw (PrismaClientError ValidationError)
  else
    match orderBy with
    | None => ret (firstn take (skipn (Z.to_nat skip) rows))
    | Some (Some k, Some d) =>
        match footage_field k, SortOrder_of_string d with
        | Some key, Some o =>
            ret (firstn take (skipn (Z.to_nat skip)
                                    (sort (order_le key o) rows)))
        | _, _ => throw (PrismaClientError ValidationError)
        end
    | Some _ => throw (PrismaClientError ValidationError)
    end.
End footage_.

Module footageVotes_.
(** [prisma.footageVotes.create({ data })] *)
Definition create (footageId : string) (isGame : bool)
    (actualGame : GameplayType) (userId : string) : M FootageVotes.t :=
  newId <- cuid ;;
  db <- get_prisma ;;
  if existsb (fun v => String.eqb (FootageVotes.id v) newId)
             (footageVotes db)
  then throw (PrismaClientError UniqueConstraintFailed)
  else if negb (existsb (fun g => String.eqb (Footage.id g) footageId)
                        (footage db))
          || negb (existsb (fun u => String.eqb (User.id u) userId)
                           (user db))
  then throw (PrismaClientError ForeignKeyConstraintFailed)
  else
    let v := FootageVotes.mk newId footageId userId isGame actualGame in
    put_prisma (mkPrisma (footage db) (clip db)
                         (footageVotes db ++ [v]) (user db)) ;;;
    ret v.
End footageVotes_.


Module user_.
(** [prisma.user.findUnique({ where: { id }, include: { footage: true } })];
    an [undefined] id is rejected by the client. *)
Definition findUnique_include_footage (i : option string)
  : M (option (User.t * list Footage.t)) :=
  match i with
  | None => throw (PrismaClientError ValidationError)
  | Some uid =>
      db <- get_prisma ;;
      match find (fun u => String.eqb (User.id u) uid) (user db) with
      | None => ret None
      | Some u =>
          ret (Some (u, filter (fun g => String.eqb (Footage.userId g) uid)
                               (footage db)))
      end
  end.
End user_.

(* ================================================================= *)
(** ** Randomness

    [Math.random()] yields a number in [[0, 1)]; the handlers take the
    numbers they draw as arguments, as rationals. *)

Definition Math_floor (q : Q) : Z := Qfloor q.

(** [values[index]], [undefined] out of range. *)
Definition array_get {A} (values : list A) (index : Z) : option A :=
  if (index <? 0)%Z then None else nth_error values (Z.to_nat index).

(** [randomPick] of [getReviewItems], at the draw [r]. *)
Definition randomPick (r : Q) (values : list string) : option string :=
  let index := Math_floor (r * inject_Z (Z.of_nat (length values))) in
  array_get values index.

(* ================================================================= *)
(** ** ytdl-core *)

Module ytdl.
Record videoFormat : Type := mkFormat { itag : Z }.
Record videoInfo : Type := mkInfo { formats : list videoFormat }.

(** [ytdl.getInfo(url)] against the remote site [remote]; the call is
    logged, and throws when the site gives no metadata. *)
Definition getInfo (remote : string -> option videoInfo) (url : string)
  : M videoInfo :=
  log (GetInfo url) ;;;
  match remote url with
  | Some details => ret details
  | None => throw YtdlError
  end.
End ytdl.

(** The format choice shared by [create] and [createFootage]:
    [defaultFormat] and [lowFormat]. *)
Definition has_itag (n : Z) (f : ytdl.videoFormat) : bool :=
  (ytdl.itag f =? n)%Z.

Definition defaultFormat (formats : list ytdl.videoFormat)
  : option ytdl.videoFormat :=
  match find (has_itag 299) formats with
  | Some f => Some f
  | None => find (has_itag 298) formats
  end.

Definition lowFormat (formats : list ytdl.videoFormat) : option Z :=
  match find (has_itag 136) formats with
  | Some _ => Some 136%Z
  | None => None
  end.

Definition is_some {A} (o : option A) : bool :=
  match o with Some _ => true | None => false end.

(** [defaultFormat ? defaultFormat.itag : lowFormat] *)
Definition videoFormat_of (formats : list ytdl.videoFormat) : option Z :=
  match defaultFormat formats with
  | Some f => Some (ytdl.itag f)
  | None => lowFormat formats
  end.

(* ================================================================= *)
(** ** The gameplay router *)

(** The procedures below are the resolvers handed to [protectedProcedure];
    the procedure builder ([../trpc], not among the sources at hand) is taken
    to supply the session of a signed-in user.  Their arguments are inputs
    the input parser has let through.  The output parser that [get],
    [create], [getUsers] and [update] put behind their resolver is in
    [procedure], further down. *)
Module gameplayRouter.

(** [input.userId] of [getUsers]: [z.string().cuid().nullish().optional()]. *)
Inductive nullish (A : Type) : Type :=
| undefined
| null
| value (a : A).
Arguments undefined {A}.
Arguments null {A}.
Arguments value {A} a.

Section Procedures.

(** The permission engine and the remote video site. *)
Variable hasPerms : HasPermsInput.t -> bool.
Variable remote : string -> option ytdl.videoInfo.

Definition get (s : Session.t) (gameplayId : string) : M Footage.t :=
  db <- get_prisma ;;
  match footage_.findUnique_id gameplayId db with
  | None =>
      throw (TRPCError NOT_FOUND
               (Some "Could not find that requested gameplay") None)
  | Some gameplay =>
      if negb (hasPerms (HasPermsInput.mk (Session.id s) Roles.User
                           (Some (Footage.userId gameplay)) Perms.isOwner
                           (Session.blacklisted s)))
      then throw (TRPCError NOT_FOUND
                    (Some "Could not find that requested gameplay") None)
      else ret gameplay
  end.

Definition getMany_error : Exn :=
  TRPCError NOT_FOUND
    (Some "No footage with the inputs provided could be found.") None.

Definition getMany (s : Session.t) (page : Z)
    (filterGames : option GameplayType) : M (list (Footage.t * nat)) :=
  let takeValue := 10%nat in
  let skipValue := (page * 10 - 10)%Z in
  match filterGames with
  | None =>
      db <- get_prisma ;;
      let gameplayCount := footage_.count None db in
      try_catch
        (gameplays <- footage_.findMany None None takeValue skipValue ;;
         ret (map (fun g => (g, gameplayCount)) gameplays))
        (fun _ => throw getMany_error)
  | Some ty =>
      try_catch
        (db <- get_prisma ;;
         let gameplayCount := footage_.count (Some ty) db in
         gameplays <- footage_.findMany (Some ty) None takeValue skipValue ;;
         ret (map (fun g => (g, gameplayCount)) gameplays))
        (fun _ => throw getMany_error)
  end.

Definition create (s : Session.t) (youtubeUrl : string)
    (gameplayType : GameplayType) : M Footage.t :=
  if negb (hasPerms (HasPermsInput.mk (Session.id s) Roles.User None
                       Perms.isOwner (Session.blacklisted s)))
  then throw (TRPCError UNAUTHORIZED None None)
  else
    db <- get_prisma ;;
    match footage_.findUnique_youtubeUrl youtubeUrl db with
    | Some _ =>
        throw (TRPCError BAD_REQUEST
                 (Some "This youtube url has already been submitted.") None)
    | None =>
        details <- ytdl.getInfo remote youtubeUrl ;;
        let formats := ytdl.formats details in
        if negb (is_some (defaultFormat formats))
           && negb (is_some (lowFormat formats))
        then
          throw (TRPCError BAD_REQUEST
                   (Some "URL does not provide an acceptable video format.")
                   None)
        else
          footage_.create
            (footage_.mkCreateData (Session.id s) youtubeUrl
               (videoFormat_of formats) gameplayType)
    end.

Definition getUsers (s : Session.t) (input_userId : nullish string)
  : M (list Footage.t) :=
  let userId :=
    match input_userId with
    | null => Some (Session.id s)
    | undefined => None
    | value u => Some u
    end in
  if negb (hasPerms (HasPermsInput.mk (Session.id s) Roles.User userId
                       Perms.isOwner (Session.blacklisted s)))
  then throw (TRPCError UNAUTHORIZED None None)
  else
    found <- user_.findUnique_include_footage userId ;;
    match found with
    | None =>
        throw (TRPCError NOT_FOUND
                 (Some "No user found with the provided ID.") None)
    | Some (_, user_footage) => ret user_footage
    end.

Definition getClips (s : Session.t) (gameplayId : string)
  : M (list Clip.t) :=
  db <- get_prisma ;;
  match footage_.findUnique_id gameplayId db with
  | None =>
      throw (TRPCError NOT_FOUND
               (Some "Could not find that requested gameplay") None)
  | Some gameplay =>
      let clips :=
        filter (fun c => String.eqb (Clip.footageId c) gameplayId)
               (clip db) in
      if negb (hasPerms (HasPermsInput.mk (Session.id s) Roles.User
                           (Some (Footage.userId gameplay)) Perms.roleMod
                           (Session.blacklisted s)))
      then throw (TRPCError UNAUTHORIZED None None)
      else ret clips
  end.

Definition server_error (error : Exn) : Exn :=
  TRPCError INTERNAL_SERVER_ERROR (Some "An error occurred in the server")
            (Some error).

Definition update (s : Session.t) (gameplayId : string)
    (footageType : GameplayType) (isAnalyzed : bool) : M Footage.t :=
  try_catch
    (gameplay <- footage_.findUniqueOrThrow_id gameplayId ;;
     (* if modifying isAnalyzed, require mod role *)
     let requiredPerms :=
       if Bool.eqb (Footage.isAnalyzed gameplay) isAnalyzed
       then Perms.isOwner
       else Perms.roleMod in
     if negb (hasPerms (HasPermsInput.mk (Session.id s) Roles.User
                          (Some (Footage.userId gameplay)) requiredPerms
                          (Session.blacklisted s)))
     then throw (TRPCError UNAUTHORIZED None None)
     else footage_.update gameplayId isAnalyzed footageType)
    (fun error => throw (server_error error)).

Definition delete (s : Session.t) (gameplayId : string) : M unit :=
  try_catch
    (gameplay <- footage_.findUniqueOrThrow_id gameplayId ;;
     if negb (hasPerms (HasPermsInput.mk (Session.id s) Roles.User
                          (Some (Footage.userId gameplay)) Perms.isOwner
                          (Session.blacklisted s)))
     then throw (TRPCError UNAUTHORIZED None None)
     else
       footage_.delete gameplayId ;;;
       ret tt)
    (fun error => throw (server_error error)).

(** An array is never [null], and a created record is never falsy. *)
Definition is_null {A} (a : list A) : bool := false.
Definition is_falsy {A} (record : A) : bool := false.

(** The owner joined to a row ([include: { user: true }]). *)
Definition include_user (db : Prisma) (g : Footage.t)
  : Footage.t * option User.t :=
  (g, find (fun u => String.eqb (User.id u) (Footage.userId g)) (user db)).

(** [getReviewItems], at the three draws of [Math.random()] it makes, in
    the order it makes them.  The result is [reviewItems[0]], which is
    [undefined] ([None]) for an empty array. *)
Definition getReviewItems (s : Session.t) (r_orderBy r_orderDir r_skip : Q)
  : M (option (Footage.t * option User.t)) :=
  db <- get_prisma ;;
  let itemCount := footage_.count None db in
  let tenDocs :=
    Math_floor (r_skip * inject_Z (Z.of_nat itemCount - 1 + 1)) in
  let orderBy := randomPick r_orderBy ["userId"; "id"; "youtubeUrl"] in
  let orderDir := randomPick r_orderDir ["desc"; "asc"] in
  rows <- footage_.findMany None (Some (orderBy, orderDir)) 1 tenDocs ;;
  let reviewItems := map (include_user db) rows in
  if is_null reviewItems
  then throw (TRPCError NOT_FOUND
                (Some "Could not query gameplay documents") None)
  else ret (nth_error reviewItems 0).

Definition review (s : Session.t) (gameplayId : string) (isGame : bool)
    (actualGame : GameplayType) : M string :=
  if String.eqb (Session.id s) EmptyString   (* [!ctx.session.user?.id] *)
  then ret "No user"
  else
    footageVote <- footageVotes_.create gameplayId isGame actualGame
                                        (Session.id s) ;;
    if is_falsy footageVote
    then throw (TRPCError NOT_FOUND
                  (Some ("Could not find a gameplay document with id:"
                         ++ gameplayId ++ ".")%string) None)
    else ret "Updated the gameplay document successfully.".

End Procedures.
End gameplayRouter.

(* ================================================================= *)
(** ** File-system calls *)

Module fs_.
Definition mkdirSync (p : path) : M unit :=
  f <- get_fs ;;
  if existsSync p f then throw (FsError "EEXIST" p)
  else if negb (isDirectory (parent p) f) then throw (FsError "ENOENT" p)
  else put_fs (f ++ [(p, Dir)]).

Definition readdirSync (d : path) : M (list string) :=
  f <- get_fs ;;
  match statSync d f with
  | None => throw (FsError "ENOENT" d)
  | Some File => throw (FsError "ENOTDIR" d)
  | Some Dir => ret (entries d f)
  end.

(** [fs.rmSync(p, { recursive: true, force: true })] *)
Definition rmSync_recursive_force (p : path) : M unit :=
  f <- get_fs ;;
  put_fs (filter (fun e => negb (is_under p (fst e))) f).

(** [fs.rmSync(p, { force: true })] *)
Definition rmSync_force (p : path) : M unit :=
  f <- get_fs ;;
  match statSync p f with
  | None => ret tt
  | Some Dir => throw (FsError "ERR_FS_EISDIR" p)
  | Some File => put_fs (filter (fun e => negb (path_eqb (fst e) p)) f)
  end.

(** [fse.copy(src, dest)] for a directory [src]: what lies below [src] is
    written below [dest], over what is there. *)
Definition copy (src dest : path) : M unit :=
  f <- get_fs ;;
  if negb (existsSync src f) then throw (FsError "ENOENT" src)
  else
    let copied :=
      flat_map (fun e =>
                  if is_under src (fst e) && negb (path_eqb (fst e) src)
                  then [(dest ++ below src (fst e), snd e)]
                  else []) f in
    put_fs (filter (fun e =>
                      negb (existsb (fun c => path_eqb (fst c) (fst e))
                                    copied)) f
            ++ copied).
End fs_.

(* ================================================================= *)
(** ** Clip extraction ([services/clips]) *)

Definition getDirectories (source : path) : M (list path) :=
  names <- fs_.readdirSync source ;;
  f <- get_fs ;;
  ret (filter (fun p => isDirectory p f)
              (map (fun file => source ++ [file]) names)).

Fixpoint forEach {A} (l : list A) (body : A -> M unit) : M unit :=
  match l with
  | [] => ret tt
  | x :: l' => body x ;;; forEach l' body
  end.

Section Clips.

(** [process.env.FS_LOCATION], when set (to a non-empty value). *)
Variable FS_LOCATION : option path.

(** [`${process.env.FS_LOCATION}`] *)
Definition FS_LOCATION_text : path :=
  match FS_LOCATION with
  | Some loc => loc
  | None => ["undefined"]
  end.

Definition storeClips (id : string) : M unit :=
  match FS_LOCATION with
  | Some loc =>
      f <- get_fs ;;
      if negb (existsSync loc f) then fs_.mkdirSync loc else ret tt
  | None => ret tt
  end ;;;
  clipDirs <- getDirectories ["clips"] ;;
  forEach clipDirs (fun clipDir =>
    uuid <- cuid ;;
    let footageDir := FS_LOCATION_text ++ [id] in
    let clipLocation := footageDir ++ [uuid] in
    f <- get_fs ;;
    (if negb (existsSync footageDir f) then fs_.mkdirSync footageDir
     else ret tt) ;;;
    fs_.mkdirSync clipLocation ;;;
    fs_.copy clipDir clipLocation
    (* TODO: Submit new clip documents *)).

(** The part of [parseClips] that runs at the call: the working directory
    and the analyzer process. *)
Definition parseClips (uuid : string) (video : string) : M unit :=
  f <- get_fs ;;
  (if negb (existsSync ["clips"] f) then fs_.mkdirSync ["clips"]
   else ret tt) ;;;
  log (Spawn "python3" ["autoClip.py"; video; "clips"; "1"]).

(** The handler [parseClips] registers for the analyzer's [exit]. *)
Definition parseClips_on_exit (uuid : string) (video : string) : M unit :=
  clipDirs <- getDirectories ["clips"] ;;
  if (0 <? length clipDirs)%nat
  then
    storeClips uuid ;;;
    fs_.rmSync_recursive_force ["clips"] ;;;
    fs_.rmSync_force [video]
    (* TODO: Submit update to cockroach DB *)
  else ret tt.

End Clips.

(* ================================================================= *)
(** ** The REST footage handlers

    The handlers of the endpoints, on inputs their input schema has let
    through.  The output schema of those that return a record,
    [FootageZodSchema], lists the columns of a row of [footage] under
    their own names and types, so a stored row with a cuid for its id and
    a url for its [youtubeUrl] passes it as it is. *)

Section FootageHandlers.

Variable remote : string -> option ytdl.videoInfo.

(** [ytdl(url).pipe(fs.createWriteStream(dest))]: the download is started
    and its file opened. *)
Definition download (url : string) (dest : string) : M unit :=
  log (Download url [dest]) ;;;
  f <- get_fs ;;
  match statSync [dest] f with
  | Some Dir => throw (FsError "EISDIR" [dest])
  | Some File => ret tt
  | None => put_fs (f ++ [([dest], File)])
  end.

Definition createFootage (id url : string) (type : GameplayType)
  : M Footage.t :=
  db <- get_prisma ;;
  match footage_.findUnique_youtubeUrl url db with
  | Some _ =>
      throw (HttpError 400
               ("URL " ++ url ++ " has already been submitted.")%string)
  | None =>
      details <- ytdl.getInfo remote url ;;
      let formats := ytdl.formats details in
      if negb (is_some (defaultFormat formats))
         && negb (is_some (lowFormat formats))
      then
        throw (HttpError 400
                 ("URL " ++ url
                  ++ " does not provide an acceptable video format.")%string)
      else
        footageId <- cuid ;;
        download url (footageId ++ ".mp4")%string ;;;
        parseClips footageId (footageId ++ ".mp4")%string ;;;
        footage_.create
          (footage_.mkCreateData id url (videoFormat_of formats) type)
  end.

Definition getFootage (id : string) : M Footage.t :=
  db <- get_prisma ;;
  match footage_.findUnique_id id db with
  | None =>
      throw (HttpError 404
        "No footage document with the UUID or type provided could be found.")
  | Some g => ret g
  end.

Definition getFootageClips (id : string) : M (list string) :=
  db <- get_prisma ;;
  match footage_.findUnique_id id db with
  | None =>
      throw (HttpError 404 "No clips found with the provided footage ID.")
  | Some _ =>
      let clips :=
        filter (fun c => String.eqb (Clip.footageId c) id) (clip db) in
      if (length clips =? 0)%nat
      then throw (HttpError 404
                    "No clips found with the provided footage ID.")
      else ret (map Clip.id clips)
  end.

Definition processing_error : Exn :=
  HttpError 500 "Something went wrong processing the video.".

Definition updateFootage (id : string) (isAnalyzed : bool)
    (footageType : GameplayType) (isParsed : bool) : M Footage.t :=
  try_catch (footage_.update id isAnalyzed footageType)
            (fun _ => throw processing_error).

Definition deleteFootage (id : string) : M string :=
  try_catch (footage_.delete id ;;; ret tt)
            (fun _ => throw processing_error) ;;;
  ret "Footage deleted successfully.".

End FootageHandlers.

(* ================================================================= *)
(** ** Well-formed databases *)

(** The constraints the schema makes the database keep. *)
Record Prisma_ok (db : Prisma) : Prop := mkPrisma_ok {
  footage_id_unique : NoDup (map Footage.id (footage db));
  youtubeUrl_unique : NoDup (map Footage.youtubeUrl (footage db));
  footage_user_fk :
    forall g, In g (footage db) ->
      exists u, In u (user db) /\ User.id u = Footage.userId g
}.

(** The identifier generator has not yet drawn the ids it will draw. *)
Definition fresh (w : World) : Prop :=
  forall g, In g (footage (prisma w)) -> Footage.id g <> cuid_of (cuids w).

(* ================================================================= *)
(** ** The encoding preference, in the spec's words *)



(* ================================================================= *)
(** ** Sample data *)

Module Sample.
Definition alice : User.t := User.mk "u1" (Some "Alice") Roles.User false.
Definition bob : User.t := User.mk "u2" (Some "Bob") Roles.Mod false.
Definition mallory : User.t := User.mk "u3" None Roles.Admin true.

Definition session_of (u : User.t) : Session.t :=
  Session.mk (User.id u) (User.role u) (User.blacklisted u).

Definition url_a : string := "https://youtu.be/a".
Definition url_b : string := "https://youtu.be/b".

Definition f1 : Footage.t :=
  Footage.mk "f1" "u1" url_a 299 CSG false false.

Definition vote1 : FootageVotes.t :=
  FootageVotes.mk "v1" "f1" "u2" true CSG.

Definition clip1 : Clip.t := Clip.mk "k1" "f1".

Definition users : list User.t := [alice; bob; mallory].

(** One submission, no clip, no vote. *)
Definition db1 : Prisma := mkPrisma [f1] [] [] users.
(** One submission with a vote. *)
Definition db_voted : Prisma := mkPrisma [f1] [] [vote1] users.
(** One submission with a clip and a vote. *)
Definition db_clipped : Prisma := mkPrisma [f1] [clip1] [vote1] users.
(** No submission. *)
Definition db_empty : Prisma := mkPrisma [] [] [] users.

(** A world in which one identifier ([c0]) has been drawn. *)
Definition world (db : Prisma) (f : FS) : World := mkWorld db f 1 [].

(** A site offering the three preferred encodings at [url_a], and only a
    foreign one at [url_b]. *)
Definition site (url : string) : option ytdl.videoInfo :=
  if String.eqb url url_a
  then Some (ytdl.mkInfo [ytdl.mkFormat 18; ytdl.mkFormat 136;
                          ytdl.mkFormat 298; ytdl.mkFormat 299])
  else if String.eqb url url_b
  then Some (ytdl.mkInfo [ytdl.mkFormat 18])
  else None.

(** The working directory when the analyzer of job [c0] exits having found
    nothing, and having found one segment. *)
Definition fs_no_segment : FS :=
  [(["clips"], Dir); (["c0.mp4"], File)].
Definition fs_one_segment : FS :=
  [(["clips"], Dir); (["c0.mp4"], File);
   (["clips"; "seg0"], Dir); (["clips"; "seg0"; "0.png"], File)].
End Sample.

(* ================================================================= *)
(** ** Notions used by the statements *)

(** Two sessions that differ at most in the user's role. *)
Definition same_but_role (s1 s2 : Session.t) : Prop :=
  Session.id s1 = Session.id s2
  /\ Session.blacklisted s1 = Session.blacklisted s2.

(** A draw of [Math.random()]. *)
Definition unit_interval (r : Q) : Prop := (0 <= r)%Q /\ (r < 1)%Q.

(** The call succeeded. *)
Definition succeeds {A} (x : Result A * World) : Prop :=
  exists a, fst x = Ok a.

(** The call failed. *)
Definition fails {A} (x : Result A * World) : Prop :=
  exists e, fst x = Threw e.

(** A computation that leaves the database as it found it, whatever it
    returns. *)
Definition keeps_prisma {A} (m : M A) : Prop :=
  forall w, prisma (snd (m w)) = prisma w.

(** A computation that leaves the whole world as it found it. *)
Definition pure_read {A} (m : M A) : Prop :=
  forall w, snd (m w) = w.

(** The argument every call site of the router hands to [hasPerms], for
    the session [s], the owner it names and the requirement it asks for. *)
Definition gate (s : Session.t) (owner : option string) (req : Perms.t)
  : HasPermsInput.t :=
  HasPermsInput.mk (Session.id s) Roles.User owner req
                   (Session.blacklisted s).

(** A computation that keeps the database well formed. *)
Definition keeps_ok {A} (m : M A) : Prop :=
  forall w, Prisma_ok (prisma w) -> Prisma_ok (prisma (snd (m w))).

(** The requirement [update] asks for. *)
Definition update_requirement (g : Footage.t) (isAnalyzed : bool) : Perms.t :=
  if Bool.eqb (Footage.isAnalyzed g) isAnalyzed
  then Perms.isOwner else Perms.roleMod.

(* ================================================================= *)
(** ** Further handlers *)

(** [getUserFootage] of the REST handlers: the ids of a user's footage. *)
Definition getUserFootage (id : string) : M (list string) :=
  data <- user_.findUnique_include_footage (Some id) ;;
  match data with
  | None =>
      throw (HttpError 404 "No footage found with the provided User ID.")
  | Some (_, user_footage) =>
      if (length user_footage =? 0)%nat
      then throw (HttpError 404
                    "No footage found with the provided User ID.")
      else ret (map Footage.id user_footage)
  end.

(** The [session] callback of the auth options. *)
Module Account.
Record t : Type := mk {
  id : string;
  userId : string;
  provider : string
}.
End Account.

Module authOptions.

(** [session.user]: what the sign-in put there ([name]) and what the
    callback adds, each [undefined] until set. *)
Record SessionUser : Type := mkSessionUser {
  name : option string;
  id : option string;
  provider : option string;
  role : option Roles.t;
  blacklisted : option bool
}.

(** The callback returns the session, or dies on reading a property of
    [null]. *)
Inductive Outcome : Type :=
| Returned (session_user : option SessionUser)
| TypeError.

(** [prisma.account.findFirst({ where: { userId }, include: { user: true } })]
    over the account and user tables. *)
Definition account_findFirst (userId : string) (accounts : list Account.t)
    (users : list User.t) : option (Account.t * option User.t) :=
  match find (fun a => String.eqb (Account.userId a) userId) accounts with
  | None => None
  | Some a =>
      Some (a, find (fun u => String.eqb (User.id u) (Account.userId a))
                    users)
  end.

(** [callbacks.session({ session, user })], for the adapter user of id
    [user_id]. *)
Definition session (session_user : option SessionUser) (user_id : string)
    (accounts : list Account.t) (users : list User.t) : Outcome :=
  match session_user with
  | None => Returned None
  | Some su =>
      match account_findFirst user_id accounts users with
      | None =>
          Returned (Some (mkSessionUser (name su) (Some user_id)
                                        None None None))
      | Some (userAccount, Some account_user) =>
          Returned (Some (mkSessionUser (name su) (Some user_id)
                            (Some (Account.provider userAccount))
                            (Some (User.role account_user))
                            (Some (User.blacklisted account_user))))
      | Some (_, None) => TypeError
      end
  end.

End authOptions.

(* ================================================================= *)
(** ** Further notions used by the statements *)

(** No vote and no clip is left dangling: each references a stored
    submission, and each vote a stored user. *)
Record References_ok (db : Prisma) : Prop := mkReferences_ok {
  vote_footage_fk :
    forall v, In v (footageVotes db) ->
      exists g, In g (footage db) /\ Footage.id g = FootageVotes.footageId v;
  vote_user_fk :
    forall v, In v (footageVotes db) ->
      exists u, In u (user db) /\ User.id u = FootageVotes.userId v;
  clip_footage_fk :
    forall c, In c (clip db) ->
      exists g, In g (footage db) /\ Footage.id g = Clip.footageId c
}.

(** A computation that keeps a property of the database, whether it
    returns or throws. *)
Definition preserves {A} (P : Prisma -> Prop) (m : M A) : Prop :=
  forall w, P (prisma w) -> P (prisma (snd (m w))).

(** A database that meets the schema's constraints and has no dangling
    reference. *)
Definition Database_ok (db : Prisma) : Prop :=
  Prisma_ok db /\ References_ok db.



(** The next identifier is not yet the id of a vote. *)
Definition fresh_vote (w : World) : Prop :=
  forall v, In v (footageVotes (prisma w)) ->
            FootageVotes.id v <> cuid_of (cuids w).

(** What [storeClips] does for one segment directory: the body of its
    loop. *)
Definition storeClips_step (FS_LOCATION : option path) (id : string)
    (clipDir : path) : M unit :=
  uuid <- cuid ;;
  let footageDir := FS_LOCATION_text FS_LOCATION ++ [id] in
  let clipLocation := footageDir ++ [uuid] in
  f <- get_fs ;;
  (if negb (existsSync footageDir f) then fs_.mkdirSync footageDir
   else ret tt) ;;;
  fs_.mkdirSync clipLocation ;;;
  fs_.copy clipDir clipLocation.

(** A computation that removes nothing from the file system, whether it
    returns or throws. *)
Definition removes_nothing {A} (m : M A) : Prop :=
  forall w p, existsSync p (fs w) = true ->
              existsSync p (fs (snd (m w))) = true.

(** Every entry of the file system but the root has its parent directory. *)
Definition FS_ok (f : FS) : Prop :=
  forall p k, In (p, k) f -> isDirectory (parent p) f = true.

(* ================================================================= *)
(** ** Output validation

    [get], [create] and [update] are declared with
    [.output(GameplaySchema)] and [getUsers] with
    [.output(GameplaySchema.array())]: what the resolver returns is parsed
    by the schema before it reaches the caller.  When the parse fails
    the caller gets an [INTERNAL_SERVER_ERROR]; what the resolver did
    stays done. *)

(** The values found in a row, as the parser sees them. *)
Unset Elimination Schemes.
Inductive JsValue : Type :=
| JsString (s : string)
| JsNumber (n : Z)
| JsBoolean (b : bool)
| JsNull
| JsArray (items : list JsValue)
| JsRecord (fields : list (string * JsValue)).
Set Elimination Schemes.

Definition JsObject : Type := list (string * JsValue).

(** [o[key]], absent when the object has no such key. *)
Definition property (key : string) (o : JsObject) : option JsValue :=
  option_map snd (find (fun kv => String.eqb (fst kv) key) o).

(** [CheatTypes] of [utils/zod/gameplay.ts]. *)
Inductive CheatType : Type := NOCHEAT | AIMBOT | TRIGGERBOT | ESP | SPINBOT.

(** How the database client spells a category. *)
Definition GameplayType_text (ty : GameplayType) : string :=
  match ty with
  | VAL => "VAL" | CSG => "CSG" | TF2 => "TF2"
  | APE => "APE" | COD => "COD" | R6S => "R6S"
  end.

(** [z.enum(['VAL', 'CSG', 'TF2', 'APE', 'COD', 'R6S'])] *)
Definition GameplayTypes (v : JsValue) : option GameplayType :=
  match v with
  | JsString s =>
      if String.eqb s "VAL" then Some VAL
      else if String.eqb s "CSG" then Some CSG
      else if String.eqb s "TF2" then Some TF2
      else if String.eqb s "APE" then Some APE
      else if String.eqb s "COD" then Some COD
      else if String.eqb s "R6S" then Some R6S
      else None
  | _ => None
  end.

(** [z.enum(['NOCHEAT', 'AIMBOT', 'TRIGGERBOT', 'ESP', 'SPINBOT'])] *)
Definition CheatTypes (v : JsValue) : option CheatType :=
  match v with
  | JsString s =>
      if String.eqb s "NOCHEAT" then Some NOCHEAT
      else if String.eqb s "AIMBOT" then Some AIMBOT
      else if String.eqb s "TRIGGERBOT" then Some TRIGGERBOT
      else if String.eqb s "ESP" then Some ESP
      else if String.eqb s "SPINBOT" then Some SPINBOT
      else None
  | _ => None
  end.

(** [schema.array()]: every item has to parse. *)
Fixpoint array {A B} (schema : A -> option B) (items : list A)
  : option (list B) :=
  match items with
  | [] => Some []
  | item :: rest =>
      match schema item, array schema rest with
      | Some parsed, Some others => Some (parsed :: others)
      | _, _ => None
      end
  end.

(** White space of the ASCII range, as [\s] has it. *)
Definition is_space (c : ascii) : bool :=
  let n := nat_of_ascii c in
  (Nat.leb 9 n && Nat.leb n 13) || Nat.eqb n 32.

Fixpoint no_space_no_dash (s : string) : bool :=
  match s with
  | EmptyString => true
  | String c rest =>
      negb (is_space c) && negb (Ascii.eqb c "-") && no_space_no_dash rest
  end.

(** [z.string().cuid()]: the letter c, in either case, followed by at
    least eight characters none of which is white space or a dash.  It is
    also what the input parsers ask of a [gameplayId]. *)
Definition is_cuid (s : string) : bool :=
  match s with
  | EmptyString => false
  | String c rest =>
      (Ascii.eqb c "c" || Ascii.eqb c "C")
      && Nat.leb 8 (String.length rest)
      && no_space_no_dash rest
  end.

(** What [GameplaySchema] yields. *)
Module Gameplay.
Record t : Type := mk {
  id : string;
  userId : string;
  youtubeUrl : string;
  gameplayType : GameplayType;
  isAnalyzed : bool;
  cheats : list CheatType
}.
End Gameplay.

(** [GameplaySchema] of [utils/zod/gameplay.ts]: an object with the six
    keys below, each required; other keys are dropped.  [is_url] is
    [z.string().url()], the test that the platform's URL parser accepts
    the string, which is left a parameter. *)
Definition GameplaySchema (is_url : string -> bool) (o : JsObject)
  : option Gameplay.t :=
  match property "id" o, property "userId" o, property "youtubeUrl" o,
        property "gameplayType" o, property "isAnalyzed" o,
        property "cheats" o with
  | Some (JsString id), Some (JsString userId), Some (JsString youtubeUrl),
    Some gameplayType, Some (JsBoolean isAnalyzed), Some (JsArray cheats) =>
      match GameplayTypes gameplayType, array CheatTypes cheats with
      | Some ty, Some found =>
          if is_cuid id && is_url youtubeUrl
          then Some (Gameplay.mk id userId youtubeUrl ty isAnalyzed found)
          else None
      | _, _ => None
      end
  | _, _, _, _, _, _ => None
  end.

(** A row of [footage] as the database client hands it over: the columns
    the handlers write and read, which are those [FootageZodSchema] of the
    REST handlers lists.  (The [footage] model itself is not among the
    sources at hand; further columns, such as time stamps, would be dropped
    by the parser.) *)
Definition Footage_object (g : Footage.t) : JsObject :=
  [("id", JsString (Footage.id g));
   ("userId", JsString (Footage.userId g));
   ("youtubeUrl", JsString (Footage.youtubeUrl g));
   ("videoFormat", JsNumber (Footage.videoFormat g));
   ("footageType", JsString (GameplayType_text (Footage.footageType g)));
   ("isAnalyzed", JsBoolean (Footage.isAnalyzed g));
   ("isParsed", JsBoolean (Footage.isParsed g))].

(** What [GameplaysDashSchema] yields. *)
Module GameplaysDash.
Record t : Type := mk {
  id : string;
  userId : string;
  youtubeUrl : string;
  gameplayType : GameplayType;
  cheats : list CheatType;
  isAnalyzed : bool;
  user_name : option string;
  gameplayCount : option Z
}.
End GameplaysDash.

(** [z.string().nullable()] *)
Definition nullable_string (v : JsValue) : option (option string) :=
  match v with
  | JsString s => Some (Some s)
  | JsNull => Some None
  | _ => None
  end.

(** [z.number().optional()], at a key that may be absent. *)
Definition optional_number (v : option JsValue) : option (option Z) :=
  match v with
  | None => Some None
  | Some (JsNumber n) => Some (Some n)
  | Some _ => None
  end.

(** [GameplaysDashSchema] of [utils/zod/gameplay.ts]: the keys of
    [GameplaySchema], with [userId] a cuid, the required object [user]
    with its [name], and the optional [gameplayCount]. *)
Definition GameplaysDashSchema (is_url : string -> bool) (o : JsObject)
  : option GameplaysDash.t :=
  match property "id" o, property "userId" o, property "youtubeUrl" o,
        property "gameplayType" o, property "cheats" o,
        property "isAnalyzed" o, property "user" o with
  | Some (JsString id), Some (JsString userId), Some (JsString youtubeUrl),
    Some gameplayType, Some (JsArray cheats), Some (JsBoolean isAnalyzed),
    Some (JsRecord user) =>
      match GameplayTypes gameplayType, array CheatTypes cheats,
            option_map nullable_string (property "name" user),
            optional_number (property "gameplayCount" o) with
      | Some ty, Some found, Some (Some name), Some gameplayCount =>
          if is_cuid id && is_cuid userId && is_url youtubeUrl
          then Some (GameplaysDash.mk id userId youtubeUrl ty found
                                      isAnalyzed name gameplayCount)
          else None
      | _, _, _, _ => None
      end
  | _, _, _, _, _, _, _ => None
  end.

(** A row of [getMany]: the row of [footage] with the [gameplayCount] that
    [Object.assign] has put on it. *)
Definition Footage_counted_object (row : Footage.t * nat) : JsObject :=
  Footage_object (fst row)
  ++ [("gameplayCount", JsNumber (Z.of_nat (snd row)))].

Module protectedProcedure.

(** What the caller gets when the output does not parse. *)
Definition output_error : Exn :=
  TRPCError INTERNAL_SERVER_ERROR (Some "Output validation failed")
            (Some ZodError).

(** [.output(schema)] put before a resolver. *)
Definition output {A B} (schema : A -> option B) (resolver : M A) : M B :=
  data <- resolver ;;
  match schema data with
  | Some parsed => ret parsed
  | None => throw output_error
  end.

End protectedProcedure.

(** The procedures that declare [GameplaySchema] or [GameplaysDashSchema]
    as their output, as a caller reaches them: the resolver of
    [gameplayRouter] behind its output parser.  Their inputs are values the
    input parser has let through. *)
Module procedure.

Section Procedures.

Variable hasPerms : HasPermsInput.t -> bool.
Variable remote : string -> option ytdl.videoInfo.
Variable is_url : string -> bool.

Definition schema (g : Footage.t) : option Gameplay.t :=
  GameplaySchema is_url (Footage_object g).

Definition get (s : Session.t) (gameplayId : string) : M Gameplay.t :=
  protectedProcedure.output schema (gameplayRouter.get hasPerms s gameplayId).

Definition create (s : Session.t) (youtubeUrl : string)
    (gameplayType : GameplayType) : M Gameplay.t :=
  protectedProcedure.output schema
    (gameplayRouter.create hasPerms remote s youtubeUrl gameplayType).

Definition getUsers (s : Session.t)
    (input_userId : gameplayRouter.nullish string) : M (list Gameplay.t) :=
  protectedProcedure.output (array schema)
    (gameplayRouter.getUsers hasPerms s input_userId).

Definition update (s : Session.t) (gameplayId : string)
    (footageType : GameplayType) (isAnalyzed : bool) : M Gameplay.t :=
  protectedProcedure.output schema
    (gameplayRouter.update hasPerms s gameplayId footageType isAnalyzed).

Definition dash_schema (row : Footage.t * nat) : option GameplaysDash.t :=
  GameplaysDashSchema is_url (Footage_counted_object row).

Definition getMany (s : Session.t) (page : Z)
    (filterGames : option GameplayType) : M (list GameplaysDash.t) :=
  protectedProcedure.output (array dash_schema)
    (gameplayRouter.getMany s page filterGames).

End Procedures.

End procedure.

(** Sample data whose ids have the shape the input parsers ask for. *)
Module Received.
Definition alice : User.t :=
  User.mk "cuseralice001" (Some "Alice") Roles.User false.
Definition bob : User.t :=
  User.mk "cuserbobby002" (Some "Bob") Roles.Mod false.

Definition gid : string := "cfootage00001".

Definition g1 : Footage.t :=
  Footage.mk gid "cuseralice001" Sample.url_a 299 CSG false false.

Definition vote1 : FootageVotes.t :=
  FootageVotes.mk "cvote00000001" gid "cuserbobby002" true CSG.

Definition clip1 : Clip.t := Clip.mk "cclip00000001" gid.

Definition users : list User.t := [alice; bob].

Definition db1 : Prisma := mkPrisma [g1] [] [] users.
Definition db_voted : Prisma := mkPrisma [g1] [] [vote1] users.
Definition db_clipped : Prisma := mkPrisma [g1] [clip1] [vote1] users.
Definition db_empty : Prisma := mkPrisma [] [] [] users.

(** A stand-in for the URL test: the strings that start with [https://]. *)
Definition is_url (s : string) : bool := String.prefix "https://" s.
End Received.


(* ================================================================= *)
(** * Proofs *)

Ltac unfold_monad :=
  unfold bind, ret, throw, try_catch, get_prisma, put_prisma, get_fs,
    put_fs, get_world, put_world, log, cuid, set_prisma, set_fs in *.

Lemma succeeds_not_fails {A} (x : Result A * World) :
  succeeds x -> ~ fails x.
Proof.
  intros [a Ha] [e He]. rewrite Ha in He. discriminate.
Qed.

Lemma geb_User_Mod : Roles.geb Roles.User Roles.Mod = false.
Proof. reflexivity. Qed.

(** With the role [User], the engine of the spec lets the owner through an
    [isOwner] requirement and nobody through [roleMod]. *)
Lemma hasPerms_spec_User_isOwner ownerless uid owner blk :
  hasPerms_spec ownerless
    (HasPermsInput.mk uid Roles.User (Some owner) Perms.isOwner blk)
  = negb blk && String.eqb uid owner.
Proof.
  unfold hasPerms_spec; cbn. destruct blk; cbn; [reflexivity|].
  now rewrite orb_false_r.
Qed.

Lemma hasPerms_spec_User_roleMod ownerless uid owner blk :
  hasPerms_spec ownerless
    (HasPermsInput.mk uid Roles.User owner Perms.roleMod blk) = false.
Proof.
  unfold hasPerms_spec; cbn. now destruct blk.
Qed.

Lemma hasPerms_spec_blacklisted ownerless uid r owner req :
  hasPerms_spec ownerless (HasPermsInput.mk uid r owner req true) = false.
Proof. reflexivity. Qed.

(* ----------------------------------------------------------------- *)
(** *** The session role *)

(** C10. Every call of the permission engine in the gameplay router passes
    the constant role [Roles.User], never the role of the session: for any
    engine, any two sessions that differ only in the user's role get the
    same result and the same final state from every procedure of the
    router.  With the engine of the spec, a moderator or administrator
    session therefore never passes a [roleMod] gate (listing clips,
    changing [isAnalyzed]) and never bypasses ownership (reading or
    deleting somebody else's submission). *)
Theorem role_is_never_consulted :
  forall (hasPerms : HasPermsInput.t -> bool)
         (remote : string -> option ytdl.videoInfo) (s1 s2 : Session.t),
    same_but_role s1 s2 ->
    (forall gid w,
        gameplayRouter.get hasPerms s1 gid w
        = gameplayRouter.get hasPerms s2 gid w)
    /\ (forall page games w,
        gameplayRouter.getMany s1 page games w
        = gameplayRouter.getMany s2 page games w)
    /\ (forall url ty w,
        gameplayRouter.create hasPerms remote s1 url ty w
        = gameplayRouter.create hasPerms remote s2 url ty w)
    /\ (forall uid w,
        gameplayRouter.getUsers hasPerms s1 uid w
        = gameplayRouter.getUsers hasPerms s2 uid w)
    /\ (forall gid w,
        gameplayRouter.getClips hasPerms s1 gid w
        = gameplayRouter.getClips hasPerms s2 gid w)
    /\ (forall gid ty b w,
        gameplayRouter.update hasPerms s1 gid ty b w
        = gameplayRouter.update hasPerms s2 gid ty b w)
    /\ (forall gid w,
        gameplayRouter.delete hasPerms s1 gid w
        = gameplayRouter.delete hasPerms s2 gid w)
    /\ (forall r1 r2 r3 w,
        gameplayRouter.getReviewItems s1 r1 r2 r3 w
        = gameplayRouter.getReviewItems s2 r1 r2 r3 w)
    /\ (forall gid isGame game w,
        gameplayRouter.review s1 gid isGame game w
        = gameplayRouter.review s2 gid isGame game w)
    /\ (forall ownerless gid w,
        fails (gameplayRouter.getClips (hasPerms_spec ownerless) s1 gid w))
    /\ (forall ownerless gid ty b w g,
        footage_.findUnique_id gid (prisma w) = Some g ->
        b <> Footage.isAnalyzed g ->
        fails (gameplayRouter.update (hasPerms_spec ownerless) s1 gid ty b w))
    /\ (forall ownerless gid w g,
        footage_.findUnique_id gid (prisma w) = Some g ->
        Session.id s1 <> Footage.userId g ->
        fails (gameplayRouter.get (hasPerms_spec ownerless) s1 gid w)
        /\ fails (gameplayRouter.delete (hasPerms_spec ownerless) s1 gid w)).
Proof.
  intros hasPerms remote [i1 r1 b1] [i2 r2 b2] [Hid Hblk].
  cbn in Hid, Hblk. subst i2 b2.
  repeat match goal with |- _ /\ _ => split end;
    try (intros; reflexivity).
  - intros ownerless gid w.
    unfold gameplayRouter.getClips, fails; unfold_monad; cbn.
    destruct (footage_.findUnique_id gid (prisma w)) as [g|]; cbn.
    + rewrite hasPerms_spec_User_roleMod. cbn. eauto.
    + eauto.
  - intros ownerless gid ty b w g Hg Hb.
    unfold gameplayRouter.update, footage_.findUniqueOrThrow_id, fails.
    unfold_monad; cbn. rewrite Hg; cbn.
    destruct (Bool.eqb (Footage.isAnalyzed g) b) eqn:E.
    + apply eqb_prop in E. congruence.
    + rewrite hasPerms_spec_User_roleMod. cbn. eauto.
  - intros ownerless gid w g Hg Hown.
    assert (Hneq : String.eqb i1 (Footage.userId g) = false)
      by (apply String.eqb_neq; exact Hown).
    split.
    + unfold gameplayRouter.get, fails; unfold_monad; cbn.
      rewrite Hg, hasPerms_spec_User_isOwner, Hneq, andb_false_r.
      cbn. eauto.
    + unfold gameplayRouter.delete, footage_.findUniqueOrThrow_id, fails.
      unfold_monad; cbn.
      rewrite Hg; cbn.
      rewrite hasPerms_spec_User_isOwner, Hneq, andb_false_r.
      cbn. eauto.
Qed.

Lemma role_is_never_consulted_witness :
  let s1 := Session.mk "u2" Roles.User false in
  let s2 := Session.mk "u2" Roles.Admin false in
  let w := Sample.world Sample.db1 [] in
  same_but_role s1 s2
  /\ gameplayRouter.update (hasPerms_spec true) s1 "f1" CSG true w
     = gameplayRouter.update (hasPerms_spec true) s2 "f1" CSG true w
  /\ fails (gameplayRouter.getClips (hasPerms_spec true) s1 "f1" w).
Proof.
  intros s1 s2 w.
  assert (H : same_but_role s1 s2) by (split; reflexivity).
  destruct (role_is_never_consulted (hasPerms_spec true) Sample.site H)
    as (_ & _ & _ & _ & _ & Hupd & _ & _ & _ & Hclips & _).
  split; [exact H|]. split; [apply Hupd | apply Hclips].
Defined.

(* ----------------------------------------------------------------- *)
(** *** What the gated procedures do *)

Section Gates.
Variable hasPerms : HasPermsInput.t -> bool.
Variable remote : string -> option ytdl.videoInfo.
Variable s : Session.t.

Lemma create_denied url ty w :
  hasPerms (gate s None Perms.isOwner) = false ->
  gameplayRouter.create hasPerms remote s url ty w
  = (Threw (TRPCError UNAUTHORIZED None None), w).
Proof.
  intros H. unfold gameplayRouter.create. unfold gate in H; cbn in H.
  now rewrite H.
Qed.

Lemma get_run gid w g :
  footage_.findUnique_id gid (prisma w) = Some g ->
  gameplayRouter.get hasPerms s gid w
  = if hasPerms (gate s (Some (Footage.userId g)) Perms.isOwner)
    then (Ok g, w)
    else (Threw (TRPCError NOT_FOUND
                   (Some "Could not find that requested gameplay") None), w).
Proof.
  intros Hg. unfold gameplayRouter.get; unfold_monad; cbn.
  rewrite Hg. unfold gate; cbn.
  now destruct (hasPerms _).
Qed.

Lemma getUsers_denied uid w :
  hasPerms (gate s match uid with
                 | gameplayRouter.null => Some (Session.id s)
                 | gameplayRouter.undefined => None
                 | gameplayRouter.value u => Some u
                 end Perms.isOwner) = false ->
  gameplayRouter.getUsers hasPerms s uid w
  = (Threw (TRPCError UNAUTHORIZED None None), w).
Proof.
  intros H. unfold gameplayRouter.getUsers. unfold gate in H; cbn in H.
  now rewrite H.
Qed.

Lemma getClips_run gid w g :
  footage_.findUnique_id gid (prisma w) = Some g ->
  gameplayRouter.getClips hasPerms s gid w
  = if hasPerms (gate s (Some (Footage.userId g)) Perms.roleMod)
    then (Ok (filter (fun c => String.eqb (Clip.footageId c) gid)
                     (clip (prisma w))), w)
    else (Threw (TRPCError UNAUTHORIZED None None), w).
Proof.
  intros Hg. unfold gameplayRouter.getClips; unfold_monad; cbn.
  rewrite Hg. unfold gate; cbn.
  now destruct (hasPerms _).
Qed.

Lemma update_run gid ty b w g :
  footage_.findUnique_id gid (prisma w) = Some g ->
  gameplayRouter.update hasPerms s gid ty b w
  = if hasPerms (gate s (Some (Footage.userId g)) (update_requirement g b))
    then footage_.update gid b ty w
    else (Threw (gameplayRouter.server_error
                   (TRPCError UNAUTHORIZED None None)), w).
Proof.
  intros Hg.
  unfold gameplayRouter.update, footage_.findUniqueOrThrow_id.
  unfold_monad; cbn. rewrite Hg. unfold gate, update_requirement; cbn.
  destruct (hasPerms _); cbn; [|reflexivity].
  unfold footage_.update; unfold_monad; cbn. now rewrite Hg.
Qed.

Lemma update_missing gid ty b w :
  footage_.findUnique_id gid (prisma w) = None ->
  gameplayRouter.update hasPerms s gid ty b w
  = (Threw (gameplayRouter.server_error
              (PrismaClientError RecordNotFound)), w).
Proof.
  intros Hg.
  unfold gameplayRouter.update, footage_.findUniqueOrThrow_id.
  unfold_monad; cbn. now rewrite Hg.
Qed.

Lemma footage_update_found gid ty b w g :
  footage_.findUnique_id gid (prisma w) = Some g ->
  exists g' w', footage_.update gid b ty w = (Ok g', w')
                /\ Footage.isAnalyzed g' = b
                /\ Footage.footageType g' = ty
                /\ Footage.id g' = Footage.id g.
Proof.
  intros Hg. unfold footage_.update; unfold_monad; cbn. rewrite Hg.
  eexists _, _. split; [reflexivity|]. cbn. auto.
Qed.

Lemma delete_run gid w g :
  footage_.findUnique_id gid (prisma w) = Some g ->
  gameplayRouter.delete hasPerms s gid w
  = if hasPerms (gate s (Some (Footage.userId g)) Perms.isOwner)
    then match footage_.delete gid w with
         | (Ok _, w') => (Ok tt, w')
         | (Threw e, w') => (Threw (gameplayRouter.server_error e), w')
         end
    else (Threw (gameplayRouter.server_error
                   (TRPCError UNAUTHORIZED None None)), w).
Proof.
  intros Hg.
  unfold gameplayRouter.delete, footage_.findUniqueOrThrow_id.
  unfold_monad; cbn -[footage_.delete]. rewrite Hg. unfold gate.
  cbn -[footage_.delete].
  destruct (hasPerms _); cbn -[footage_.delete]; [|reflexivity].
  now destruct (footage_.delete gid w) as [[?|?] ?].
Qed.

Lemma delete_missing gid w :
  footage_.findUnique_id gid (prisma w) = None ->
  gameplayRouter.delete hasPerms s gid w
  = (Threw (gameplayRouter.server_error
              (PrismaClientError RecordNotFound)), w).
Proof.
  intros Hg.
  unfold gameplayRouter.delete, footage_.findUniqueOrThrow_id.
  unfold_monad; cbn. now rewrite Hg.
Qed.

End Gates.

(* ----------------------------------------------------------------- *)
(** *** Deleting a submission *)

(** Whatever the referential action, the rows left after an accepted
    delete do not reference the deleted record. *)
Lemma onDelete_no_reference {R} (a : ReferentialAction) (refers : R -> bool)
    (rows rows' : list R) :
  onDelete a refers rows = Some rows' ->
  forall r, In r rows' -> refers r = false.
Proof.
  destruct a; cbn.
  - intros [= <-] r Hr. apply filter_In in Hr as [_ Hr].
    now apply negb_true_iff.
  - destruct (existsb refers rows) eqn:E; [discriminate|].
    intros [= <-] r Hr.
    destruct (refers r) eqn:Er; [|reflexivity].
    assert (existsb refers rows = true) by (apply existsb_exists; eauto).
    congruence.
  - destruct (existsb refers rows) eqn:E; [discriminate|].
    intros [= <-] r Hr.
    destruct (refers r) eqn:Er; [|reflexivity].
    assert (existsb refers rows = true) by (apply existsb_exists; eauto).
    congruence.
Qed.

Lemma find_filter_none {A} (p : A -> bool) (l : list A) :
  find p (filter (fun x => negb (p x)) l) = None.
Proof.
  induction l as [|x l IH]; cbn; [reflexivity|].
  destruct (p x) eqn:E; cbn; [exact IH|]. now rewrite E.
Qed.

(** The three outcomes of [prisma.footage.delete]. *)
Lemma footage_delete_cases gid w :
  (exists e, footage_.delete gid w = (Threw e, w))
  \/ (exists g clips' votes',
        footage_.findUnique_id gid (prisma w) = Some g
        /\ onDelete Clip_gameplay_onDelete
             (fun c => String.eqb (Clip.footageId c) gid) (clip (prisma w))
           = Some clips'
        /\ onDelete GameplayVotes_gameplay_onDelete
             (fun v => String.eqb (FootageVotes.footageId v) gid)
             (footageVotes (prisma w))
           = Some votes'
        /\ footage_.delete gid w
           = (Ok g,
              set_prisma
                (mkPrisma
                   (filter (fun x => negb (String.eqb (Footage.id x) gid))
                           (footage (prisma w)))
                   clips' votes' (user (prisma w))) w)).
Proof.
  unfold footage_.delete; unfold_monad.
  cbn -[onDelete Clip_gameplay_onDelete GameplayVotes_gameplay_onDelete].
  destruct (footage_.findUnique_id gid (prisma w)) as [g|]; [|left; eauto].
  destruct (onDelete Clip_gameplay_onDelete _ _) as [clips'|] eqn:Ec;
    [|left; eauto].
  destruct (onDelete GameplayVotes_gameplay_onDelete _ _) as [votes'|] eqn:Ev;
    [|left; eauto].
  right. exists g, clips', votes'. auto.
Qed.

Lemma footage_delete_ok gid w g w' :
  footage_.delete gid w = (Ok g, w') ->
  footage_.findUnique_id gid (prisma w') = None
  /\ (forall c, In c (clip (prisma w')) -> Clip.footageId c <> gid)
  /\ (forall v, In v (footageVotes (prisma w')) ->
                FootageVotes.footageId v <> gid)
  /\ footage (prisma w')
     = filter (fun x => negb (String.eqb (Footage.id x) gid))
              (footage (prisma w))
  /\ user (prisma w') = user (prisma w)
  /\ cuids w' = cuids w /\ calls w' = calls w /\ fs w' = fs w.
Proof.
  intros H.
  destruct (footage_delete_cases gid w)
    as [[e He]|(g0 & clips' & votes' & Hg & Hc & Hv & Hd)].
  - rewrite He in H. discriminate.
  - rewrite Hd in H. injection H as <- <-. cbn.
    split; [apply (find_filter_none
                     (fun x => String.eqb (Footage.id x) gid))|].
    split; [|split].
    + intros c Hin. apply String.eqb_neq.
      exact (onDelete_no_reference _ _ _ Hc c Hin).
    + intros v Hin. apply String.eqb_neq.
      exact (onDelete_no_reference _ _ _ Hv v Hin).
    + auto 10.
Qed.

Lemma footage_delete_threw gid w e w' :
  footage_.delete gid w = (Threw e, w') -> w' = w.
Proof.
  intros H.
  destruct (footage_delete_cases gid w)
    as [[e0 He]|(g0 & clips' & votes' & _ & _ & _ & Hd)];
    rewrite H in *; congruence.
Qed.

Lemma router_delete_ok hasPerms s gid w w' :
  gameplayRouter.delete hasPerms s gid w = (Ok tt, w') ->
  exists g, footage_.findUnique_id gid (prisma w) = Some g
            /\ footage_.delete gid w = (Ok g, w').
Proof.
  intros H.
  destruct (footage_.findUnique_id gid (prisma w)) as [g|] eqn:Hg.
  - rewrite (delete_run hasPerms s gid w Hg) in H.
    destruct (hasPerms _); [|discriminate].
    destruct (footage_.delete gid w) as [[g0|e] w0] eqn:Hd; [|discriminate].
    injection H as <-. exists g. split; [reflexivity|].
    destruct (footage_delete_cases gid w)
      as [[e0 He]|(g1 & ? & ? & Hg1 & _ & _ & Hd1)]; [congruence|].
    congruence.
  - rewrite (delete_missing hasPerms s gid w Hg) in H. discriminate.
Qed.

(** A submission that still has a clip is not deleted: the clip relation
    carries no cascade. *)
Lemma delete_refused_while_clips_exist :
  let s := Sample.session_of Sample.alice in
  let w := Sample.world Sample.db_clipped [] in
  gameplayRouter.delete (hasPerms_spec true) s "f1" w
  = (Threw (gameplayRouter.server_error
              (PrismaClientError ForeignKeyConstraintFailed)), w).
Proof. reflexivity. Qed.

(* ----------------------------------------------------------------- *)
(** *** The permission gate *)

(** C1, as the code has it. In the gameplay router, [create], [get],
    [getUsers], [getClips], [update] and [delete] put the permission check
    before any change and before any answer: when the check denies, the call
    fails and the world is what it was. *)
Theorem router_checks_before_acting :
  forall (hasPerms : HasPermsInput.t -> bool)
         (remote : string -> option ytdl.videoInfo)
         (s : Session.t) (w : World),
    let asked owner req :=
      HasPermsInput.mk (Session.id s) Roles.User owner req
                       (Session.blacklisted s) in
    (forall url ty,
        hasPerms (asked None Perms.isOwner) = false ->
        gameplayRouter.create hasPerms remote s url ty w
        = (Threw (TRPCError UNAUTHORIZED None None), w))
    /\ (forall gid g,
        footage_.findUnique_id gid (prisma w) = Some g ->
        hasPerms (asked (Some (Footage.userId g)) Perms.isOwner) = false ->
        exists e, gameplayRouter.get hasPerms s gid w = (Threw e, w))
    /\ (forall uid,
        hasPerms (asked match uid with
                        | gameplayRouter.null => Some (Session.id s)
                        | gameplayRouter.undefined => None
                        | gameplayRouter.value u => Some u
                        end Perms.isOwner) = false ->
        gameplayRouter.getUsers hasPerms s uid w
        = (Threw (TRPCError UNAUTHORIZED None None), w))
    /\ (forall gid g,
        footage_.findUnique_id gid (prisma w) = Some g ->
        hasPerms (asked (Some (Footage.userId g)) Perms.roleMod) = false ->
        gameplayRouter.getClips hasPerms s gid w
        = (Threw (TRPCError UNAUTHORIZED None None), w))
    /\ (forall gid ty b g,
        footage_.findUnique_id gid (prisma w) = Some g ->
        hasPerms (asked (Some (Footage.userId g))
                       (if Bool.eqb (Footage.isAnalyzed g) b
                        then Perms.isOwner else Perms.roleMod)) = false ->
        exists e, gameplayRouter.update hasPerms s gid ty b w = (Threw e, w))
    /\ (forall gid g,
        footage_.findUnique_id gid (prisma w) = Some g ->
        hasPerms (asked (Some (Footage.userId g)) Perms.isOwner) = false ->
        exists e, gameplayRouter.delete hasPerms s gid w = (Threw e, w)).
Proof.
  intros hasPerms remote s w asked. subst asked.
  repeat match goal with |- _ /\ _ => split end.
  - intros url ty H. now apply create_denied.
  - intros gid g Hg H. rewrite (get_run hasPerms s gid w Hg).
    unfold gate. rewrite H. eauto.
  - intros uid H. now apply getUsers_denied.
  - intros gid g Hg H. rewrite (getClips_run hasPerms s gid w Hg).
    unfold gate. now rewrite H.
  - intros gid ty b g Hg H.
    rewrite (update_run hasPerms s gid ty b w Hg).
    unfold gate, update_requirement. rewrite H. eauto.
  - intros gid g Hg H. rewrite (delete_run hasPerms s gid w Hg).
    unfold gate. rewrite H. eauto.
Qed.

Lemma router_checks_before_acting_witness :
  let s := Sample.session_of Sample.mallory in
  let w := Sample.world Sample.db_voted [] in
  footage_.findUnique_id "f1" (prisma w) = Some Sample.f1
  /\ hasPerms_spec true
       (HasPermsInput.mk (Session.id s) Roles.User (Some "u1")
                         Perms.isOwner (Session.blacklisted s)) = false
  /\ exists e,
       gameplayRouter.delete (hasPerms_spec true) s "f1" w = (Threw e, w).
Proof.
  intros s w.
  assert (Hg : footage_.findUnique_id "f1" (prisma w) = Some Sample.f1)
    by reflexivity.
  assert (Hd : hasPerms_spec true
                 (HasPermsInput.mk (Session.id s) Roles.User
                    (Some (Footage.userId Sample.f1))
                    Perms.isOwner (Session.blacklisted s)) = false)
    by reflexivity.
  split; [exact Hg|]. split; [exact Hd|].
  destruct (router_checks_before_acting (hasPerms_spec true) Sample.site s w)
    as (_ & _ & _ & _ & _ & Hdel).
  exact (Hdel "f1" Sample.f1 Hg Hd).
Defined.

(** C1, as the spec has it, fails on the REST footage handlers: they take no
    actor and consult no permission engine, so they change the database for
    whoever calls them, an actor the engine denies included. *)
Lemma footage_handlers_consult_no_gate :
  let w := Sample.world Sample.db_voted [] in
  (forall ownerless req owner,
      hasPerms_spec ownerless
        (HasPermsInput.mk "u3" Roles.Admin owner req true) = false)
  /\ deleteFootage "f1" w
     = (Ok "Footage deleted successfully.",
        Sample.world Sample.db_empty [])
  /\ fst (updateFootage "f1" true VAL false w)
     = Ok (Footage.mk "f1" "u1" Sample.url_a 299 VAL true false)
  /\ snd (updateFootage "f1" true VAL false w) <> w.
Proof.
  cbv zeta. split; [reflexivity|]. split; [reflexivity|].
  split; [reflexivity|]. cbn. intros H. discriminate H.
Qed.

(* ----------------------------------------------------------------- *)
(** *** Blacklisted callers *)

(** What the router does hold for a blacklisted caller: [create] answers
    [UNAUTHORIZED], [update] and [delete] fail, and none of them changes
    anything. *)
Lemma blacklisted_create_update_delete :
  forall ownerless remote (s : Session.t) (w : World),
    Session.blacklisted s = true ->
    (forall url ty,
        gameplayRouter.create (hasPerms_spec ownerless) remote s url ty w
        = (Threw (TRPCError UNAUTHORIZED None None), w))
    /\ (forall gid ty b,
        exists e,
          gameplayRouter.update (hasPerms_spec ownerless) s gid ty b w
          = (Threw (gameplayRouter.server_error e), w))
    /\ (forall gid,
        exists e,
          gameplayRouter.delete (hasPerms_spec ownerless) s gid w
          = (Threw (gameplayRouter.server_error e), w)).
Proof.
  intros ownerless remote [i r b] w Hb. cbn in Hb. subst b.
  split; [|split].
  - intros. now apply create_denied.
  - intros gid ty b.
    destruct (footage_.findUnique_id gid (prisma w)) as [g|] eqn:Hg.
    + rewrite (update_run _ _ gid ty b w Hg). cbn. eauto.
    + rewrite (update_missing _ _ gid ty b w Hg). eauto.
  - intros gid.
    destruct (footage_.findUnique_id gid (prisma w)) as [g|] eqn:Hg.
    + rewrite (delete_run _ _ gid w Hg). cbn. eauto.
    + rewrite (delete_missing _ _ gid w Hg). eauto.
Qed.

(** C3 fails on [review] and, for the error code, on [update] and [delete].
    The blacklisted user [mallory] casts a vote: [review] never consults the
    permission engine, answers with its success message and stores the vote.
    Her [update] and [delete] are refused without any change, but the
    [UNAUTHORIZED] error thrown inside the [try] block is caught by its own
    [catch] and reaches the caller as the cause of an
    [INTERNAL_SERVER_ERROR]. *)
Theorem blacklisted_reviewer_votes :
  let s := Sample.session_of Sample.mallory in
  let w := Sample.world Sample.db1 [] in
  Session.blacklisted s = true
  /\ fst (gameplayRouter.review s "f1" true CSG w)
     = Ok "Updated the gameplay document successfully."
  /\ footageVotes (prisma (snd (gameplayRouter.review s "f1" true CSG w)))
     = [FootageVotes.mk "c1" "f1" "u3" true CSG]
  /\ gameplayRouter.update (hasPerms_spec true) s "f1" CSG false w
     = (Threw (TRPCError INTERNAL_SERVER_ERROR
                 (Some "An error occurred in the server")
                 (Some (TRPCError UNAUTHORIZED None None))), w)
  /\ gameplayRouter.delete (hasPerms_spec true) s "f1" w
     = (Threw (TRPCError INTERNAL_SERVER_ERROR
                 (Some "An error occurred in the server")
                 (Some (TRPCError UNAUTHORIZED None None))), w).
Proof. cbv zeta. repeat split. Qed.

(** [review] reads nothing of the session but the user's id. *)
Lemma review_reads_only_the_id (s1 s2 : Session.t) gid isGame game w :
  Session.id s1 = Session.id s2 ->
  gameplayRouter.review s1 gid isGame game w
  = gameplayRouter.review s2 gid isGame game w.
Proof.
  intros H. unfold gameplayRouter.review. now rewrite H.
Qed.

(* ----------------------------------------------------------------- *)
(** *** Clip extraction *)

Lemma cuid_of_inj (n m : nat) : cuid_of n = cuid_of m -> n = m.
Proof.
  unfold cuid_of. cbn. intros [= H].
  apply DecimalNat.Unsigned.to_uint_inj.
  assert (Some (Nat.to_uint n) = Some (Nat.to_uint m)) as [= E];
    [|exact E].
  now rewrite <- !NilEmpty.usu, H.
Qed.

Create HintDb keeps discriminated.

Lemma keeps_prisma_ret {A} (a : A) : keeps_prisma (ret a).
Proof. intro w; reflexivity. Qed.

Lemma keeps_prisma_throw {A} (e : Exn) : keeps_prisma (@throw A e).
Proof. intro w; reflexivity. Qed.

Lemma keeps_prisma_bind {A B} (m : M A) (k : A -> M B) :
  keeps_prisma m -> (forall a, keeps_prisma (k a)) ->
  keeps_prisma (bind m k).
Proof.
  intros Hm Hk w. unfold bind. specialize (Hm w).
  destruct (m w) as [[a|e] w1]; cbn in *; [|exact Hm].
  now rewrite Hk.
Qed.

Lemma keeps_prisma_if {A} (c : bool) (m1 m2 : M A) :
  keeps_prisma m1 -> keeps_prisma m2 ->
  keeps_prisma (if c then m1 else m2).
Proof. now destruct c. Qed.

Lemma keeps_prisma_get_fs : keeps_prisma get_fs.
Proof. intro w; reflexivity. Qed.

Lemma keeps_prisma_put_fs f : keeps_prisma (put_fs f).
Proof. intro w; reflexivity. Qed.

Lemma keeps_prisma_cuid : keeps_prisma cuid.
Proof. intro w; reflexivity. Qed.

Lemma keeps_prisma_log c : keeps_prisma (log c).
Proof. intro w; reflexivity. Qed.

#[local] Hint Resolve keeps_prisma_ret keeps_prisma_throw keeps_prisma_if
  keeps_prisma_get_fs keeps_prisma_put_fs keeps_prisma_cuid
  keeps_prisma_log : keeps.

Ltac keeps_step :=
  repeat first
    [ solve [auto with keeps]
    | apply keeps_prisma_bind; [|intros ?]
    | apply keeps_prisma_if
    | match goal with
      | |- keeps_prisma (match ?x with _ => _ end) => destruct x
      end ].

Lemma keeps_prisma_mkdirSync p : keeps_prisma (fs_.mkdirSync p).
Proof. unfold fs_.mkdirSync. keeps_step. Qed.

Lemma keeps_prisma_readdirSync d : keeps_prisma (fs_.readdirSync d).
Proof. unfold fs_.readdirSync. keeps_step. Qed.

Lemma keeps_prisma_rmSync_recursive_force p :
  keeps_prisma (fs_.rmSync_recursive_force p).
Proof. unfold fs_.rmSync_recursive_force. keeps_step. Qed.

Lemma keeps_prisma_rmSync_force p : keeps_prisma (fs_.rmSync_force p).
Proof. unfold fs_.rmSync_force. keeps_step. Qed.

Lemma keeps_prisma_copy src dest : keeps_prisma (fs_.copy src dest).
Proof. unfold fs_.copy. keeps_step. Qed.

#[local] Hint Resolve keeps_prisma_mkdirSync keeps_prisma_readdirSync
  keeps_prisma_rmSync_recursive_force keeps_prisma_rmSync_force
  keeps_prisma_copy : keeps.

Lemma keeps_prisma_getDirectories d : keeps_prisma (getDirectories d).
Proof. unfold getDirectories. keeps_step. Qed.

Lemma keeps_prisma_forEach {A} (l : list A) (body : A -> M unit) :
  (forall x, keeps_prisma (body x)) -> keeps_prisma (forEach l body).
Proof.
  intros Hb. induction l as [|x l IH]; cbn.
  - apply keeps_prisma_ret.
  - apply keeps_prisma_bind; auto.
Qed.

#[local] Hint Resolve keeps_prisma_getDirectories : keeps.

Lemma keeps_prisma_storeClips loc id : keeps_prisma (storeClips loc id).
Proof.
  unfold storeClips.
  apply keeps_prisma_bind; [destruct loc; keeps_step|intros _].
  apply keeps_prisma_bind; [auto with keeps|intros clipDirs].
  apply keeps_prisma_forEach. intros clipDir. keeps_step.
Qed.

#[local] Hint Resolve keeps_prisma_storeClips : keeps.

Lemma keeps_prisma_parseClips_on_exit loc uuid video :
  keeps_prisma (parseClips_on_exit loc uuid video).
Proof. unfold parseClips_on_exit. keeps_step. Qed.

(** Listing the directories of [d] changes nothing. *)
Lemma getDirectories_pure_read d : pure_read (getDirectories d).
Proof.
  intros w. unfold getDirectories, fs_.readdirSync; unfold_monad; cbn.
  destruct (statSync d (fs w)) as [[|]|]; reflexivity.
Qed.

(** C4, as the code has it. When the analyzer exits having produced no
    segment directory, the exit handler does nothing: no clip is recorded,
    no submission is touched ([isParsed] stays as it was), and the working
    directory and the downloaded file stay where they are. *)
Theorem no_segment_handler_does_nothing :
  forall (FS_LOCATION : option path) (uuid video : string) (w : World),
    fst (getDirectories ["clips"] w) = Ok [] ->
    parseClips_on_exit FS_LOCATION uuid video w = (Ok tt, w).
Proof.
  intros loc uuid video w H.
  pose proof (getDirectories_pure_read ["clips"] w) as Hw.
  unfold parseClips_on_exit, bind.
  destruct (getDirectories ["clips"] w) as [r w1]. cbn in H, Hw.
  subst r w1. reflexivity.
Qed.

Lemma no_segment_handler_does_nothing_witness :
  let w := Sample.world Sample.db1 Sample.fs_no_segment in
  fst (getDirectories ["clips"] w) = Ok []
  /\ parseClips_on_exit (Some ["store"]) "c0" "c0.mp4" w = (Ok tt, w).
Proof.
  intros w.
  assert (H : fst (getDirectories ["clips"] w) = Ok []) by reflexivity.
  split; [exact H|].
  exact (@no_segment_handler_does_nothing (Some ["store"]) "c0" "c0.mp4"
           w H).
Defined.

(** C4, as the spec has it, fails.  [createFootage] accepts a submission
    and starts its job; the analyzer exits without a segment; after the
    handler the downloaded file and the working directory are still there
    and the submission is still not parsed. *)
Lemma no_segment_no_cleanup :
  let w0 := Sample.world Sample.db_empty [] in
  let w1 := snd (createFootage Sample.site "u1" Sample.url_a VAL w0) in
  let w2 := snd (parseClips_on_exit (Some ["store"]) "c1" "c1.mp4" w1) in
  calls w1 = [GetInfo Sample.url_a; Download Sample.url_a ["c1.mp4"];
              Spawn "python3" ["autoClip.py"; "c1.mp4"; "clips"; "1"]]
  /\ fst (getDirectories ["clips"] w1) = Ok []
  /\ existsSync ["c1.mp4"] (fs w2) = true
  /\ existsSync ["clips"] (fs w2) = true
  /\ map Footage.isParsed (footage (prisma w2)) = [false]
  /\ clip (prisma w2) = [].
Proof. cbv zeta. repeat split. Qed.

(** C5 fails where it promises clip records.  Neither [storeClips] nor the
    exit handler ever writes to the database (the [prisma.clip.create] call
    is commented out under a TODO): with one segment found, the segment is
    copied to [store/c0/c1] and the working files are removed, but no clip
    record exists afterwards. *)
Theorem collecting_records_no_clip :
  (forall loc id, keeps_prisma (storeClips loc id))
  /\ (forall loc uuid video,
         keeps_prisma (parseClips_on_exit loc uuid video))
  /\ let w := Sample.world Sample.db1 Sample.fs_one_segment in
     let r := parseClips_on_exit (Some ["store"]) "c0" "c0.mp4" w in
     fst (getDirectories ["clips"] w) = Ok [["clips"; "seg0"]]
     /\ fst r = Ok tt
     /\ fs (snd r) = [(["store"], Dir); (["store"; "c0"], Dir);
                      (["store"; "c0"; "c1"], Dir);
                      (["store"; "c0"; "c1"; "0.png"], File)]
     /\ clip (prisma (snd r)) = [].
Proof.
  split; [exact keeps_prisma_storeClips|].
  split; [exact keeps_prisma_parseClips_on_exit|].
  cbv zeta. repeat split.
Qed.

(* ----------------------------------------------------------------- *)
(** *** The review sampler *)

Lemma floor_index (r : Q) (n : Z) :
  unit_interval r -> (0 < n)%Z ->
  (0 <= Math_floor (r * inject_Z n) < n)%Z.
Proof.
  intros [H0 H1] Hn. unfold Math_floor. split.
  - change 0%Z with (Qfloor 0). apply Qfloor_resp_le.
    apply Qmult_le_0_compat; [exact H0|].
    change 0%Q with (inject_Z 0). rewrite <- Zle_Qle. lia.
  - rewrite Zlt_Qlt.
    apply Qle_lt_trans with (r * inject_Z n)%Q; [apply Qfloor_le|].
    apply Qlt_le_trans with (1 * inject_Z n)%Q.
    + apply Qmult_lt_compat_r; [|exact H1].
      change 0%Q with (inject_Z 0). rewrite <- Zlt_Qlt. lia.
    + rewrite Qmult_1_l. apply Qle_refl.
Qed.

Lemma floor_of_nothing (r : Q) : Math_floor (r * inject_Z 0) = 0%Z.
Proof.
  destruct r as [a b]. unfold Math_floor, Qfloor, Qmult, inject_Z; cbn.
  now rewrite Z.mul_0_r.
Qed.

Lemma randomPick_picks (r : Q) (values : list string) :
  unit_interval r -> values <> [] ->
  exists v, randomPick r values = Some v /\ In v values.
Proof.
  intros Hr Hv. unfold randomPick, array_get.
  assert (Hlen : (0 < Z.of_nat (length values))%Z)
    by (destruct values; [contradiction | cbn; lia]).
  destruct (floor_index Hr Hlen) as [Hlo Hhi].
  destruct (Z.ltb_spec (Math_floor (r * inject_Z (Z.of_nat (length values))))
                       0); [lia|].
  destruct (nth_error values
              (Z.to_nat (Math_floor
                           (r * inject_Z (Z.of_nat (length values))))))
    as [v|] eqn:E.
  - exists v. split; [reflexivity|]. eapply nth_error_In; eauto.
  - apply nth_error_None in E. lia.
Qed.

Lemma insert_sorted_perm {A} (le : A -> A -> bool) (x : A) (l : list A) :
  Permutation (insert_sorted le x l) (x :: l).
Proof.
  induction l as [|y l IH]; cbn; [reflexivity|].
  destruct (le x y); [reflexivity|].
  rewrite IH. apply perm_swap.
Qed.

Lemma sort_perm {A} (le : A -> A -> bool) (l : list A) :
  Permutation (sort le l) l.
Proof.
  induction l as [|x l IH]; cbn; [reflexivity|].
  fold (sort le l). rewrite insert_sorted_perm. now constructor.
Qed.

Lemma filter_all {A} (l : list A) : filter (fun _ => true) l = l.
Proof. induction l; cbn; congruence. Qed.

(** What [getReviewItems] asks of the database, once the draws are in
    range. *)
Lemma getReviewItems_run (s : Session.t) (r1 r2 r3 : Q) (w : World) :
  unit_interval r1 -> unit_interval r2 ->
  (0 <= Math_floor
          (r3 * inject_Z (Z.of_nat (length (footage (prisma w))))))%Z ->
  exists key o,
    gameplayRouter.getReviewItems s r1 r2 r3 w
    = (Ok (nth_error
             (map (gameplayRouter.include_user (prisma w))
                (firstn 1
                   (skipn (Z.to_nat
                             (Math_floor
                                (r3 * inject_Z
                                        (Z.of_nat
                                           (length (footage (prisma w)))))))
                          (sort (order_le key o) (footage (prisma w))))))
             0), w).
Proof.
  intros H1 H2 H3.
  destruct (@randomPick_picks r1 ["userId"; "id"; "youtubeUrl"] H1)
    as (k & Hk & Hink); [discriminate|].
  destruct (@randomPick_picks r2 ["desc"; "asc"] H2)
    as (d & Hd & Hind); [discriminate|].
  assert (exists key, footage_field k = Some key) as [key Hkey].
  { cbn in Hink. destruct Hink as [<-|[<-|[<-|[]]]]; cbn; eauto. }
  assert (exists o, SortOrder_of_string d = Some o) as [o Ho].
  { cbn in Hind. destruct Hind as [<-|[<-|[]]]; cbn; eauto. }
  exists key, o.
  unfold gameplayRouter.getReviewItems, footage_.findMany, footage_.count.
  unfold_monad. cbn -[randomPick Math_floor sort Z.of_nat Z.sub Z.add
                       footage_field SortOrder_of_string inject_Z].
  rewrite Hk, Hd, Hkey, Ho, filter_all, Z.sub_add.
  destruct (Z.ltb_spec
              (Math_floor
                 (r3 * inject_Z (Z.of_nat (length (footage (prisma w))))))
              0); [lia|].
  reflexivity.
Qed.

(** C6 fails on the empty collection.  [findMany] answers an empty array,
    never [null], so the [NOT_FOUND] branch is not taken: the handler
    returns [reviewItems[0]], that is [undefined], and throws nothing. *)
Theorem empty_collection_returns_undefined :
  forall (s : Session.t) (r1 r2 r3 : Q) (w : World),
    unit_interval r1 -> unit_interval r2 ->
    footage (prisma w) = [] ->
    gameplayRouter.getReviewItems s r1 r2 r3 w = (Ok None, w).
Proof.
  intros s r1 r2 r3 w H1 H2 Hempty.
  assert (H3 : (0 <= Math_floor
                       (r3 * inject_Z
                               (Z.of_nat (length (footage (prisma w))))))%Z).
  { rewrite Hempty. cbn [length Z.of_nat]. rewrite floor_of_nothing. lia. }
  destruct (@getReviewItems_run s r1 r2 r3 w H1 H2 H3)
    as (key & o & ->).
  rewrite Hempty. cbn [length Z.of_nat sort fold_right].
  now rewrite skipn_nil.
Qed.

Lemma empty_collection_returns_undefined_witness :
  let s := Sample.session_of Sample.alice in
  let w := Sample.world Sample.db_empty [] in
  unit_interval (1 # 2) /\ unit_interval (3 # 4)
  /\ footage (prisma w) = []
  /\ gameplayRouter.getReviewItems s (1 # 2) (3 # 4) (1 # 3) w
     = (Ok None, w).
Proof.
  intros s w.
  assert (H1 : unit_interval (1 # 2)) by (split; discriminate || reflexivity).
  assert (H2 : unit_interval (3 # 4)) by (split; discriminate || reflexivity).
  assert (H3 : footage (prisma w) = []) by reflexivity.
  repeat (split; [assumption|]).
  exact (@empty_collection_returns_undefined s (1 # 2) (3 # 4) (1 # 3) w
           H1 H2 H3).
Defined.

(** On a non-empty collection the sampler does answer with a submission
    of the collection, joined with its owner. *)
Lemma review_item_exists (s : Session.t) (r1 r2 r3 : Q) (w : World) :
  unit_interval r1 -> unit_interval r2 -> unit_interval r3 ->
  footage (prisma w) <> [] ->
  exists g,
    gameplayRouter.getReviewItems s r1 r2 r3 w
    = (Ok (Some (gameplayRouter.include_user (prisma w) g)), w)
    /\ In g (footage (prisma w)).
Proof.
  intros H1 H2 H3 Hne.
  assert (Hlen : (0 < Z.of_nat (length (footage (prisma w))))%Z)
    by (destruct (footage (prisma w)); [contradiction | cbn; lia]).
  destruct (floor_index H3 Hlen) as [Hlo Hhi].
  destruct (@getReviewItems_run s r1 r2 r3 w H1 H2 Hlo)
    as (key & o & ->).
  set (k := Z.to_nat _).
  set (sorted := sort (order_le key o) (footage (prisma w))).
  assert (Hperm : Permutation sorted (footage (prisma w)))
    by apply sort_perm.
  assert (Hk : (k < length sorted)%nat).
  { rewrite (Permutation_length Hperm). subst k. lia. }
  destruct (skipn k sorted) as [|g rest] eqn:E.
  - assert (length (skipn k sorted) = 0%nat) by now rewrite E.
    rewrite length_skipn in H. lia.
  - exists g. split; [reflexivity|].
    apply (Permutation_in _ Hperm).
    rewrite <- (firstn_skipn k sorted), E.
    apply in_or_app. right. now left.
Qed.

Lemma include_user_owner (db : Prisma) (g : Footage.t) :
  Prisma_ok db -> In g (footage db) ->
  exists u, snd (gameplayRouter.include_user db g) = Some u
            /\ In u (user db)
            /\ User.id u = Footage.userId g.
Proof.
  intros [_ _ Hfk] Hin. destruct (Hfk g Hin) as (u & Hu & Hid).
  unfold gameplayRouter.include_user; cbn.
  destruct (find _ (user db)) as [u'|] eqn:E.
  - apply find_some in E as [Hin' E]. apply String.eqb_eq in E. eauto.
  - exfalso. apply (find_none _ _ E) in Hu.
    rewrite Hid, String.eqb_refl in Hu. discriminate.
Qed.

(* ----------------------------------------------------------------- *)
(** *** Choosing the encoding *)


Lemma find_existsb {A} (p : A -> bool) (l : list A) :
  existsb p l = is_some (find p l).
Proof.
  induction l as [|x l IH]; cbn; [reflexivity|].
  now destruct (p x).
Qed.


(** The guard of [create] and [createFootage] refuses exactly when no
    format was chosen. *)
Lemma no_format_guard formats :
  negb (is_some (defaultFormat formats)) && negb (is_some (lowFormat formats))
  = negb (is_some (videoFormat_of formats)).
Proof.
  unfold videoFormat_of.
  destruct (defaultFormat formats); cbn; [reflexivity|].
  now destruct (lowFormat formats).
Qed.


Section Create.
Variable hasPerms : HasPermsInput.t -> bool.
Variable remote : string -> option ytdl.videoInfo.
Variable s : Session.t.
Hypothesis allowed :
  hasPerms (HasPermsInput.mk (Session.id s) Roles.User None Perms.isOwner
                             (Session.blacklisted s)) = true.




End Create.



Lemma Sample_db_empty_fresh : fresh (Sample.world Sample.db_empty []).
Proof. intros g []. Qed.

(* ----------------------------------------------------------------- *)
(** *** Duplicate sources *)

Lemma NoDup_map_eq {A B} (f : A -> B) (l : list A) (a b : A) :
  NoDup (map f l) -> In a l -> In b l -> f a = f b -> a = b.
Proof.
  induction l as [|x l IH]; cbn; [contradiction|].
  intros Hnd Ha Hb Hf. inversion Hnd as [|? ? Hx Hl]; subst.
  destruct Ha as [->|Ha], Hb as [->|Hb]; auto.
  - exfalso. apply Hx. rewrite Hf. now apply in_map.
  - exfalso. apply Hx. rewrite <- Hf. now apply in_map.
Qed.


(** Once a submission is deleted, its url is free again. *)
Lemma url_free_after_delete g w g1 w' :
  Prisma_ok (prisma w) ->
  In g (footage (prisma w)) ->
  footage_.delete (Footage.id g) w = (Ok g1, w') ->
  footage_.findUnique_youtubeUrl (Footage.youtubeUrl g) (prisma w') = None.
Proof.
  intros [_ Hnd _] Hin Hd.
  destruct (footage_delete_ok _ _ Hd) as (_ & _ & _ & Hft & _).
  unfold footage_.findUnique_youtubeUrl. rewrite Hft.
  destruct (find _ _) as [g2|] eqn:E; [|reflexivity]. exfalso.
  apply find_some in E as [Hin2 Hurl]. apply String.eqb_eq in Hurl.
  apply filter_In in Hin2 as [Hin2 Hid].
  assert (g2 = g) by (eapply NoDup_map_eq; eauto).
  subst g2. rewrite String.eqb_refl in Hid. discriminate.
Qed.


Lemma Sample_db1_ok : Prisma_ok Sample.db1.
Proof.
  split; cbn.
  - constructor; [intros []|constructor].
  - constructor; [intros []|constructor].
  - intros g [<-|[]]. exists Sample.alice. split; [now left|reflexivity].
Qed.

Lemma Sample_db1_fresh : fresh (Sample.world Sample.db1 []).
Proof. intros g [<-|[]]. discriminate. Qed.

(* ----------------------------------------------------------------- *)
(** *** The schema's constraints are kept *)

Lemma keeps_prisma_keeps_ok {A} (m : M A) : keeps_prisma m -> keeps_ok m.
Proof. intros H w Hok. now rewrite H. Qed.

Lemma keeps_ok_bind {A B} (m : M A) (k : A -> M B) :
  keeps_ok m -> (forall a, keeps_ok (k a)) -> keeps_ok (bind m k).
Proof.
  intros Hm Hk w Hok. unfold bind. specialize (Hm w Hok).
  destruct (m w) as [[a|e] w1]; cbn in *; [|exact Hm].
  now apply Hk.
Qed.

Lemma keeps_ok_try_catch {A} (m : M A) (h : Exn -> M A) :
  keeps_ok m -> (forall e, keeps_ok (h e)) -> keeps_ok (try_catch m h).
Proof.
  intros Hm Hh w Hok. unfold try_catch. specialize (Hm w Hok).
  destruct (m w) as [[a|e] w1]; cbn in *; [exact Hm|].
  now apply Hh.
Qed.

Lemma existsb_eqb_false {A} (f : A -> string) (v : string) (l : list A) :
  existsb (fun x => String.eqb (f x) v) l = false -> ~ In v (map f l).
Proof.
  intros E Hin. apply in_map_iff in Hin as (x & Hx & Hin).
  assert (existsb (fun x => String.eqb (f x) v) l = true).
  { apply existsb_exists. exists x. split; [exact Hin|].
    now apply String.eqb_eq. }
  congruence.
Qed.

Lemma NoDup_snoc {A} (l : list A) (x : A) :
  NoDup l -> ~ In x l -> NoDup (l ++ [x]).
Proof.
  intros Hl Hx. apply (Permutation_NoDup (l := x :: l)).
  - apply Permutation_cons_append.
  - now constructor.
Qed.

(** Selecting rows keeps a column free of duplicates. *)
Lemma NoDup_map_filter {Row Key} (column : Row -> Key) (keep : Row -> bool)
    (rows : list Row) (Hrows : NoDup (map column rows)) :
  NoDup (map column (filter keep rows)).
Proof.
  induction rows as [|r rows IH]; cbn in *; [exact Hrows|].
  apply NoDup_cons_iff in Hrows as [Hr Hrows].
  destruct (keep r); cbn; [|now apply IH].
  apply NoDup_cons_iff. split; [|now apply IH].
  intros Hin. apply Hr. apply in_map_iff in Hin as (r' & Heq & Hin).
  apply filter_In in Hin as [Hin _]. rewrite <- Heq. now apply in_map.
Qed.

Lemma keeps_ok_footage_create d : keeps_ok (footage_.create d).
Proof.
  intros w Hok. pose proof Hok as [Hid Hurl Hfk]. unfold footage_.create; unfold_monad.
  destruct (footage_.c_videoFormat d) as [fmt|]; cbn; [|exact Hok].
  match goal with
  | |- context [existsb ?p ?l || existsb ?q ?l] =>
      destruct (existsb p l) eqn:E1; [cbn; exact Hok|];
      destruct (existsb q l) eqn:E2; [cbn; exact Hok|]
  end.
  match goal with
  | |- context [negb (existsb ?p ?l)] =>
      destruct (existsb p l) eqn:E3; [|cbn; exact Hok]
  end.
  cbn. split; cbn.
  - rewrite map_app. apply NoDup_snoc; [exact Hid|].
    now apply existsb_eqb_false.
  - rewrite map_app. apply NoDup_snoc; [exact Hurl|].
    now apply existsb_eqb_false.
  - intros g Hin. apply in_app_or in Hin as [Hin|[<-|[]]]; [auto|].
    apply existsb_exists in E3 as (u & Hu & E). apply String.eqb_eq in E.
    eauto.
Qed.

Lemma keeps_ok_footage_update gid b ty :
  keeps_ok (footage_.update gid b ty).
Proof.
  intros w Hok. pose proof Hok as [Hid Hurl Hfk]. unfold footage_.update; unfold_monad; cbn.
  destruct (footage_.findUnique_id gid (prisma w)) as [g|] eqn:Hg; cbn;
    [|exact Hok].
  apply find_some in Hg as [Hin E]. apply String.eqb_eq in E.
  set (g' := Footage.mk _ _ _ _ _ _ _).
  set (f := fun x : Footage.t => if String.eqb (Footage.id x) gid
                                 then g' else x).
  assert (Hsame : forall x, In x (footage (prisma w)) ->
            Footage.id (f x) = Footage.id x
            /\ Footage.youtubeUrl (f x) = Footage.youtubeUrl x
            /\ Footage.userId (f x) = Footage.userId x).
  { intros x Hx. subst f; cbn.
    destruct (String.eqb_spec (Footage.id x) gid) as [Ex|Ex]; [|auto].
    assert (x = g)
      by (apply (@NoDup_map_eq _ _ Footage.id (footage (prisma w)) x g
                   Hid Hx Hin); congruence).
    subst x. cbn. auto. }
  split; cbn.
  - rewrite map_map. erewrite map_ext_in; [exact Hid|].
    intros x Hx. now apply Hsame.
  - rewrite map_map. erewrite map_ext_in; [exact Hurl|].
    intros x Hx. now apply Hsame.
  - intros x Hx. apply in_map_iff in Hx as (y & <- & Hy).
    destruct (Hfk y Hy) as (u & Hu & Hu').
    exists u. split; [exact Hu|].
    destruct (Hsame y Hy) as (_ & _ & ->). exact Hu'.
Qed.

Lemma keeps_ok_footage_delete gid : keeps_ok (footage_.delete gid).
Proof.
  intros w Hok.
  destruct (footage_delete_cases gid w)
    as [[e ->]|(g & clips' & votes' & _ & _ & _ & ->)]; [exact Hok|].
  destruct Hok as [Hid Hurl Hfk]. split; cbn.
  - now apply NoDup_map_filter.
  - now apply NoDup_map_filter.
  - intros x Hx. apply filter_In in Hx as [Hx _]. auto.
Qed.

Lemma keeps_ok_votes_create gid isGame game uid :
  keeps_ok (footageVotes_.create gid isGame game uid).
Proof.
  intros w Hok. pose proof Hok as [Hid Hurl Hfk]. unfold footageVotes_.create; unfold_monad; cbn.
  match goal with
  | |- context [if existsb ?p ?l then _ else _] =>
      destruct (existsb p l); [cbn; exact Hok|]
  end.
  destruct (negb _ || negb _); cbn; split; assumption.
Qed.

(** Every procedure of the router and every REST handler keeps the
    database well formed, whether it returns or throws. *)
Lemma handlers_keep_ok hasPerms remote (s : Session.t) :
  (forall url ty, keeps_ok (gameplayRouter.create hasPerms remote s url ty))
  /\ (forall gid ty b, keeps_ok (gameplayRouter.update hasPerms s gid ty b))
  /\ (forall gid, keeps_ok (gameplayRouter.delete hasPerms s gid))
  /\ (forall gid isGame game,
        keeps_ok (gameplayRouter.review s gid isGame game))
  /\ (forall id url ty, keeps_ok (createFootage remote id url ty))
  /\ (forall id b ty p, keeps_ok (updateFootage id b ty p))
  /\ (forall id, keeps_ok (deleteFootage id)).
Proof.
  assert (Hret : forall A (a : A), keeps_ok (ret a))
    by (intros; apply keeps_prisma_keeps_ok, keeps_prisma_ret).
  assert (Hthrow : forall A e, keeps_ok (@throw A e))
    by (intros; apply keeps_prisma_keeps_ok, keeps_prisma_throw).
  assert (Hinfo : forall url, keeps_ok (ytdl.getInfo remote url)).
  { intros url. apply keeps_prisma_keeps_ok. unfold ytdl.getInfo.
    keeps_step. }
  assert (Hfind : forall gid, keeps_ok (footage_.findUniqueOrThrow_id gid)).
  { intros gid w Hok. unfold footage_.findUniqueOrThrow_id; unfold_monad.
    cbn. destruct (footage_.findUnique_id gid (prisma w)); exact Hok. }
  assert (Hget : keeps_ok get_prisma) by (intros w Hok; exact Hok).
  repeat match goal with |- _ /\ _ => split end.
  - intros url ty. unfold gameplayRouter.create.
    destruct (negb _); [apply Hthrow|].
    apply keeps_ok_bind; [exact Hget|intros db].
    destruct (footage_.findUnique_youtubeUrl url db); [apply Hthrow|].
    apply keeps_ok_bind; [apply Hinfo|intros details].
    destruct (_ && _); [apply Hthrow|apply keeps_ok_footage_create].
  - intros gid ty b. unfold gameplayRouter.update.
    apply keeps_ok_try_catch; [|intros; apply Hthrow].
    apply keeps_ok_bind; [apply Hfind|intros g].
    destruct (negb _); [apply Hthrow|apply keeps_ok_footage_update].
  - intros gid. unfold gameplayRouter.delete.
    apply keeps_ok_try_catch; [|intros; apply Hthrow].
    apply keeps_ok_bind; [apply Hfind|intros g].
    destruct (negb _); [apply Hthrow|].
    apply keeps_ok_bind; [apply keeps_ok_footage_delete|intros; apply Hret].
  - intros gid isGame game. unfold gameplayRouter.review.
    destruct (String.eqb _ _); [apply Hret|].
    apply keeps_ok_bind; [apply keeps_ok_votes_create|intros v].
    destruct (gameplayRouter.is_falsy v); [apply Hthrow|apply Hret].
  - intros id url ty. unfold createFootage.
    apply keeps_ok_bind; [exact Hget|intros db].
    destruct (footage_.findUnique_youtubeUrl url db); [apply Hthrow|].
    apply keeps_ok_bind; [apply Hinfo|intros details].
    destruct (_ && _); [apply Hthrow|].
    apply keeps_ok_bind;
      [apply keeps_prisma_keeps_ok, keeps_prisma_cuid|intros footageId].
    apply keeps_ok_bind.
    { apply keeps_prisma_keeps_ok. unfold download. keeps_step. }
    intros _. apply keeps_ok_bind.
    { apply keeps_prisma_keeps_ok. unfold parseClips. keeps_step. }
    intros _. apply keeps_ok_footage_create.
  - intros id b ty p. unfold updateFootage.
    apply keeps_ok_try_catch; [apply keeps_ok_footage_update|].
    intros; apply Hthrow.
  - intros id. unfold deleteFootage.
    apply keeps_ok_bind; [|intros; apply Hret].
    apply keeps_ok_try_catch; [|intros; apply Hthrow].
    apply keeps_ok_bind; [apply keeps_ok_footage_delete|intros; apply Hret].
Qed.

(** Two segments are copied to two different places. *)
Lemma two_segments_two_locations :
  let f := Sample.fs_one_segment
           ++ [(["clips"; "seg1"], Dir); (["clips"; "seg1"; "0.png"], File)] in
  let w := Sample.world Sample.db1 f in
  let r := parseClips_on_exit (Some ["store"]) "c0" "c0.mp4" w in
  fst r = Ok tt
  /\ filter (fun e => match snd e with Dir => true | File => false end)
            (fs (snd r))
     = [(["store"], Dir); (["store"; "c0"], Dir);
        (["store"; "c0"; "c1"], Dir); (["store"; "c0"; "c2"], Dir)]
  /\ clip (prisma (snd r)) = [].
Proof. cbv zeta. repeat split. Qed.

(* ================================================================= *)
(** * Further properties of the handlers *)

(* ----------------------------------------------------------------- *)
(** *** Reading one submission *)

(** X1. [get] never changes anything; what it returns is the stored
    submission of that id, and only for a caller the gate lets through; and
    a caller the gate refuses gets for an existing submission the very
    answer given for an id that does not exist, so [get] does not tell
    such a caller which ids exist. *)
Theorem get_reads_or_hides :
  forall (hasPerms : HasPermsInput.t -> bool) (s : Session.t)
         (gid : string) (w : World),
    snd (gameplayRouter.get hasPerms s gid w) = w
    /\ (forall g,
          fst (gameplayRouter.get hasPerms s gid w) = Ok g ->
          footage_.findUnique_id gid (prisma w) = Some g
          /\ In g (footage (prisma w))
          /\ Footage.id g = gid
          /\ hasPerms (gate s (Some (Footage.userId g)) Perms.isOwner)
             = true)
    /\ (forall g missing,
          footage_.findUnique_id gid (prisma w) = Some g ->
          hasPerms (gate s (Some (Footage.userId g)) Perms.isOwner)
          = false ->
          footage_.findUnique_id missing (prisma w) = None ->
          gameplayRouter.get hasPerms s gid w
          = gameplayRouter.get hasPerms s missing w).
Proof.
  intros hasPerms s gid w.
  destruct (footage_.findUnique_id gid (prisma w)) as [g0|] eqn:Hg.
  - rewrite (get_run hasPerms s gid w Hg).
    destruct (hasPerms _) eqn:Hp; cbn.
    + split; [reflexivity|]. split.
      * intros g [= <-]. apply find_some in Hg as [Hin E].
        apply String.eqb_eq in E. auto.
      * intros g missing [= <-] Hdenied. congruence.
    + split; [reflexivity|]. split; [intros g [=]|].
      intros g missing _ _ Hm.
      unfold gameplayRouter.get; unfold_monad; cbn. now rewrite Hm.
  - unfold gameplayRouter.get; unfold_monad; cbn. rewrite Hg. cbn.
    split; [reflexivity|]. split; [intros g [=]|]. intros g missing [=].
Qed.

Lemma get_reads_or_hides_witness :
  let s := Sample.session_of Sample.bob in
  let w := Sample.world Sample.db1 [] in
  footage_.findUnique_id "f1" (prisma w) = Some Sample.f1
  /\ hasPerms_spec true (gate s (Some "u1") Perms.isOwner) = false
  /\ footage_.findUnique_id "f9" (prisma w) = None
  /\ gameplayRouter.get (hasPerms_spec true) s "f1" w
     = gameplayRouter.get (hasPerms_spec true) s "f9" w.
Proof.
  intros s w.
  assert (Hg : footage_.findUnique_id "f1" (prisma w) = Some Sample.f1)
    by reflexivity.
  assert (Hd : hasPerms_spec true
                 (gate s (Some (Footage.userId Sample.f1)) Perms.isOwner)
               = false) by reflexivity.
  assert (Hm : footage_.findUnique_id "f9" (prisma w) = None)
    by reflexivity.
  repeat (split; [assumption|]).
  destruct (get_reads_or_hides (hasPerms_spec true) s "f1" w)
    as (_ & _ & Hhide).
  exact (Hhide Sample.f1 "f9" Hg Hd Hm).
Defined.

(* ----------------------------------------------------------------- *)
(** *** Listing clips *)

(** X2. [getClips] never changes anything and, when it answers, answers
    with exactly the clips that reference the submission.  It looks the
    submission up before it asks for permission: a caller the gate refuses
    gets [UNAUTHORIZED] for an existing submission and [NOT_FOUND] for a
    missing one, and can so tell the two apart. *)
Theorem getClips_reads_and_tells :
  forall (hasPerms : HasPermsInput.t -> bool) (s : Session.t)
         (gid : string) (w : World),
    snd (gameplayRouter.getClips hasPerms s gid w) = w
    /\ (forall clips,
          fst (gameplayRouter.getClips hasPerms s gid w) = Ok clips ->
          forall c, In c clips <->
                    In c (clip (prisma w)) /\ Clip.footageId c = gid)
    /\ (forall g missing,
          footage_.findUnique_id gid (prisma w) = Some g ->
          hasPerms (gate s (Some (Footage.userId g)) Perms.roleMod)
          = false ->
          footage_.findUnique_id missing (prisma w) = None ->
          fst (gameplayRouter.getClips hasPerms s gid w)
          = Threw (TRPCError UNAUTHORIZED None None)
          /\ fst (gameplayRouter.getClips hasPerms s missing w)
             = Threw (TRPCError NOT_FOUND
                        (Some "Could not find that requested gameplay")
                        None)).
Proof.
  intros hasPerms s gid w.
  assert (Hmissing : forall i,
            footage_.findUnique_id i (prisma w) = None ->
            gameplayRouter.getClips hasPerms s i w
            = (Threw (TRPCError NOT_FOUND
                        (Some "Could not find that requested gameplay")
                        None), w)).
  { intros i Hi. unfold gameplayRouter.getClips; unfold_monad; cbn.
    now rewrite Hi. }
  destruct (footage_.findUnique_id gid (prisma w)) as [g0|] eqn:Hg.
  - rewrite (getClips_run hasPerms s gid w Hg).
    destruct (hasPerms _) eqn:Hp; cbn [fst snd].
    + split; [reflexivity|]. split.
      * intros clips [= <-] c. rewrite filter_In, String.eqb_eq.
        reflexivity.
      * intros g missing [= <-]. congruence.
    + split; [reflexivity|]. split; [intros clips [=]|].
      intros g missing _ _ Hm. rewrite (Hmissing missing Hm). auto.
  - rewrite (Hmissing gid Hg). cbn [fst snd].
    split; [reflexivity|]. split; [intros clips [=]|]. intros g missing [=].
Qed.

Lemma getClips_reads_and_tells_witness :
  let s := Sample.session_of Sample.alice in
  let w := Sample.world Sample.db_clipped [] in
  footage_.findUnique_id "f1" (prisma w) = Some Sample.f1
  /\ hasPerms_spec true (gate s (Some "u1") Perms.roleMod) = false
  /\ footage_.findUnique_id "f9" (prisma w) = None
  /\ fst (gameplayRouter.getClips (hasPerms_spec true) s "f1" w)
     = Threw (TRPCError UNAUTHORIZED None None)
  /\ fst (gameplayRouter.getClips (hasPerms_spec true) s "f9" w)
     = Threw (TRPCError NOT_FOUND
                (Some "Could not find that requested gameplay") None).
Proof.
  intros s w.
  assert (Hg : footage_.findUnique_id "f1" (prisma w) = Some Sample.f1)
    by reflexivity.
  assert (Hd : hasPerms_spec true
                 (gate s (Some (Footage.userId Sample.f1)) Perms.roleMod)
               = false) by reflexivity.
  assert (Hm : footage_.findUnique_id "f9" (prisma w) = None)
    by reflexivity.
  repeat (split; [assumption|]).
  destruct (getClips_reads_and_tells (hasPerms_spec true) s "f1" w)
    as (_ & _ & Htell).
  exact (Htell Sample.f1 "f9" Hg Hd Hm).
Defined.

(* ----------------------------------------------------------------- *)
(** *** Listing a user's submissions *)

(** X3. [getUsers] never changes anything; asking with [null] is asking
    for one's own id; and when it answers for the user [u], the answer
    holds exactly the stored submissions owned by [u], [u] being a stored
    user. *)
Theorem getUsers_lists_the_owner_s_footage :
  forall (hasPerms : HasPermsInput.t -> bool) (s : Session.t)
         (w : World),
    (forall uid, snd (gameplayRouter.getUsers hasPerms s uid w) = w)
    /\ gameplayRouter.getUsers hasPerms s gameplayRouter.null w
       = gameplayRouter.getUsers hasPerms s
           (gameplayRouter.value (Session.id s)) w
    /\ (forall u rows,
          fst (gameplayRouter.getUsers hasPerms s (gameplayRouter.value u) w)
          = Ok rows ->
          (exists row, In row (user (prisma w)) /\ User.id row = u)
          /\ forall g, In g rows <->
                       In g (footage (prisma w)) /\ Footage.userId g = u).
Proof.
  intros hasPerms s w. split; [|split].
  - intros uid. unfold gameplayRouter.getUsers.
    destruct (negb _); [reflexivity|].
    unfold user_.findUnique_include_footage; unfold_monad.
    destruct uid as [| |u]; cbn; try reflexivity;
      now destruct (find _ (user (prisma w))).
  - reflexivity.
  - intros u rows. unfold gameplayRouter.getUsers.
    destruct (negb _); [intros [=]|].
    unfold user_.findUnique_include_footage; unfold_monad; cbn.
    destruct (find _ (user (prisma w))) as [row|] eqn:E; cbn; [|intros [=]].
    intros [= <-]. apply find_some in E as [Hin E].
    apply String.eqb_eq in E. split; [eauto|].
    intros g. rewrite filter_In, String.eqb_eq. reflexivity.
Qed.

Lemma getUsers_lists_the_owner_s_footage_witness :
  let s := Sample.session_of Sample.alice in
  let w := Sample.world Sample.db1 [] in
  fst (gameplayRouter.getUsers (hasPerms_spec true) s
         (gameplayRouter.value "u1") w) = Ok [Sample.f1]
  /\ forall g, In g [Sample.f1] <->
               In g (footage (prisma w)) /\ Footage.userId g = "u1".
Proof.
  intros s w.
  assert (H : fst (gameplayRouter.getUsers (hasPerms_spec true) s
                     (gameplayRouter.value "u1") w) = Ok [Sample.f1])
    by reflexivity.
  split; [exact H|].
  destruct (getUsers_lists_the_owner_s_footage (hasPerms_spec true) s w)
    as (_ & _ & Hrows).
  exact (proj2 (Hrows "u1" [Sample.f1] H)).
Defined.

(* ----------------------------------------------------------------- *)
(** *** What a successful update changes *)

Lemma footage_update_run gid b ty w :
  footage_.update gid b ty w
  = match footage_.findUnique_id gid (prisma w) with
    | None => (Threw (PrismaClientError RecordNotFound), w)
    | Some g =>
        let g' := Footage.mk (Footage.id g) (Footage.userId g)
                             (Footage.youtubeUrl g) (Footage.videoFormat g)
                             ty b (Footage.isParsed g) in
        (Ok g',
         set_prisma
           (mkPrisma
              (map (fun x => if String.eqb (Footage.id x) gid then g' else x)
                   (footage (prisma w)))
              (clip (prisma w)) (footageVotes (prisma w))
              (user (prisma w))) w)
    end.
Proof.
  unfold footage_.update; unfold_monad; cbn.
  now destruct (footage_.findUnique_id gid (prisma w)).
Qed.

(** Looking up the id after the row was replaced finds the replacement. *)
Lemma find_replaced gid (g g' : Footage.t) (rows : list Footage.t) :
  find (fun x => String.eqb (Footage.id x) gid) rows = Some g ->
  Footage.id g' = gid ->
  find (fun x => String.eqb (Footage.id x) gid)
       (map (fun x => if String.eqb (Footage.id x) gid then g' else x) rows)
  = Some g'.
Proof.
  intros Hfind Hid. induction rows as [|x rows IH]; cbn in *; [discriminate|].
  destruct (String.eqb (Footage.id x) gid) eqn:E.
  - now rewrite Hid, String.eqb_refl.
  - rewrite E. now apply IH.
Qed.

Lemma In_replaced gid (g' x : Footage.t) (rows : list Footage.t) :
  Footage.id g' = gid -> Footage.id x <> gid ->
  (In x (map (fun y => if String.eqb (Footage.id y) gid then g' else y) rows)
   <-> In x rows).
Proof.
  intros Hid Hx. rewrite in_map_iff. split.
  - intros (y & Hy & Hin).
    destruct (String.eqb (Footage.id y) gid); congruence.
  - intros Hin. exists x. split; [|exact Hin].
    apply String.eqb_neq in Hx. now rewrite Hx.
Qed.

(** X5. A successful [update] replaces the category and the [isAnalyzed]
    flag of the submission it names and nothing else: the submission keeps
    its id, owner, url, format and [isParsed] flag, a later lookup finds the
    new version, every other submission, every clip, vote and user, the
    files, the identifier counter and the log of outside calls are as they
    were. *)
Theorem update_changes_only_its_target :
  forall (hasPerms : HasPermsInput.t -> bool) (s : Session.t)
         (gid : string) (ty : GameplayType) (b : bool)
         (w w' : World) (g' : Footage.t),
    gameplayRouter.update hasPerms s gid ty b w = (Ok g', w') ->
    exists g,
      footage_.findUnique_id gid (prisma w) = Some g
      /\ g' = Footage.mk (Footage.id g) (Footage.userId g)
                         (Footage.youtubeUrl g) (Footage.videoFormat g)
                         ty b (Footage.isParsed g)
      /\ footage_.findUnique_id gid (prisma w') = Some g'
      /\ (forall x, Footage.id x <> gid ->
                    (In x (footage (prisma w')) <-> In x (footage (prisma w))))
      /\ length (footage (prisma w')) = length (footage (prisma w))
      /\ clip (prisma w') = clip (prisma w)
      /\ footageVotes (prisma w') = footageVotes (prisma w)
      /\ user (prisma w') = user (prisma w)
      /\ fs w' = fs w /\ cuids w' = cuids w /\ calls w' = calls w.
Proof.
  intros hasPerms s gid ty b w w' g' H.
  destruct (footage_.findUnique_id gid (prisma w)) as [g|] eqn:Hg.
  - rewrite (update_run hasPerms s gid ty b w Hg) in H.
    destruct (hasPerms _); [|discriminate].
    rewrite footage_update_run, Hg in H. cbv zeta in H.
    injection H as <- <-. exists g.
    assert (Hid : Footage.id g = gid).
    { apply find_some in Hg as [_ E]. now apply String.eqb_eq in E. }
    split; [reflexivity|]. split; [reflexivity|]. cbn.
    split; [apply find_replaced with (g := g); [exact Hg | exact Hid]|].
    split; [intros x Hx; now apply In_replaced|].
    split; [apply length_map|]. auto 10.
  - rewrite (update_missing hasPerms s gid ty b w Hg) in H. discriminate.
Qed.

Lemma update_changes_only_its_target_witness :
  let s := Sample.session_of Sample.alice in
  let w := Sample.world Sample.db_voted [] in
  let g' := Footage.mk "f1" "u1" Sample.url_a 299 VAL false false in
  let w' := Sample.world (mkPrisma [g'] [] [Sample.vote1] Sample.users) [] in
  gameplayRouter.update (hasPerms_spec true) s "f1" VAL false w = (Ok g', w')
  /\ footage_.findUnique_id "f1" (prisma w') = Some g'
  /\ footageVotes (prisma w') = footageVotes (prisma w).
Proof.
  intros s w g' w'.
  assert (H : gameplayRouter.update (hasPerms_spec true) s "f1" VAL false w
              = (Ok g', w')) by reflexivity.
  split; [exact H|].
  destruct (@update_changes_only_its_target (hasPerms_spec true) s "f1" VAL
              false w w' g' H)
    as (g & _ & _ & Hfind & _ & _ & _ & Hvotes & _).
  split; [exact Hfind | exact Hvotes].
Defined.

(* ----------------------------------------------------------------- *)
(** *** How update and delete fail *)


(* ----------------------------------------------------------------- *)
(** *** What a successful delete removes *)

(** X7. A successful [delete] removes the submission it names and the
    votes cast on it, and nothing else: the other submissions and votes
    stay, in their order, and so do all clips and users.  From then on
    [get], [getClips], [update] and [delete] of that id all fail. *)
Theorem delete_removes_only_its_target :
  forall (hasPerms : HasPermsInput.t -> bool) (s : Session.t)
         (gid : string) (w w' : World),
    gameplayRouter.delete hasPerms s gid w = (Ok tt, w') ->
    footage (prisma w')
    = filter (fun x => negb (String.eqb (Footage.id x) gid))
             (footage (prisma w))
    /\ footageVotes (prisma w')
       = filter (fun v => negb (String.eqb (FootageVotes.footageId v) gid))
                (footageVotes (prisma w))
    /\ clip (prisma w') = clip (prisma w)
    /\ user (prisma w') = user (prisma w)
    /\ (forall s', fails (gameplayRouter.get hasPerms s' gid w'))
    /\ (forall s', fails (gameplayRouter.getClips hasPerms s' gid w'))
    /\ (forall s' ty b, fails (gameplayRouter.update hasPerms s' gid ty b w'))
    /\ (forall s', fails (gameplayRouter.delete hasPerms s' gid w')).
Proof.
  intros hasPerms s gid w w' H.
  destruct (router_delete_ok _ _ _ _ H) as (g & _ & Hd).
  destruct (footage_delete_ok _ _ Hd) as (Hgone & _ & _ & Hft & Husr & _).
  destruct (footage_delete_cases gid w)
    as [[e He]|(g0 & clips' & votes' & _ & Hc & Hv & Hd')]; [congruence|].
  rewrite Hd' in Hd. injection Hd as _ <-.
  cbn in Hc, Hv. destruct (existsb _ (clip (prisma w))); [discriminate|].
  injection Hc as <-. injection Hv as <-. cbn.
  repeat match goal with |- _ /\ _ => split end; try reflexivity.
  - intros s'. unfold fails, gameplayRouter.get; unfold_monad; cbn.
    cbn in Hgone. rewrite Hgone. cbn. eauto.
  - intros s'. unfold fails, gameplayRouter.getClips; unfold_monad; cbn.
    cbn in Hgone. rewrite Hgone. cbn. eauto.
  - intros s' ty b. unfold fails.
    rewrite (update_missing hasPerms s' gid ty b _ Hgone). cbn. eauto.
  - intros s'. unfold fails.
    rewrite (delete_missing hasPerms s' gid _ Hgone). cbn. eauto.
Qed.

Lemma delete_removes_only_its_target_witness :
  let s := Sample.session_of Sample.alice in
  let w := Sample.world Sample.db_voted [] in
  let w' := Sample.world Sample.db_empty [] in
  gameplayRouter.delete (hasPerms_spec true) s "f1" w = (Ok tt, w')
  /\ user (prisma w') = user (prisma w)
  /\ fails (gameplayRouter.delete (hasPerms_spec true) s "f1" w').
Proof.
  intros s w w'.
  assert (H : gameplayRouter.delete (hasPerms_spec true) s "f1" w
              = (Ok tt, w')) by reflexivity.
  split; [exact H|].
  destruct (@delete_removes_only_its_target (hasPerms_spec true) s "f1" w w'
              H) as (_ & _ & _ & Husr & _ & _ & _ & Hagain).
  split; [exact Husr | exact (Hagain s)].
Defined.

(* ----------------------------------------------------------------- *)
(** *** What a successful create stores *)

Lemma footage_create_run (d : footage_.CreateData) (w : World) :
  footage_.create d w
  = match footage_.c_videoFormat d with
    | None => (Threw (PrismaClientError ValidationError), w)
    | Some fmt =>
        let w1 := mkWorld (prisma w) (fs w) (S (cuids w)) (calls w) in
        if existsb (fun g => String.eqb (Footage.id g) (cuid_of (cuids w)))
                   (footage (prisma w))
           || existsb (fun g => String.eqb (Footage.youtubeUrl g)
                                           (footage_.c_youtubeUrl d))
                      (footage (prisma w))
        then (Threw (PrismaClientError UniqueConstraintFailed), w1)
        else if negb (existsb (fun u => String.eqb (User.id u)
                                                   (footage_.c_userId d))
                              (user (prisma w)))
        then (Threw (PrismaClientError ForeignKeyConstraintFailed), w1)
        else
          let g := Footage.mk (cuid_of (cuids w)) (footage_.c_userId d)
                              (footage_.c_youtubeUrl d) fmt
                              (footage_.c_footageType d) false false in
          (Ok g,
           mkWorld (mkPrisma (footage (prisma w) ++ [g]) (clip (prisma w))
                             (footageVotes (prisma w)) (user (prisma w)))
                   (fs w) (S (cuids w)) (calls w))
    end.
Proof.
  unfold footage_.create; unfold_monad.
  destruct (footage_.c_videoFormat d); [|reflexivity].
  cbn -[cuid_of].
  match goal with
  | |- context [existsb ?p ?l || existsb ?q ?l] =>
      destruct (existsb p l); [reflexivity|];
      destruct (existsb q l); [reflexivity|]
  end.
  cbn -[cuid_of].
  match goal with
  | |- context [negb (existsb ?p ?l)] => now destruct (existsb p l)
  end.
Qed.

(** A row appended under a key no stored row carries is what a lookup of
    that key finds. *)
Lemma find_appended {Row} (key : Row -> string) (k : string)
    (rows : list Row) (new : Row) :
  existsb (fun r => String.eqb (key r) k) rows = false ->
  key new = k ->
  find (fun r => String.eqb (key r) k) (rows ++ [new]) = Some new.
Proof.
  intros Hnone Hkey. induction rows as [|r rows IH]; cbn in *.
  - now rewrite Hkey, String.eqb_refl.
  - apply orb_false_elim in Hnone as [Hr Hrows]. rewrite Hr. now apply IH.
Qed.

(** X8. When [create] succeeds, the submission it returns belongs to the
    caller, carries the submitted url and category and the format chosen
    from the metadata fetched for that url, and is neither analyzed nor
    parsed; it is stored last, under a url no submission had before, and a
    lookup by its id or by its url finds it; exactly one metadata fetch was
    made, and clips, votes, users and files are as they were. *)
Theorem create_stores_what_it_returns :
  forall (hasPerms : HasPermsInput.t -> bool)
         (remote : string -> option ytdl.videoInfo) (s : Session.t)
         (url : string) (ty : GameplayType) (w w' : World) (g : Footage.t),
    gameplayRouter.create hasPerms remote s url ty w = (Ok g, w') ->
    Footage.userId g = Session.id s
    /\ Footage.youtubeUrl g = url
    /\ Footage.footageType g = ty
    /\ Footage.isAnalyzed g = false
    /\ Footage.isParsed g = false
    /\ (exists details,
          remote url = Some details
          /\ videoFormat_of (ytdl.formats details)
             = Some (Footage.videoFormat g))
    /\ footage_.findUnique_youtubeUrl url (prisma w) = None
    /\ footage (prisma w') = footage (prisma w) ++ [g]
    /\ footage_.findUnique_id (Footage.id g) (prisma w') = Some g
    /\ footage_.findUnique_youtubeUrl url (prisma w') = Some g
    /\ calls w' = calls w ++ [GetInfo url]
    /\ clip (prisma w') = clip (prisma w)
    /\ footageVotes (prisma w') = footageVotes (prisma w)
    /\ user (prisma w') = user (prisma w)
    /\ fs w' = fs w.
Proof.
  intros hasPerms remote s url ty w w' g H.
  unfold gameplayRouter.create, ytdl.getInfo in H; unfold_monad.
  destruct (negb (hasPerms _)); [discriminate|].
  cbn -[footage_.create] in H.
  destruct (footage_.findUnique_youtubeUrl url (prisma w)) eqn:Hnew;
    [discriminate|].
  destruct (remote url) as [details|] eqn:Hr; [|discriminate].
  cbn -[footage_.create] in H. rewrite no_format_guard in H.
  destruct (videoFormat_of (ytdl.formats details)) as [fmt|] eqn:Hf;
    [|discriminate].
  cbn -[footage_.create] in H.
  rewrite footage_create_run in H. cbn -[cuid_of] in H.
  destruct (existsb _ (footage (prisma w))) eqn:E1;
    cbn -[cuid_of] in H; [discriminate|].
  destruct (existsb (fun x => String.eqb (Footage.youtubeUrl x) url)
                    (footage (prisma w))) eqn:E2;
    cbn -[cuid_of] in H; [discriminate|].
  destruct (existsb (fun u => String.eqb (User.id u) (Session.id s))
                    (user (prisma w))) eqn:E3;
    cbn -[cuid_of] in H; [|discriminate].
  injection H as <- <-. cbn -[cuid_of].
  repeat match goal with |- _ /\ _ => split end; try reflexivity.
  - eauto.
  - unfold footage_.findUnique_id. cbn -[cuid_of].
    now apply (find_appended Footage.id).
  - unfold footage_.findUnique_youtubeUrl. cbn -[cuid_of].
    now apply (find_appended Footage.youtubeUrl).
Qed.

Lemma create_stores_what_it_returns_witness :
  let s := Sample.session_of Sample.alice in
  let w := Sample.world Sample.db_empty [] in
  let g := Footage.mk "c1" "u1" Sample.url_a 299 VAL false false in
  let w' := mkWorld (mkPrisma [g] [] [] Sample.users) [] 2
                    [GetInfo Sample.url_a] in
  gameplayRouter.create (hasPerms_spec true) Sample.site s Sample.url_a VAL w
  = (Ok g, w')
  /\ footage_.findUnique_id (Footage.id g) (prisma w') = Some g
  /\ footage_.findUnique_youtubeUrl Sample.url_a (prisma w') = Some g.
Proof.
  intros s w g w'.
  assert (H : gameplayRouter.create (hasPerms_spec true) Sample.site s
                Sample.url_a VAL w = (Ok g, w')) by reflexivity.
  split; [exact H|].
  destruct (@create_stores_what_it_returns (hasPerms_spec true) Sample.site
              s Sample.url_a VAL w w' g H)
    as (_ & _ & _ & _ & _ & _ & _ & _ & Hid & Hurl & _).
  split; [exact Hid | exact Hurl].
Defined.

(* ----------------------------------------------------------------- *)
(** *** Calls that fail store nothing *)




Lemma votes_create_run gid isGame game uid w :
  footageVotes_.create gid isGame game uid w
  = let w1 := mkWorld (prisma w) (fs w) (S (cuids w)) (calls w) in
    if existsb (fun v => String.eqb (FootageVotes.id v) (cuid_of (cuids w)))
               (footageVotes (prisma w))
    then (Threw (PrismaClientError UniqueConstraintFailed), w1)
    else if negb (existsb (fun g => String.eqb (Footage.id g) gid)
                          (footage (prisma w)))
            || negb (existsb (fun u => String.eqb (User.id u) uid)
                             (user (prisma w)))
    then (Threw (PrismaClientError ForeignKeyConstraintFailed), w1)
    else
      let v := FootageVotes.mk (cuid_of (cuids w)) gid uid isGame game in
      (Ok v,
       mkWorld (mkPrisma (footage (prisma w)) (clip (prisma w))
                         (footageVotes (prisma w) ++ [v]) (user (prisma w)))
               (fs w) (S (cuids w)) (calls w)).
Proof.
  unfold footageVotes_.create; unfold_monad. cbn -[cuid_of].
  match goal with
  | |- context [if existsb ?p ?l then _ else _] =>
      destruct (existsb p l); [reflexivity|]
  end.
  now destruct (_ || _).
Qed.



(* ----------------------------------------------------------------- *)
(** *** Casting votes *)

(** X10. When [review] returns, either the session carried no user id, the
    answer is ["No user"] and nothing changed, or exactly one vote was
    appended: it carries a new id, the submission and the verdict given and
    the caller's id, and both that submission and that user are stored.
    No submission is touched by a vote: categories and [isAnalyzed] flags
    are as they were, and so are clips, users and files. *)
Theorem review_appends_one_vote :
  forall (s : Session.t) (gid : string) (isGame : bool)
         (game : GameplayType) (w w' : World) (message : string),
    gameplayRouter.review s gid isGame game w = (Ok message, w') ->
    (Session.id s = EmptyString /\ message = "No user" /\ w' = w)
    \/ (Session.id s <> EmptyString
        /\ message = "Updated the gameplay document successfully."
        /\ footageVotes (prisma w')
           = footageVotes (prisma w)
             ++ [FootageVotes.mk (cuid_of (cuids w)) gid (Session.id s)
                                 isGame game]
        /\ footage (prisma w') = footage (prisma w)
        /\ clip (prisma w') = clip (prisma w)
        /\ user (prisma w') = user (prisma w)
        /\ fs w' = fs w
        /\ (exists g, In g (footage (prisma w)) /\ Footage.id g = gid)
        /\ (exists u, In u (user (prisma w)) /\ User.id u = Session.id s)).
Proof.
  intros s gid isGame game w w' message H.
  unfold gameplayRouter.review in H.
  destruct (String.eqb_spec (Session.id s) EmptyString) as [E|E].
  - left. injection H as <- <-. auto.
  - right. unfold bind in H. rewrite votes_create_run in H. cbv zeta in H.
    destruct (existsb _ (footageVotes (prisma w))); [discriminate|].
    destruct (existsb (fun g => String.eqb (Footage.id g) gid)
                      (footage (prisma w))) eqn:Eg; [|discriminate].
    destruct (existsb (fun u => String.eqb (User.id u) (Session.id s))
                      (user (prisma w))) eqn:Eu; [|discriminate].
    cbn -[cuid_of] in H. injection H as <- <-. cbn -[cuid_of].
    apply existsb_exists in Eg as (g & Hg & Eg).
    apply existsb_exists in Eu as (u & Hu & Eu).
    apply String.eqb_eq in Eg, Eu.
    repeat match goal with |- _ /\ _ => split end; eauto.
Qed.

Lemma review_appends_one_vote_witness :
  let s := Sample.session_of Sample.bob in
  let w := Sample.world Sample.db1 [] in
  let r := gameplayRouter.review s "f1" false VAL w in
  r = (Ok "Updated the gameplay document successfully.", snd r)
  /\ footageVotes (prisma (snd r))
     = [FootageVotes.mk "c1" "f1" "u2" false VAL]
  /\ footage (prisma (snd r)) = footage (prisma w).
Proof.
  intros s w r.
  assert (H : r = (Ok "Updated the gameplay document successfully.", snd r))
    by reflexivity.
  split; [exact H|].
  destruct (@review_appends_one_vote s "f1" false VAL w (snd r) _ H)
    as [(E & _)|(_ & _ & Hv & Hf & _)]; [discriminate E|].
  split; [exact Hv | exact Hf].
Defined.

(** X11. [review] never answers [NOT_FOUND]: its test of the created vote
    cannot fail, and what it throws is the database's own error, a unique
    or foreign-key violation, with nothing stored.  A vote on a submission
    that does not exist is refused in this way, as a foreign-key
    violation. *)
Theorem review_never_answers_not_found :
  forall (s : Session.t) (gid : string) (isGame : bool)
         (game : GameplayType) (w : World),
    (forall e w',
        gameplayRouter.review s gid isGame game w = (Threw e, w') ->
        (e = PrismaClientError UniqueConstraintFailed
         \/ e = PrismaClientError ForeignKeyConstraintFailed)
        /\ prisma w' = prisma w)
    /\ (Session.id s <> EmptyString -> fresh_vote w ->
        footage_.findUnique_id gid (prisma w) = None ->
        fst (gameplayRouter.review s gid isGame game w)
        = Threw (PrismaClientError ForeignKeyConstraintFailed)).
Proof.
  intros s gid isGame game w. split.
  - intros e w' H. unfold gameplayRouter.review in H.
    destruct (String.eqb _ _); [discriminate|].
    unfold bind in H. rewrite votes_create_run in H. cbv zeta in H.
    destruct (existsb _ (footageVotes (prisma w)));
      [injection H as <- <-; auto|].
    destruct (_ || _); [injection H as <- <-; auto|].
    cbn in H. discriminate.
  - intros Hid Hfresh Hnone. unfold gameplayRouter.review.
    apply String.eqb_neq in Hid. rewrite Hid.
    unfold bind. rewrite votes_create_run. cbv zeta.
    assert (E1 : existsb (fun v => String.eqb (FootageVotes.id v)
                                               (cuid_of (cuids w)))
                         (footageVotes (prisma w)) = false).
    { destruct (existsb _ _) eqn:E; [|reflexivity].
      apply existsb_exists in E as (v & Hv & E).
      apply String.eqb_eq in E. now apply Hfresh in Hv. }
    rewrite E1.
    assert (E2 : existsb (fun g => String.eqb (Footage.id g) gid)
                         (footage (prisma w)) = false).
    { rewrite find_existsb. unfold footage_.findUnique_id in Hnone.
      now rewrite Hnone. }
    rewrite E2. reflexivity.
Qed.

Lemma review_never_answers_not_found_witness :
  let s := Sample.session_of Sample.alice in
  let w := Sample.world Sample.db1 [] in
  Session.id s <> EmptyString /\ fresh_vote w
  /\ footage_.findUnique_id "f9" (prisma w) = None
  /\ fst (gameplayRouter.review s "f9" true CSG w)
     = Threw (PrismaClientError ForeignKeyConstraintFailed).
Proof.
  intros s w.
  assert (H1 : Session.id s <> EmptyString) by discriminate.
  assert (H2 : fresh_vote w) by (intros v []).
  assert (H3 : footage_.findUnique_id "f9" (prisma w) = None)
    by reflexivity.
  repeat (split; [assumption|]).
  destruct (review_never_answers_not_found s "f9" true CSG w) as (_ & Hfk).
  exact (Hfk H1 H2 H3).
Defined.

(** X12. Nothing stops a reviewer from voting twice on the same submission:
    after a vote that was stored, the same call by the same user is stored
    again, as a second vote under a new id. *)
Theorem votes_accumulate :
  forall (s : Session.t) (gid : string) (isGame : bool)
         (game : GameplayType) (w w1 : World) (message : string),
    Session.id s <> EmptyString ->
    gameplayRouter.review s gid isGame game w = (Ok message, w1) ->
    fresh_vote w1 ->
    exists w2,
      gameplayRouter.review s gid isGame game w1 = (Ok message, w2)
      /\ footageVotes (prisma w2)
         = footageVotes (prisma w)
           ++ [FootageVotes.mk (cuid_of (cuids w)) gid (Session.id s)
                               isGame game;
               FootageVotes.mk (cuid_of (S (cuids w))) gid (Session.id s)
                               isGame game]
      /\ cuid_of (cuids w) <> cuid_of (S (cuids w)).
Proof.
  intros s gid isGame game w w1 message Hid H Hfresh.
  apply String.eqb_neq in Hid.
  unfold gameplayRouter.review in *. rewrite Hid in *.
  unfold bind in *. rewrite votes_create_run in H. cbv zeta in H.
  destruct (existsb _ (footageVotes (prisma w))); [discriminate|].
  destruct (existsb (fun g => String.eqb (Footage.id g) gid)
                    (footage (prisma w))) eqn:Eg; [|discriminate].
  destruct (existsb (fun u => String.eqb (User.id u) (Session.id s))
                    (user (prisma w))) eqn:Eu; [|discriminate].
  cbn -[cuid_of] in H. injection H as <- <-.
  rewrite votes_create_run. cbv zeta. cbn -[cuid_of] in *.
  assert (E1 : existsb (fun v => String.eqb (FootageVotes.id v)
                                             (cuid_of (S (cuids w))))
                       (footageVotes (prisma w)
                        ++ [FootageVotes.mk (cuid_of (cuids w)) gid
                                            (Session.id s) isGame game])
               = false).
  { match goal with |- ?x = false => destruct x eqn:E end; [|reflexivity].
    apply existsb_exists in E as (v & Hv & E).
    apply String.eqb_eq in E. now apply Hfresh in Hv. }
  rewrite E1, Eg, Eu. cbn -[cuid_of].
  eexists. split; [reflexivity|]. cbn -[cuid_of].
  split; [now rewrite <- app_assoc|].
  intros E. apply cuid_of_inj in E. lia.
Qed.

Lemma votes_accumulate_witness :
  let s := Sample.session_of Sample.bob in
  let w := Sample.world Sample.db1 [] in
  let r1 := gameplayRouter.review s "f1" true CSG w in
  let r2 := gameplayRouter.review s "f1" true CSG (snd r1) in
  Session.id s <> EmptyString
  /\ r1 = (Ok "Updated the gameplay document successfully.", snd r1)
  /\ fresh_vote (snd r1)
  /\ exists w2,
       r2 = (Ok "Updated the gameplay document successfully.", w2)
       /\ footageVotes (prisma w2)
          = [FootageVotes.mk "c1" "f1" "u2" true CSG;
             FootageVotes.mk "c2" "f1" "u2" true CSG]
       /\ "c1" <> "c2".
Proof.
  intros s w r1 r2.
  assert (H1 : Session.id s <> EmptyString) by discriminate.
  assert (H2 : r1 = (Ok "Updated the gameplay document successfully.",
                     snd r1)) by reflexivity.
  assert (H3 : fresh_vote (snd r1)).
  { intros v [<-|[]]. discriminate. }
  repeat (split; [assumption|]).
  exact (@votes_accumulate s "f1" true CSG w (snd r1) _ H1 H2 H3).
Defined.

(* ----------------------------------------------------------------- *)
(** *** Drawing at random *)

(** A draw that lands on a given index. *)
Lemma draw_for_index (k n : nat) :
  (k < n)%nat ->
  exists r, unit_interval r
            /\ Math_floor (r * inject_Z (Z.of_nat n)) = Z.of_nat k.
Proof.
  intros Hk. exists (Z.of_nat k # Pos.of_nat n).
  assert (Hn : Z.pos (Pos.of_nat n) = Z.of_nat n).
  { rewrite <- positive_nat_Z, Nat2Pos.id; [reflexivity|lia]. }
  split; [split|].
  - unfold Qle; cbn. lia.
  - unfold Qlt; cbn. rewrite Hn. lia.
  - unfold Math_floor, Qfloor, Qmult, inject_Z; cbn [Qnum Qden].
    rewrite Pos.mul_1_r, Hn. apply Z.div_mul. lia.
Qed.

Lemma skipn_at {A} (l : list A) (k : nat) (x : A) :
  nth_error l k = Some x -> exists rest, skipn k l = x :: rest.
Proof.
  revert l. induction k as [|k IH]; intros [|y l] H; cbn in *;
    try discriminate.
  - injection H as ->. eauto.
  - now apply IH.
Qed.

(** X13. [randomPick], given a draw in [[0, 1)] and a list that is not
    empty, returns an element of the list, never [undefined]; every element
    is returned for some draw; and a draw of exactly 1, which
    [Math.random] never gives, would return [undefined]. *)
Theorem randomPick_picks_every_element :
  forall (values : list string),
    values <> [] ->
    (forall r, unit_interval r ->
               exists v, randomPick r values = Some v /\ In v values)
    /\ (forall v, In v values ->
                  exists r, unit_interval r /\ randomPick r values = Some v)
    /\ randomPick 1 values = None.
Proof.
  intros values Hne. split; [|split].
  - intros r Hr. now apply randomPick_picks.
  - intros v Hin. apply In_nth_error in Hin as [k Hk].
    assert (Hlt : (k < length values)%nat)
      by (apply nth_error_Some; congruence).
    destruct (draw_for_index Hlt) as (r & Hr & Hfloor).
    exists r. split; [exact Hr|].
    unfold randomPick, array_get. rewrite Hfloor.
    destruct (Z.ltb_spec (Z.of_nat k) 0); [lia|].
    now rewrite Nat2Z.id.
  - unfold randomPick, array_get, Math_floor, Qfloor, Qmult, inject_Z.
    cbn [Qnum Qden]. rewrite Z.mul_1_l, Z.div_1_r.
    destruct (Z.ltb_spec (Z.of_nat (length values)) 0); [reflexivity|].
    rewrite Nat2Z.id. apply nth_error_None. lia.
Qed.

Lemma randomPick_picks_every_element_witness :
  ["userId"; "id"; "youtubeUrl"] <> []
  /\ (exists r, unit_interval r
                /\ randomPick r ["userId"; "id"; "youtubeUrl"]
                   = Some "youtubeUrl")
  /\ randomPick 1 ["userId"; "id"; "youtubeUrl"] = None.
Proof.
  assert (H : ["userId"; "id"; "youtubeUrl"] <> []) by discriminate.
  destruct (randomPick_picks_every_element H) as (_ & Hall & Hone).
  split; [exact H|]. split; [|exact Hone].
  apply Hall. right. right. now left.
Defined.

(* ----------------------------------------------------------------- *)
(** *** The review sampler on a collection that is not empty *)

Lemma getReviewItems_first_choices (s : Session.t) (r3 : Q) (w : World) :
  (0 <= Math_floor
          (r3 * inject_Z (Z.of_nat (length (footage (prisma w))))))%Z ->
  gameplayRouter.getReviewItems s 0 0 r3 w
  = (Ok (nth_error
           (map (gameplayRouter.include_user (prisma w))
              (firstn 1
                 (skipn (Z.to_nat
                           (Math_floor
                              (r3 * inject_Z
                                      (Z.of_nat
                                         (length (footage (prisma w)))))))
                        (sort (order_le Footage.userId desc)
                              (footage (prisma w))))))
           0), w).
Proof.
  intros H3.
  unfold gameplayRouter.getReviewItems, footage_.findMany, footage_.count.
  unfold_monad. cbn -[Math_floor sort Z.of_nat Z.sub Z.add inject_Z].
  rewrite filter_all, Z.sub_add.
  destruct (Z.ltb_spec
              (Math_floor
                 (r3 * inject_Z (Z.of_nat (length (footage (prisma w))))))
              0); [lia|].
  reflexivity.
Qed.

(** X14. [getReviewItems] never changes anything, whatever the draws.  On a
    well-formed database whose collection is not empty it returns, for
    draws in [[0, 1)], a stored submission together with the stored user
    who owns it; analyzed submissions are not left out; and every stored
    submission is returned for some draws. *)
Theorem sampler_returns_stored_submissions :
  forall (s : Session.t) (w : World),
    (forall r1 r2 r3,
        snd (gameplayRouter.getReviewItems s r1 r2 r3 w) = w)
    /\ (forall r1 r2 r3,
        unit_interval r1 -> unit_interval r2 -> unit_interval r3 ->
        Prisma_ok (prisma w) -> footage (prisma w) <> [] ->
        exists g u,
          fst (gameplayRouter.getReviewItems s r1 r2 r3 w)
          = Ok (Some (g, Some u))
          /\ In g (footage (prisma w))
          /\ In u (user (prisma w))
          /\ User.id u = Footage.userId g)
    /\ (forall g,
        In g (footage (prisma w)) ->
        exists r1 r2 r3,
          unit_interval r1 /\ unit_interval r2 /\ unit_interval r3
          /\ fst (gameplayRouter.getReviewItems s r1 r2 r3 w)
             = Ok (Some (gameplayRouter.include_user (prisma w) g))).
Proof.
  intros s w. split; [|split].
  - intros r1 r2 r3.
    unfold gameplayRouter.getReviewItems, footage_.findMany.
    unfold_monad. cbn -[randomPick Math_floor sort].
    destruct (_ <? 0)%Z; [reflexivity|].
    destruct (randomPick r1 _) as [k|]; [|reflexivity].
    destruct (randomPick r2 _) as [d|]; [|reflexivity].
    destruct (footage_field k); [|reflexivity].
    now destruct (SortOrder_of_string d).
  - intros r1 r2 r3 H1 H2 H3 Hok Hne.
    destruct (@review_item_exists s r1 r2 r3 w H1 H2 H3 Hne) as (g & Hg & Hin).
    destruct (@include_user_owner (prisma w) g Hok Hin)
      as (u & Hu & Hinu & Hid).
    exists g, u. rewrite Hg. cbn [fst].
    unfold gameplayRouter.include_user in *. cbn [snd] in Hu.
    rewrite Hu. auto.
  - intros g Hin.
    set (sorted := sort (order_le Footage.userId desc) (footage (prisma w))).
    assert (Hperm : Permutation sorted (footage (prisma w)))
      by apply sort_perm.
    assert (Hin' : In g sorted)
      by (apply (Permutation_in _ (Permutation_sym Hperm)); exact Hin).
    apply In_nth_error in Hin' as [k Hk].
    assert (Hlt : (k < length (footage (prisma w)))%nat).
    { rewrite <- (Permutation_length Hperm). apply nth_error_Some.
      congruence. }
    destruct (draw_for_index Hlt) as (r3 & Hr3 & Hfloor).
    assert (H0 : unit_interval 0) by (split; [discriminate|reflexivity]).
    exists 0, 0, r3. repeat (split; [assumption|]).
    rewrite getReviewItems_first_choices by (rewrite Hfloor; lia).
    rewrite Hfloor, Nat2Z.id. fold sorted. cbn [fst].
    destruct (skipn_at _ _ Hk) as [rest ->]. reflexivity.
Qed.

Lemma sampler_returns_stored_submissions_witness :
  let s := Sample.session_of Sample.bob in
  let w := Sample.world Sample.db1 [] in
  unit_interval (1 # 2) /\ unit_interval (3 # 4) /\ unit_interval (1 # 3)
  /\ Prisma_ok (prisma w) /\ footage (prisma w) <> []
  /\ exists g u,
       fst (gameplayRouter.getReviewItems s (1 # 2) (3 # 4) (1 # 3) w)
       = Ok (Some (g, Some u))
       /\ In g (footage (prisma w))
       /\ In u (user (prisma w))
       /\ User.id u = Footage.userId g.
Proof.
  intros s w.
  assert (H1 : unit_interval (1 # 2)) by (split; discriminate || reflexivity).
  assert (H2 : unit_interval (3 # 4)) by (split; discriminate || reflexivity).
  assert (H3 : unit_interval (1 # 3)) by (split; discriminate || reflexivity).
  assert (H4 : Prisma_ok (prisma w)) by exact Sample_db1_ok.
  assert (H5 : footage (prisma w) <> []) by discriminate.
  repeat (split; [assumption|]).
  destruct (sampler_returns_stored_submissions s w) as (_ & Hsome & _).
  exact (Hsome (1 # 2) (3 # 4) (1 # 3) H1 H2 H3 H4 H5).
Defined.

(* ----------------------------------------------------------------- *)
(** *** Files: what the calls of the clip service do to them *)

Lemma path_eqb_eq (p q : path) : path_eqb p q = true <-> p = q.
Proof.
  unfold path_eqb. destruct (list_eq_dec string_dec p q); split;
    congruence.
Qed.

Lemma path_eqb_refl (p : path) : path_eqb p p = true.
Proof. now apply path_eqb_eq. Qed.

Lemma is_under_split (d p : path) :
  is_under d p = true -> p = d ++ below d p.
Proof.
  revert p. induction d as [|x d IH]; intros p H; cbn in *; [reflexivity|].
  destruct p as [|y p]; [discriminate|].
  apply andb_prop in H as [Hx Hd]. apply String.eqb_eq in Hx. subst y.
  unfold below in *. cbn. f_equal. now apply IH.
Qed.

Lemma is_under_refl (d : path) : is_under d d = true.
Proof.
  induction d as [|x d IH]; cbn; [reflexivity|].
  now rewrite String.eqb_refl.
Qed.

(** A path other than the root exists exactly when the table lists it. *)
Lemma statSync_listed (p : path) (f : FS) (k : node) :
  p <> [] -> statSync p f = Some k -> In (p, k) f.
Proof.
  intros Hp H. destruct p as [|x p]; [contradiction|].
  unfold statSync in H.
  destruct (find _ f) as [[q k']|] eqn:E; [|discriminate].
  cbn in H. injection H as ->. apply find_some in E as [Hin E].
  cbn in E. apply path_eqb_eq in E. now subst q.
Qed.

Lemma listed_exists (p : path) (f : FS) (k : node) :
  In (p, k) f -> existsSync p f = true.
Proof.
  intros Hin. unfold existsSync, statSync.
  destruct p as [|x p]; [reflexivity|].
  destruct (find _ f) eqn:E; [reflexivity|].
  apply (find_none _ _ E) in Hin. cbn in Hin.
  now rewrite path_eqb_refl in Hin.
Qed.

Lemma exists_listed (p : path) (f : FS) :
  p <> [] -> existsSync p f = true -> exists k, In (p, k) f.
Proof.
  intros Hp H. unfold existsSync in H.
  destruct (statSync p f) as [k|] eqn:E; [|discriminate].
  exists k. now apply statSync_listed.
Qed.

(** Entries written after the others do not hide them. *)
Lemma statSync_app_l (p : path) (f f' : FS) (k : node) :
  statSync p f = Some k -> statSync p (f ++ f') = Some k.
Proof.
  destruct p as [|x p]; [auto|]. unfold statSync.
  destruct (find _ f) as [e|] eqn:E; [|discriminate].
  intros H. assert (Hfind : find (fun e0 => path_eqb (fst e0) (x :: p))
                                 (f ++ f') = Some e).
  { clear H. induction f as [|y f IH]; cbn in *; [discriminate|].
    destruct (path_eqb (fst y) (x :: p)); [exact E|]. now apply IH. }
  now rewrite Hfind.
Qed.

Lemma statSync_app_new (p : path) (f : FS) (k : node) :
  p <> [] -> statSync p f = None -> statSync p (f ++ [(p, k)]) = Some k.
Proof.
  intros Hp. destruct p as [|x p]; [contradiction|]. unfold statSync.
  destruct (find _ f) as [e|] eqn:E; [discriminate|]. intros _.
  assert (Hfind : find (fun e0 => path_eqb (fst e0) (x :: p))
                       (f ++ [(x :: p, k)]) = Some (x :: p, k)).
  { induction f as [|y f IH]; cbn in *.
    - now rewrite path_eqb_refl.
    - destruct (path_eqb (fst y) (x :: p)); [discriminate|]. now apply IH. }
  exact (f_equal (option_map snd) Hfind).
Qed.

(** Dropping entries found at other paths does not change what is found at
    [p]. *)
Lemma statSync_filter_others (p : path) (f : FS) (k : node)
    (keep : path * node -> bool) :
  (forall e, fst e = p -> keep e = true) ->
  statSync p f = Some k -> statSync p (filter keep f) = Some k.
Proof.
  intros Hkeep. destruct p as [|x p]; [auto|]. unfold statSync.
  destruct (find _ f) as [e|] eqn:E; [|discriminate]. intros H.
  assert (Hfind : find (fun e0 => path_eqb (fst e0) (x :: p))
                       (filter keep f) = Some e).
  { clear H. induction f as [|y f IH]; cbn in *; [discriminate|].
    destruct (path_eqb (fst y) (x :: p)) eqn:Ey.
    - injection E as ->. apply path_eqb_eq in Ey.
      rewrite (Hkeep e Ey). cbn. apply path_eqb_eq in Ey. now rewrite Ey.
    - destruct (keep y); cbn; [rewrite Ey|]; now apply IH. }
  now rewrite Hfind.
Qed.

Lemma mkdirSync_cases (p : path) (w : World) :
  (exists e, fs_.mkdirSync p w = (Threw e, w))
  \/ (statSync p (fs w) = None
      /\ isDirectory (parent p) (fs w) = true
      /\ fs_.mkdirSync p w = (Ok tt, set_fs (fs w ++ [(p, Dir)]) w)).
Proof.
  unfold fs_.mkdirSync; unfold_monad. cbn. unfold existsSync.
  destruct (statSync p (fs w)) eqn:E; [left; eauto|].
  destruct (isDirectory (parent p) (fs w)) eqn:Ep; cbn; [|left; eauto].
  right. auto.
Qed.

(** The entries [fse.copy] writes. *)
Lemma copy_cases (src dest : path) (w : World) :
  (exists e, fs_.copy src dest w = (Threw e, w))
  \/ exists copied,
       (forall c, In c copied ->
                  exists rest, rest <> [] /\ fst c = dest ++ rest)
       /\ fs_.copy src dest w
          = (Ok tt,
             set_fs (filter (fun e =>
                               negb (existsb (fun c => path_eqb (fst c)
                                                                (fst e))
                                             copied)) (fs w)
                     ++ copied) w).
Proof.
  unfold fs_.copy; unfold_monad. cbn.
  destruct (existsSync src (fs w)); cbn; [|left; eauto].
  right. eexists. split; [|reflexivity].
  intros c Hc. apply in_flat_map in Hc as (e & _ & Hc).
  destruct (is_under src (fst e)) eqn:Eu; cbn in Hc; [|contradiction].
  destruct (path_eqb (fst e) src) eqn:Ee; cbn in Hc; [contradiction|].
  destruct Hc as [<-|[]]. cbn. exists (below src (fst e)).
  split; [|reflexivity].
  intros Hnil. apply is_under_split in Eu. rewrite Hnil, app_nil_r in Eu.
  apply path_eqb_eq in Eu. congruence.
Qed.

(** What [fse.copy] does to the rest of the tree: nothing that existed
    ceases to exist, and a node that is not strictly below the destination
    stays what it was. *)
Lemma copy_keeps (src dest : path) (w w' : World) :
  fs_.copy src dest w = (Ok tt, w') ->
  cuids w' = cuids w
  /\ (forall p, existsSync p (fs w) = true -> existsSync p (fs w') = true)
  /\ (forall p k,
        (forall rest, rest <> [] -> p <> dest ++ rest) ->
        statSync p (fs w) = Some k -> statSync p (fs w') = Some k).
Proof.
  intros H. destruct (copy_cases src dest w) as [[e He]|(copied & Hc & Hok)];
    [congruence|].
  rewrite Hok in H. injection H as <-. cbn.
  split; [reflexivity|]. split.
  - intros p Hp. destruct p as [|x p]; [reflexivity|].
    apply exists_listed in Hp as [k Hin]; [|discriminate].
    destruct (existsb (fun c => path_eqb (fst c) (x :: p)) copied) eqn:E.
    + apply existsb_exists in E as ([q k'] & Hq & E). cbn in E.
      apply path_eqb_eq in E. subst q.
      apply (@listed_exists _ _ k'). apply in_or_app. now right.
    + apply (@listed_exists _ _ k). apply in_or_app. left.
      apply filter_In. split; [exact Hin|]. cbn. now rewrite E.
  - intros p k Hp Hs. apply statSync_app_l.
    apply statSync_filter_others; [|exact Hs].
    intros e <-.
    match goal with
    | |- negb ?x = true => destruct x eqn:E; [|reflexivity]
    end.
    apply existsb_exists in E as (c & Hin & E). apply path_eqb_eq in E.
    destruct (Hc c Hin) as (rest & Hrest & Hfst).
    exfalso. apply (Hp rest Hrest). rewrite <- E. exact Hfst.
Qed.

Lemma mkdirSync_keeps (p : path) (w w' : World) :
  fs_.mkdirSync p w = (Ok tt, w') ->
  cuids w' = cuids w
  /\ (p <> [] -> isDirectory p (fs w') = true)
  /\ (forall q, existsSync q (fs w) = true -> existsSync q (fs w') = true)
  /\ (forall q k, statSync q (fs w) = Some k -> statSync q (fs w') = Some k).
Proof.
  intros H. destruct (mkdirSync_cases p w) as [[e He]|(Hnew & _ & Hok)];
    [congruence|].
  rewrite Hok in H. injection H as <-. cbn.
  split; [reflexivity|]. split; [|split].
  - intros Hp. unfold isDirectory. now rewrite statSync_app_new.
  - intros q. unfold existsSync.
    destruct (statSync q (fs w)) as [k|] eqn:E; [|discriminate].
    now rewrite (@statSync_app_l q (fs w) [(p, Dir)] k E).
  - intros q k. apply statSync_app_l.
Qed.

(* ----------------------------------------------------------------- *)
(** *** Storing the segments *)

Lemma storeClips_loop (loc : option path) (id : string) :
  storeClips loc id
  = bind (match loc with
          | Some l =>
              bind get_fs (fun f =>
                if negb (existsSync l f) then fs_.mkdirSync l else ret tt)
          | None => ret tt
          end)
         (fun _ => bind (getDirectories ["clips"])
                        (fun clipDirs =>
                           forEach clipDirs (storeClips_step loc id))).
Proof. reflexivity. Qed.

Lemma not_strictly_below_itself (p rest : path) :
  rest <> [] -> p <> p ++ rest.
Proof.
  intros Hrest E. apply Hrest.
  rewrite <- (app_nil_r p) in E at 1. now apply app_inv_head in E.
Qed.

Lemma siblings_not_below (dir : path) (a b : string) (rest : path) :
  rest <> [] -> dir ++ [a] <> (dir ++ [b]) ++ rest.
Proof.
  intros Hrest E. rewrite <- app_assoc in E. apply app_inv_head in E.
  cbn in E. injection E as _ E. now apply Hrest.
Qed.

Lemma storeClips_step_ok loc id clipDir w w1 :
  storeClips_step loc id clipDir w = (Ok tt, w1) ->
  let place := (FS_LOCATION_text loc ++ [id]) ++ [cuid_of (cuids w)] in
  cuids w1 = S (cuids w)
  /\ isDirectory place (fs w1) = true
  /\ (forall p, existsSync p (fs w) = true -> existsSync p (fs w1) = true)
  /\ (forall p k,
        (forall rest, rest <> [] -> p <> place ++ rest) ->
        statSync p (fs w) = Some k -> statSync p (fs w1) = Some k).
Proof.
  intros H place. unfold storeClips_step, bind, cuid, get_fs in H.
  cbn [fs] in H. fold place in H.
  set (wa := mkWorld (prisma w) (fs w) (S (cuids w)) (calls w)) in H.
  set (footageDir := FS_LOCATION_text loc ++ [id]) in *.
  destruct ((if negb (existsSync footageDir (fs w))
             then fs_.mkdirSync footageDir else ret tt) wa)
    as [[[]|e] wb] eqn:E1; [|discriminate].
  destruct (fs_.mkdirSync place wb) as [[[]|e] wc] eqn:E2; [|discriminate].
  assert (Hb : cuids wb = S (cuids w)
               /\ (forall q, existsSync q (fs w) = true ->
                             existsSync q (fs wb) = true)
               /\ (forall q k, statSync q (fs w) = Some k ->
                               statSync q (fs wb) = Some k)).
  { destruct (negb (existsSync footageDir (fs w))).
    - destruct (mkdirSync_keeps _ _ E1) as (Hc & _ & He & Hs). auto.
    - injection E1 as <-. auto. }
  destruct Hb as (Hcb & Heb & Hsb).
  destruct (mkdirSync_keeps _ _ E2) as (Hcc & Hdir & Hec & Hsc).
  destruct (copy_keeps _ _ _ H) as (Hc1 & He1 & Hs1).
  assert (Hplace : place <> []) by (subst place; now destruct footageDir).
  split; [congruence|]. split; [|split].
  - unfold isDirectory in *. specialize (Hdir Hplace).
    destruct (statSync place (fs wc)) as [[|]|] eqn:E; try discriminate.
    rewrite (Hs1 place Dir); [reflexivity| |exact E].
    intros rest Hrest. now apply not_strictly_below_itself.
  - auto.
  - intros p k Hp Hs. apply Hs1; [exact Hp|]. auto.
Qed.

Lemma storeClips_steps_ok loc id dirs :
  forall w w',
    forEach dirs (storeClips_step loc id) w = (Ok tt, w') ->
    let footageDir := FS_LOCATION_text loc ++ [id] in
    cuids w' = (cuids w + length dirs)%nat
    /\ (forall i, (i < length dirs)%nat ->
                  isDirectory (footageDir ++ [cuid_of (cuids w + i)]) (fs w')
                  = true)
    /\ (forall p, existsSync p (fs w) = true -> existsSync p (fs w') = true)
    /\ (forall p k,
          (forall c rest, rest <> [] -> p <> (footageDir ++ [c]) ++ rest) ->
          statSync p (fs w) = Some k -> statSync p (fs w') = Some k).
Proof.
  induction dirs as [|d dirs IH]; intros w w' H footageDir.
  - injection H as <-. rewrite Nat.add_0_r. cbn.
    repeat split; auto. intros i Hi. lia.
  - cbn [forEach] in H. unfold bind in H.
    destruct (storeClips_step loc id d w) as [[[]|e] w1] eqn:E;
      [|discriminate].
    destruct (storeClips_step_ok _ _ _ _ E) as (Hc1 & Hd1 & He1 & Hs1).
    destruct (IH _ _ H) as (Hc & Hd & He & Hs).
    fold footageDir in Hd1, Hs1, Hd, Hs.
    split; [cbn; lia|]. split; [|split].
    + intros [|i] Hi.
      * rewrite Nat.add_0_r. unfold isDirectory in *.
        destruct (statSync (footageDir ++ [cuid_of (cuids w)]) (fs w1))
          as [[|]|] eqn:Es; try discriminate.
        rewrite (Hs _ Dir); [reflexivity| |exact Es].
        intros c rest Hrest. now apply siblings_not_below.
      * rewrite <- Nat.add_succ_comm, <- Hc1. apply Hd. cbn in Hi. lia.
    + auto.
    + intros p k Hp Hst. apply Hs; [exact Hp|].
      apply Hs1; [|exact Hst]. intros rest Hrest. now apply Hp.
Qed.

(** X15. When [storeClips] succeeds, with the storage root in place before
    the call, it has drawn one identifier per segment directory found and
    made, for each, the directory [FS_LOCATION/id/identifier]; these
    directories are pairwise distinct; nothing that existed has ceased to
    exist; and the database is untouched. *)
Theorem storeClips_makes_one_directory_per_segment :
  forall (loc : option path) (id : string) (w w' : World)
         (dirs : list path),
    (forall l, loc = Some l -> existsSync l (fs w) = true) ->
    fst (getDirectories ["clips"] w) = Ok dirs ->
    storeClips loc id w = (Ok tt, w') ->
    let place i := FS_LOCATION_text loc ++ [id; cuid_of (cuids w + i)] in
    cuids w' = (cuids w + length dirs)%nat
    /\ (forall i, (i < length dirs)%nat -> isDirectory (place i) (fs w') = true)
    /\ (forall i j, i <> j -> place i <> place j)
    /\ (forall p, existsSync p (fs w) = true -> existsSync p (fs w') = true)
    /\ prisma w' = prisma w.
Proof.
  intros loc id w w' dirs Hloc Hdirs H place.
  assert (Hprisma : prisma w' = prisma w).
  { pose proof (keeps_prisma_storeClips loc id w) as Hk.
    now rewrite H in Hk. }
  rewrite storeClips_loop in H. unfold bind at 1 in H.
  assert (Hfirst : (match loc with
                    | Some l =>
                        bind get_fs (fun f =>
                          if negb (existsSync l f) then fs_.mkdirSync l
                          else ret tt)
                    | None => ret tt
                    end) w = (Ok tt, w)).
  { destruct loc as [l|]; [|reflexivity].
    unfold bind, get_fs. now rewrite (Hloc l eq_refl). }
  rewrite Hfirst in H. unfold bind in H.
  pose proof (getDirectories_pure_read ["clips"] w) as Hpure.
  destruct (getDirectories ["clips"] w) as [r w0]. cbn in Hdirs, Hpure.
  subst r w0.
  destruct (@storeClips_steps_ok loc id dirs w w' H) as (Hc & Hd & He & _).
  split; [exact Hc|]. split; [|split; [|split]].
  - intros i Hi. subst place. cbn beta.
    replace (FS_LOCATION_text loc ++ [id; cuid_of (cuids w + i)])
      with ((FS_LOCATION_text loc ++ [id]) ++ [cuid_of (cuids w + i)])
      by (now rewrite <- app_assoc).
    now apply Hd.
  - intros i j Hij E. subst place. cbn beta in E.
    apply app_inv_head in E.
    apply (f_equal (fun l => nth 1 l EmptyString)) in E.
    cbn -[cuid_of] in E. apply cuid_of_inj in E. lia.
  - exact He.
  - exact Hprisma.
Qed.

Lemma storeClips_makes_one_directory_per_segment_witness :
  let w := Sample.world Sample.db1
             ((["store"], Dir) :: Sample.fs_one_segment) in
  let w' := snd (storeClips (Some ["store"]) "job" w) in
  (forall l, Some ["store"] = Some l -> existsSync l (fs w) = true)
  /\ fst (getDirectories ["clips"] w) = Ok [["clips"; "seg0"]]
  /\ storeClips (Some ["store"]) "job" w = (Ok tt, w')
  /\ cuids w' = 2%nat
  /\ isDirectory ["store"; "job"; "c1"] (fs w') = true.
Proof.
  intros w w'.
  assert (H1 : forall l, Some ["store"] = Some l ->
                         existsSync l (fs w) = true)
    by (intros l [= <-]; reflexivity).
  assert (H2 : fst (getDirectories ["clips"] w) = Ok [["clips"; "seg0"]])
    by reflexivity.
  assert (H3 : storeClips (Some ["store"]) "job" w = (Ok tt, w'))
    by reflexivity.
  repeat (split; [assumption|]).
  destruct (@storeClips_makes_one_directory_per_segment (Some ["store"])
              "job" w w' [["clips"; "seg0"]] H1 H2 H3) as (Hc & Hd & _).
  split; [exact Hc|]. apply (Hd 0%nat). cbn. lia.
Defined.

(* ----------------------------------------------------------------- *)
(** *** Starting the analyzer *)

Lemma existsSync_app_l (p : path) (f f' : FS) :
  existsSync p f = true -> existsSync p (f ++ f') = true.
Proof.
  unfold existsSync. destruct (statSync p f) as [k|] eqn:E; [|discriminate].
  intros _. now rewrite (@statSync_app_l p f f' k E).
Qed.

Lemma existsSync_app_new (p : path) (f : FS) (k : node) :
  p <> [] -> existsSync p f = false -> existsSync p (f ++ [(p, k)]) = true.
Proof.
  intros Hp. unfold existsSync.
  destruct (statSync p f) eqn:E; [discriminate|]. intros _.
  now rewrite (@statSync_app_new p f k Hp E).
Qed.

(** What [parseClips] does, in one equation per effect. *)
Lemma parseClips_run :
  forall (uuid video : string) (w : World),
    exists w',
      parseClips uuid video w = (Ok tt, w')
      /\ existsSync ["clips"] (fs w') = true
      /\ calls w'
         = calls w ++ [Spawn "python3" ["autoClip.py"; video; "clips"; "1"]]
      /\ prisma w' = prisma w
      /\ cuids w' = cuids w
      /\ (forall p, existsSync p (fs w) = true -> existsSync p (fs w') = true)
      /\ (existsSync ["clips"] (fs w) = true -> fs w' = fs w).
Proof.
  intros uuid video w. unfold parseClips, fs_.mkdirSync. unfold_monad.
  cbn [fs]. destruct (existsSync ["clips"] (fs w)) eqn:E; cbn.
  - eexists. split; [reflexivity|]. cbn. rewrite E. auto 10.
  - rewrite E. cbn. eexists. split; [reflexivity|]. cbn.
    split.
    + apply (@existsSync_app_new ["clips"] (fs w) Dir); [discriminate|].
      exact E.
    + repeat split; try reflexivity; [|discriminate].
      intros p Hp. now apply existsSync_app_l.
Qed.

(** X16. [parseClips] never throws: it makes the working directory only
    when nothing is found at [clips], and then starts the analyzer on the
    video, once.  Afterwards something exists at [clips]; nothing that
    existed has been removed; a working directory already there leaves the
    files untouched; and the database and the identifier counter are as
    they were. *)
Theorem parseClips_always_starts_the_analyzer :
  forall (uuid video : string) (w : World),
    exists w',
      parseClips uuid video w = (Ok tt, w')
      /\ existsSync ["clips"] (fs w') = true
      /\ calls w'
         = calls w ++ [Spawn "python3" ["autoClip.py"; video; "clips"; "1"]]
      /\ prisma w' = prisma w
      /\ cuids w' = cuids w
      /\ (forall p, existsSync p (fs w) = true -> existsSync p (fs w') = true)
      /\ (existsSync ["clips"] (fs w) = true -> fs w' = fs w).
Proof. exact parseClips_run. Qed.

Lemma parseClips_always_starts_the_analyzer_witness :
  let w := Sample.world Sample.db1 Sample.fs_no_segment in
  existsSync ["clips"] (fs w) = true
  /\ exists w',
       parseClips "c0" "c0.mp4" w = (Ok tt, w')
       /\ calls w' = [Spawn "python3" ["autoClip.py"; "c0.mp4"; "clips"; "1"]]
       /\ fs w' = fs w.
Proof.
  intros w.
  assert (H : existsSync ["clips"] (fs w) = true) by reflexivity.
  split; [exact H|].
  destruct (parseClips_always_starts_the_analyzer "c0" "c0.mp4" w)
    as (w' & Hrun & _ & Hcalls & _ & _ & _ & Hsame).
  exists w'. split; [exact Hrun|]. split; [exact Hcalls | exact (Hsame H)].
Defined.

(* ----------------------------------------------------------------- *)
(** *** When the analyzer exits *)

Lemma nothing_under_means_absent (d : path) (f : FS) :
  d <> [] ->
  (forall p k, In (p, k) f -> is_under d p = false) ->
  existsSync d f = false.
Proof.
  intros Hd Hf. destruct (existsSync d f) eqn:E; [|reflexivity].
  apply exists_listed in E as [k Hin]; [|exact Hd].
  apply Hf in Hin. now rewrite is_under_refl in Hin.
Qed.

Lemma on_exit_with_segments loc uuid video w dirs :
  fst (getDirectories ["clips"] w) = Ok dirs -> dirs <> [] ->
  parseClips_on_exit loc uuid video w
  = match storeClips loc uuid w with
    | (Ok _, w1) =>
        let w2 :=
          set_fs (filter (fun e => negb (is_under ["clips"] (fst e)))
                         (fs w1)) w1 in
        match statSync [video] (fs w2) with
        | None => (Ok tt, w2)
        | Some Dir => (Threw (FsError "ERR_FS_EISDIR" [video]), w2)
        | Some File =>
            (Ok tt,
             set_fs (filter (fun e => negb (path_eqb (fst e) [video]))
                            (fs w2)) w2)
        end
    | (Threw e, w1) => (Threw e, w1)
    end.
Proof.
  intros Hdirs Hne.
  pose proof (getDirectories_pure_read ["clips"] w) as Hpure.
  unfold parseClips_on_exit, bind at 1.
  destruct (getDirectories ["clips"] w) as [r w0]. cbn in Hdirs, Hpure.
  subst r w0.
  assert (Hlen : (0 <? length dirs)%nat = true)
    by (destruct dirs; [contradiction|reflexivity]).
  rewrite Hlen. unfold bind.
  destruct (storeClips loc uuid w) as [[[]|e] w1]; [|reflexivity].
  unfold fs_.rmSync_recursive_force, fs_.rmSync_force. unfold_monad.
  cbn [fs]. cbv zeta.
  now destruct (statSync [video] _) as [[|]|].
Qed.

(** X17. When the analyzer has left at least one segment directory and the
    exit handler succeeds, the working directory [clips] and everything
    below it are gone, and so is the downloaded video; the database is as it
    was. *)
Theorem exit_handler_cleans_up :
  forall (loc : option path) (uuid video : string) (w w' : World)
         (dirs : list path),
    fst (getDirectories ["clips"] w) = Ok dirs -> dirs <> [] ->
    parseClips_on_exit loc uuid video w = (Ok tt, w') ->
    existsSync ["clips"] (fs w') = false
    /\ existsSync [video] (fs w') = false
    /\ (forall p k, In (p, k) (fs w') -> is_under ["clips"] p = false)
    /\ prisma w' = prisma w.
Proof.
  intros loc uuid video w w' dirs Hdirs Hne H.
  assert (Hprisma : prisma w' = prisma w).
  { pose proof (keeps_prisma_parseClips_on_exit loc uuid video w) as Hk.
    now rewrite H in Hk. }
  rewrite (on_exit_with_segments loc uuid video w Hdirs Hne) in H.
  destruct (storeClips loc uuid w) as [[[]|e] w1]; [|discriminate].
  cbv zeta in H.
  set (f2 := filter (fun e => negb (is_under ["clips"] (fst e))) (fs w1))
    in *.
  assert (Hf2 : forall p k, In (p, k) f2 -> is_under ["clips"] p = false).
  { intros p k Hin. apply filter_In in Hin as [_ Hin].
    now apply negb_true_iff in Hin. }
  cbn [fs set_fs] in H.
  destruct (statSync [video] f2) as [[|]|] eqn:Ev.
  - injection H as <-. cbn [fs set_fs].
    assert (Hf3 : forall p k,
              In (p, k) (filter (fun e => negb (path_eqb (fst e) [video]))
                                f2) ->
              is_under ["clips"] p = false).
    { intros p k Hin. apply filter_In in Hin as [Hin _]. eauto. }
    split; [apply nothing_under_means_absent; [discriminate|exact Hf3]|].
    split; [|auto].
    unfold existsSync, statSync.
    now rewrite (find_filter_none (fun e => path_eqb (fst e) [video])).
  - discriminate.
  - injection H as <-. cbn [fs set_fs].
    split; [apply nothing_under_means_absent; [discriminate|exact Hf2]|].
    split; [|auto]. unfold existsSync. now rewrite Ev.
Qed.

Lemma exit_handler_cleans_up_witness :
  let w := Sample.world Sample.db1 Sample.fs_one_segment in
  let w' := snd (parseClips_on_exit (Some ["store"]) "c0" "c0.mp4" w) in
  fst (getDirectories ["clips"] w) = Ok [["clips"; "seg0"]]
  /\ [["clips"; "seg0"]] <> []
  /\ parseClips_on_exit (Some ["store"]) "c0" "c0.mp4" w = (Ok tt, w')
  /\ existsSync ["clips"] (fs w') = false
  /\ existsSync ["c0.mp4"] (fs w') = false.
Proof.
  intros w w'.
  assert (H1 : fst (getDirectories ["clips"] w) = Ok [["clips"; "seg0"]])
    by reflexivity.
  assert (H2 : [["clips"; "seg0"]] <> [] :> list path) by discriminate.
  assert (H3 : parseClips_on_exit (Some ["store"]) "c0" "c0.mp4" w
               = (Ok tt, w')) by reflexivity.
  repeat (split; [assumption|]).
  destruct (@exit_handler_cleans_up (Some ["store"]) "c0" "c0.mp4" w w'
              [["clips"; "seg0"]] H1 H2 H3) as (Hc & Hv & _).
  split; [exact Hc | exact Hv].
Defined.

(* ----------------------------------------------------------------- *)
(** *** When storing the segments fails *)

Lemma removes_nothing_ret {A} (a : A) : removes_nothing (ret a).
Proof. intros w p H. exact H. Qed.

Lemma removes_nothing_throw {A} (e : Exn) : removes_nothing (@throw A e).
Proof. intros w p H. exact H. Qed.

Lemma removes_nothing_bind {A B} (m : M A) (k : A -> M B) :
  removes_nothing m -> (forall a, removes_nothing (k a)) ->
  removes_nothing (bind m k).
Proof.
  intros Hm Hk w p Hp. unfold bind. specialize (Hm w p Hp).
  destruct (m w) as [[a|e] w1]; cbn in *; [|exact Hm].
  now apply Hk.
Qed.

Lemma removes_nothing_mkdirSync p : removes_nothing (fs_.mkdirSync p).
Proof.
  intros w q Hq.
  destruct (mkdirSync_cases p w) as [[e ->]|(_ & _ & ->)]; [exact Hq|].
  cbn. now apply existsSync_app_l.
Qed.

Lemma removes_nothing_copy src dest : removes_nothing (fs_.copy src dest).
Proof.
  intros w q Hq.
  destruct (fs_.copy src dest w) as [[[]|e] w1] eqn:E.
  - destruct (copy_keeps _ _ _ E) as (_ & He & _). now apply He.
  - destruct (copy_cases src dest w) as [[e0 He]|(copied & _ & Hok)];
      rewrite E in *; [|discriminate].
    injection He as _ <-. exact Hq.
Qed.

Lemma removes_nothing_getDirectories d :
  removes_nothing (getDirectories d).
Proof.
  intros w q Hq. now rewrite getDirectories_pure_read.
Qed.

Lemma removes_nothing_step loc id clipDir :
  removes_nothing (storeClips_step loc id clipDir).
Proof.
  unfold storeClips_step.
  apply removes_nothing_bind; [intros w p H; exact H|intros uuid].
  cbv zeta.
  apply removes_nothing_bind; [intros w p H; exact H|intros f].
  apply removes_nothing_bind.
  { destruct (negb _);
      [apply removes_nothing_mkdirSync|apply removes_nothing_ret]. }
  intros _. apply removes_nothing_bind; [apply removes_nothing_mkdirSync|].
  intros _. apply removes_nothing_copy.
Qed.

Lemma removes_nothing_storeClips loc id : removes_nothing (storeClips loc id).
Proof.
  rewrite storeClips_loop. apply removes_nothing_bind.
  { destruct loc as [l|]; [|apply removes_nothing_ret].
    apply removes_nothing_bind; [intros w p H; exact H|intros f].
    destruct (negb _);
      [apply removes_nothing_mkdirSync|apply removes_nothing_ret]. }
  intros _. apply removes_nothing_bind;
    [apply removes_nothing_getDirectories|intros dirs].
  induction dirs as [|d dirs IH]; cbn [forEach];
    [apply removes_nothing_ret|].
  apply removes_nothing_bind; [apply removes_nothing_step|intros _].
  exact IH.
Qed.

(** X18. When storing the segments throws, the exit handler throws the same
    error at once: neither the working directory nor the video is removed,
    so everything that existed before the handler ran still exists, with
    whatever [storeClips] had already written; the database is as it
    was. *)
Theorem failed_store_skips_cleanup :
  forall (loc : option path) (uuid video : string) (w w1 : World)
         (dirs : list path) (e : Exn),
    fst (getDirectories ["clips"] w) = Ok dirs -> dirs <> [] ->
    storeClips loc uuid w = (Threw e, w1) ->
    parseClips_on_exit loc uuid video w = (Threw e, w1)
    /\ (forall p, existsSync p (fs w) = true -> existsSync p (fs w1) = true)
    /\ prisma w1 = prisma w.
Proof.
  intros loc uuid video w w1 dirs e Hdirs Hne H.
  rewrite (on_exit_with_segments loc uuid video w Hdirs Hne), H.
  split; [reflexivity|]. split.
  - intros p Hp. pose proof (removes_nothing_storeClips loc uuid w p Hp) as Hk.
    now rewrite H in Hk.
  - pose proof (keeps_prisma_storeClips loc uuid w) as Hk.
    now rewrite H in Hk.
Qed.

Lemma failed_store_skips_cleanup_witness :
  let w := Sample.world Sample.db1 Sample.fs_one_segment in
  let w1 := snd (storeClips None "c0" w) in
  let e := FsError "ENOENT" ["undefined"; "c0"] in
  fst (getDirectories ["clips"] w) = Ok [["clips"; "seg0"]]
  /\ [["clips"; "seg0"]] <> []
  /\ storeClips None "c0" w = (Threw e, w1)
  /\ parseClips_on_exit None "c0" "c0.mp4" w = (Threw e, w1)
  /\ existsSync ["c0.mp4"] (fs w1) = true.
Proof.
  intros w w1 e.
  assert (H1 : fst (getDirectories ["clips"] w) = Ok [["clips"; "seg0"]])
    by reflexivity.
  assert (H2 : [["clips"; "seg0"]] <> [] :> list path) by discriminate.
  assert (H3 : storeClips None "c0" w = (Threw e, w1)) by reflexivity.
  split; [exact H1|]. split; [exact H2|]. split; [exact H3|].
  destruct (@failed_store_skips_cleanup None "c0" "c0.mp4" w w1
              [["clips"; "seg0"]] e H1 H2 H3) as (Hthrow & Hkeep & _).
  split; [exact Hthrow|]. apply Hkeep. reflexivity.
Defined.

(** X19. With [FS_LOCATION] unset the storage path is spelled
    [undefined/id]: on a well-formed file system with no [undefined]
    directory in the working directory, [storeClips] fails as soon as there
    is a segment to store, with [ENOENT] for [undefined/id], having drawn
    one identifier and written nothing. *)
Theorem storeClips_without_FS_LOCATION :
  forall (id : string) (w : World) (d : path) (ds : list path),
    FS_ok (fs w) ->
    existsSync ["undefined"] (fs w) = false ->
    fst (getDirectories ["clips"] w) = Ok (d :: ds) ->
    storeClips None id w
    = (Threw (FsError "ENOENT" ["undefined"; id]),
       mkWorld (prisma w) (fs w) (S (cuids w)) (calls w)).
Proof.
  intros id w d ds Hok Hun Hdirs.
  pose proof (getDirectories_pure_read ["clips"] w) as Hpure.
  rewrite storeClips_loop. unfold bind at 1. cbn [ret]. unfold bind at 1.
  destruct (getDirectories ["clips"] w) as [r w0]. cbn in Hdirs, Hpure.
  subst r w0. cbn [forEach]. unfold bind at 1.
  assert (Hstep : storeClips_step None id d w
                  = (Threw (FsError "ENOENT" ["undefined"; id]),
                     mkWorld (prisma w) (fs w) (S (cuids w)) (calls w))).
  { unfold storeClips_step, fs_.mkdirSync. unfold_monad. cbn [fs].
    cbn [FS_LOCATION_text app].
    assert (Hfd : existsSync ["undefined"; id] (fs w) = false).
    { destruct (existsSync ["undefined"; id] (fs w)) eqn:E; [|reflexivity].
      apply exists_listed in E as [k Hin]; [|discriminate].
      apply Hok in Hin. cbn in Hin. unfold isDirectory in Hin.
      unfold existsSync in Hun.
      destruct (statSync ["undefined"] (fs w)); discriminate. }
    rewrite Hfd. cbn. rewrite Hfd. cbn.
    assert (Hparent : isDirectory ["undefined"] (fs w) = false).
    { unfold isDirectory. unfold existsSync in Hun.
      now destruct (statSync ["undefined"] (fs w)). }
    now rewrite Hparent. }
  now rewrite Hstep.
Qed.

Lemma Sample_fs_one_segment_ok : FS_ok Sample.fs_one_segment.
Proof.
  intros p k Hin. cbn in Hin.
  repeat destruct Hin as [[= <- <-]|Hin]; try reflexivity. contradiction.
Qed.

Lemma storeClips_without_FS_LOCATION_witness :
  let w := Sample.world Sample.db1 Sample.fs_one_segment in
  FS_ok (fs w)
  /\ existsSync ["undefined"] (fs w) = false
  /\ fst (getDirectories ["clips"] w) = Ok [["clips"; "seg0"]]
  /\ storeClips None "c0" w
     = (Threw (FsError "ENOENT" ["undefined"; "c0"]),
        mkWorld (prisma w) (fs w) 2 (calls w)).
Proof.
  intros w.
  assert (H1 : FS_ok (fs w)) by exact Sample_fs_one_segment_ok.
  assert (H2 : existsSync ["undefined"] (fs w) = false) by reflexivity.
  assert (H3 : fst (getDirectories ["clips"] w) = Ok [["clips"; "seg0"]])
    by reflexivity.
  repeat (split; [assumption|]).
  exact (@storeClips_without_FS_LOCATION "c0" w ["clips"; "seg0"] [] H1 H2 H3).
Defined.

(* ----------------------------------------------------------------- *)
(** *** The REST handlers *)

Lemma createFootage_started remote id url ty w r w' :
  createFootage remote id url ty w = (r, w') ->
  (forall pe, r <> Threw (PrismaClientError pe))
  /\ (forall g, r <> Ok g)
  \/ let job := cuid_of (cuids w) in
     let video := (job ++ ".mp4")%string in
     exists w1 d,
       footage_.create d w1 = (r, w')
       /\ d = footage_.mkCreateData id url (footage_.c_videoFormat d) ty
       /\ prisma w1 = prisma w
       /\ cuids w1 = S (cuids w)
       /\ calls w1
          = calls w ++ [GetInfo url; Download url [video];
                        Spawn "python3" ["autoClip.py"; video; "clips"; "1"]]
       /\ existsSync [video] (fs w1) = true
       /\ existsSync ["clips"] (fs w1) = true.
Proof.
  intros H. unfold createFootage, ytdl.getInfo, download in H.
  unfold bind at 1, get_prisma in H.
  destruct (footage_.findUnique_youtubeUrl url (prisma w));
    [injection H as <- <-; left; split; intros; discriminate|].
  unfold bind at 1 2, log in H.
  destruct (remote url) as [details|];
    [|injection H as <- <-; left; split; intros; discriminate].
  cbn [ret] in H.
  destruct (negb _ && negb _);
    [injection H as <- <-; left; split; intros; discriminate|].
  unfold bind at 1, cuid in H. cbn [prisma fs cuids calls] in H.
  unfold bind at 1 2 3, log, get_fs in H. cbn [prisma fs cuids calls] in H.
  set (video := (cuid_of (cuids w) ++ ".mp4")%string) in *.
  destruct (statSync [video] (fs w)) as [[|]|] eqn:Ev;
    unfold ret, throw, put_fs, set_fs in H;
    cbn [prisma fs cuids calls] in H.
  - (* the file is already there *)
    unfold bind at 1 in H.
    match type of H with
    | context [parseClips ?u ?v ?x] =>
        destruct (parseClips_run u v x)
          as (w1 & Hp & Hclips & Hcalls & Hprisma & Hcuids & Hkeep & _);
        rewrite Hp in H
    end.
    right. exists w1. eexists. split; [exact H|].
    cbn [prisma fs cuids calls footage_.c_videoFormat] in *.
    split; [reflexivity|]. split; [exact Hprisma|]. split; [exact Hcuids|].
    split; [now rewrite Hcalls, <- !app_assoc|].
    split; [|exact Hclips]. apply Hkeep. unfold existsSync. subst video. now rewrite Ev.
  - injection H as <- <-. left. split; intros; discriminate.
  - unfold bind at 1 in H.
    match type of H with
    | context [parseClips ?u ?v ?x] =>
        destruct (parseClips_run u v x)
          as (w1 & Hp & Hclips & Hcalls & Hprisma & Hcuids & Hkeep & _);
        rewrite Hp in H
    end.
    right. exists w1. eexists. split; [exact H|].
    cbn [prisma fs cuids calls footage_.c_videoFormat] in *.
    split; [reflexivity|]. split; [exact Hprisma|]. split; [exact Hcuids|].
    split; [now rewrite Hcalls, <- !app_assoc|].
    split; [|exact Hclips]. apply Hkeep.
    apply (@existsSync_app_new [video] (fs w) File); [discriminate|].
    unfold existsSync. subst video. now rewrite Ev.
Qed.

Lemma footage_create_outcome d w r w' :
  footage_.create d w = (r, w') ->
  fs w' = fs w /\ calls w' = calls w
  /\ ((exists e, r = Threw e) /\ prisma w' = prisma w
      \/ exists fmt,
           footage_.c_videoFormat d = Some fmt
           /\ r = Ok (Footage.mk (cuid_of (cuids w)) (footage_.c_userId d)
                                 (footage_.c_youtubeUrl d) fmt
                                 (footage_.c_footageType d) false false)
           /\ footage (prisma w')
              = footage (prisma w)
                ++ [Footage.mk (cuid_of (cuids w)) (footage_.c_userId d)
                               (footage_.c_youtubeUrl d) fmt
                               (footage_.c_footageType d) false false]
           /\ cuids w' = S (cuids w)).
Proof.
  rewrite footage_create_run.
  destruct (footage_.c_videoFormat d) as [fmt|];
    [|intros [= <- <-]; eauto 10].
  cbv zeta. destruct (_ || _); [intros [= <- <-]; cbn; eauto 10|].
  destruct (negb _); [intros [= <- <-]; cbn; eauto 10|].
  intros [= <- <-]. cbn -[cuid_of]. split; [reflexivity|].
  split; [reflexivity|]. right. exists fmt. auto.
Qed.

(** X20. When [createFootage] succeeds, it has fetched the metadata,
    started the download into [job.mp4] and started the analyzer on that
    file, in this order, [job] being an identifier drawn for the job; the
    record it returns is stored last, belongs to the user given, carries the
    url and the category given, and has an id of its own, drawn after and
    different from [job]. *)
Theorem createFootage_job_and_record :
  forall (remote : string -> option ytdl.videoInfo) (id url : string)
         (ty : GameplayType) (w w' : World) (g : Footage.t),
    createFootage remote id url ty w = (Ok g, w') ->
    let job := cuid_of (cuids w) in
    let video := (job ++ ".mp4")%string in
    Footage.id g = cuid_of (S (cuids w))
    /\ Footage.id g <> job
    /\ Footage.userId g = id
    /\ Footage.youtubeUrl g = url
    /\ Footage.footageType g = ty
    /\ footage (prisma w') = footage (prisma w) ++ [g]
    /\ calls w'
       = calls w ++ [GetInfo url; Download url [video];
                     Spawn "python3" ["autoClip.py"; video; "clips"; "1"]]
    /\ existsSync [video] (fs w') = true
    /\ existsSync ["clips"] (fs w') = true.
Proof.
  intros remote id url ty w w' g H job video.
  destruct (createFootage_started _ _ _ _ _ H)
    as [[_ Hno]|(w1 & d & Hc & Hd & Hprisma & Hcuids & Hcalls & Hv & Hk)];
    [now elim (Hno g)|].
  destruct (footage_create_outcome _ _ Hc)
    as (Hfs & Hcalls' & [[[e He] _]|(fmt & Hfmt & Hg & Hft & _)]);
    [discriminate|].
  injection Hg as ->. rewrite Hd in *. cbn -[cuid_of] in *.
  rewrite Hcuids, Hprisma in *. rewrite Hfs, Hcalls'.
  repeat match goal with |- _ /\ _ => split end; auto.
  intros E. apply cuid_of_inj in E. lia.
Qed.

Lemma createFootage_job_and_record_witness :
  let w := Sample.world Sample.db_empty [] in
  let r := createFootage Sample.site "u1" Sample.url_a VAL w in
  let g := Footage.mk "c2" "u1" Sample.url_a 299 VAL false false in
  r = (Ok g, snd r)
  /\ Footage.id g <> "c1"
  /\ calls (snd r)
     = [GetInfo Sample.url_a; Download Sample.url_a ["c1.mp4"];
        Spawn "python3" ["autoClip.py"; "c1.mp4"; "clips"; "1"]].
Proof.
  intros w r g.
  assert (H : r = (Ok g, snd r)) by reflexivity.
  split; [exact H|].
  destruct (@createFootage_job_and_record Sample.site "u1" Sample.url_a VAL
              w (snd r) g H) as (_ & Hid & _ & _ & _ & _ & Hcalls & _).
  split; [exact Hid | exact Hcalls].
Defined.

(** X21. When it is the database that refuses the record of
    [createFootage] (an unknown user, a clash of ids), the download and the
    analyzer have already been started and are not undone: both calls are
    in the log, the video file and the working directory exist, and no
    record is stored. *)
Theorem createFootage_starts_the_job_before_storing :
  forall (remote : string -> option ytdl.videoInfo) (id url : string)
         (ty : GameplayType) (w w' : World) (pe : PrismaError),
    createFootage remote id url ty w = (Threw (PrismaClientError pe), w') ->
    let video := (cuid_of (cuids w) ++ ".mp4")%string in
    prisma w' = prisma w
    /\ calls w'
       = calls w ++ [GetInfo url; Download url [video];
                     Spawn "python3" ["autoClip.py"; video; "clips"; "1"]]
    /\ existsSync [video] (fs w') = true
    /\ existsSync ["clips"] (fs w') = true.
Proof.
  intros remote id url ty w w' pe H video.
  destruct (createFootage_started _ _ _ _ _ H)
    as [[Hno _]|(w1 & d & Hc & Hd & Hprisma & Hcuids & Hcalls & Hv & Hk)];
    [now elim (Hno pe)|].
  destruct (footage_create_outcome _ _ Hc)
    as (Hfs & Hcalls' & [[_ Hp]|(fmt & _ & Hg & _)]); [|discriminate].
  rewrite Hfs, Hcalls', Hp. auto.
Qed.

Lemma createFootage_starts_the_job_before_storing_witness :
  let w := Sample.world Sample.db_empty [] in
  let r := createFootage Sample.site "nobody" Sample.url_a VAL w in
  r = (Threw (PrismaClientError ForeignKeyConstraintFailed), snd r)
  /\ prisma (snd r) = prisma w
  /\ existsSync ["c1.mp4"] (fs (snd r)) = true.
Proof.
  intros w r.
  assert (H : r = (Threw (PrismaClientError ForeignKeyConstraintFailed),
                   snd r)) by reflexivity.
  split; [exact H|].
  destruct (@createFootage_starts_the_job_before_storing Sample.site
              "nobody" Sample.url_a VAL w (snd r) _ H) as (Hp & _ & Hv & _).
  split; [exact Hp | exact Hv].
Defined.

(* ----------------------------------------------------------------- *)
(** *** What every handler keeps *)

Section Preserved.

Variable P : Prisma -> Prop.

Hypothesis create_preserves : forall d, preserves P (footage_.create d).
Hypothesis update_preserves :
  forall gid b ty, preserves P (footage_.update gid b ty).
Hypothesis delete_preserves : forall gid, preserves P (footage_.delete gid).
Hypothesis vote_preserves :
  forall gid isGame game uid,
    preserves P (footageVotes_.create gid isGame game uid).

Lemma preserves_keeps {A} (m : M A) : keeps_prisma m -> preserves P m.
Proof. intros H w Hw. now rewrite H. Qed.

Lemma preserves_bind {A B} (m : M A) (k : A -> M B) :
  preserves P m -> (forall a, preserves P (k a)) -> preserves P (bind m k).
Proof.
  intros Hm Hk w Hw. unfold bind. specialize (Hm w Hw).
  destruct (m w) as [[a|e] w1]; cbn in *; [|exact Hm].
  now apply Hk.
Qed.

Lemma preserves_try_catch {A} (m : M A) (h : Exn -> M A) :
  preserves P m -> (forall e, preserves P (h e)) ->
  preserves P (try_catch m h).
Proof.
  intros Hm Hh w Hw. unfold try_catch. specialize (Hm w Hw).
  destruct (m w) as [[a|e] w1]; cbn in *; [exact Hm|].
  now apply Hh.
Qed.

(** What the four writes of the database client keep, every procedure of
    the router, every REST handler and the clip collection keep. *)
Lemma handlers_preserve hasPerms remote (s : Session.t) :
  (forall url ty,
      preserves P (gameplayRouter.create hasPerms remote s url ty))
  /\ (forall gid ty b,
        preserves P (gameplayRouter.update hasPerms s gid ty b))
  /\ (forall gid, preserves P (gameplayRouter.delete hasPerms s gid))
  /\ (forall gid isGame game,
        preserves P (gameplayRouter.review s gid isGame game))
  /\ (forall id url ty, preserves P (createFootage remote id url ty))
  /\ (forall id b ty p, preserves P (updateFootage id b ty p))
  /\ (forall id, preserves P (deleteFootage id))
  /\ (forall loc uuid video,
        preserves P (parseClips_on_exit loc uuid video)).
Proof.
  assert (Hret : forall A (a : A), preserves P (ret a))
    by (intros; apply preserves_keeps, keeps_prisma_ret).
  assert (Hthrow : forall A e, preserves P (@throw A e))
    by (intros; apply preserves_keeps, keeps_prisma_throw).
  assert (Hinfo : forall url, preserves P (ytdl.getInfo remote url)).
  { intros url. apply preserves_keeps. unfold ytdl.getInfo. keeps_step. }
  assert (Hfind : forall gid,
             preserves P (footage_.findUniqueOrThrow_id gid)).
  { intros gid w Hw. unfold footage_.findUniqueOrThrow_id; unfold_monad.
    cbn. destruct (footage_.findUnique_id gid (prisma w)); exact Hw. }
  assert (Hget : preserves P get_prisma) by (intros w Hw; exact Hw).
  repeat match goal with |- _ /\ _ => split end.
  - intros url ty. unfold gameplayRouter.create.
    destruct (negb _); [apply Hthrow|].
    apply preserves_bind; [exact Hget|intros db].
    destruct (footage_.findUnique_youtubeUrl url db); [apply Hthrow|].
    apply preserves_bind; [apply Hinfo|intros details].
    destruct (_ && _); [apply Hthrow|apply create_preserves].
  - intros gid ty b. unfold gameplayRouter.update.
    apply preserves_try_catch; [|intros; apply Hthrow].
    apply preserves_bind; [apply Hfind|intros g].
    destruct (negb _); [apply Hthrow|apply update_preserves].
  - intros gid. unfold gameplayRouter.delete.
    apply preserves_try_catch; [|intros; apply Hthrow].
    apply preserves_bind; [apply Hfind|intros g].
    destruct (negb _); [apply Hthrow|].
    apply preserves_bind; [apply delete_preserves|intros; apply Hret].
  - intros gid isGame game. unfold gameplayRouter.review.
    destruct (String.eqb _ _); [apply Hret|].
    apply preserves_bind; [apply vote_preserves|intros v].
    destruct (gameplayRouter.is_falsy v); [apply Hthrow|apply Hret].
  - intros id url ty. unfold createFootage.
    apply preserves_bind; [exact Hget|intros db].
    destruct (footage_.findUnique_youtubeUrl url db); [apply Hthrow|].
    apply preserves_bind; [apply Hinfo|intros details].
    destruct (_ && _); [apply Hthrow|].
    apply preserves_bind;
      [apply preserves_keeps, keeps_prisma_cuid|intros footageId].
    apply preserves_bind.
    { apply preserves_keeps. unfold download. keeps_step. }
    intros _. apply preserves_bind.
    { apply preserves_keeps. unfold parseClips. keeps_step. }
    intros _. apply create_preserves.
  - intros id b ty p. unfold updateFootage.
    apply preserves_try_catch; [apply update_preserves|].
    intros; apply Hthrow.
  - intros id. unfold deleteFootage.
    apply preserves_bind; [|intros; apply Hret].
    apply preserves_try_catch; [|intros; apply Hthrow].
    apply preserves_bind; [apply delete_preserves|intros; apply Hret].
  - intros loc uuid video.
    apply preserves_keeps, keeps_prisma_parseClips_on_exit.
Qed.

End Preserved.

Lemma references_footage_create d :
  preserves References_ok (footage_.create d).
Proof.
  intros w [Hvf Hvu Hcf].
  destruct (footage_.create d w) as [r w'] eqn:Hc.
  destruct (footage_create_outcome _ _ Hc)
    as (_ & _ & [[_ Hp]|(fmt & _ & _ & Hft & _)]); cbn.
  - rewrite Hp. now split.
  - assert (Hrest : clip (prisma w') = clip (prisma w)
                    /\ footageVotes (prisma w') = footageVotes (prisma w)
                    /\ user (prisma w') = user (prisma w)).
    { rewrite footage_create_run in Hc.
      destruct (footage_.c_videoFormat d); [|now injection Hc as <- <-].
      cbv zeta in Hc. destruct (_ || _); [now injection Hc as <- <-|].
      destruct (negb _); now injection Hc as <- <-. }
    destruct Hrest as (Hcl & Hvo & Hus).
    split; rewrite ?Hcl, ?Hvo, ?Hus, ?Hft; intros x Hx.
    + destruct (Hvf x Hx) as (g & Hg & E). exists g.
      split; [apply in_or_app; now left|exact E].
    + now apply Hvu.
    + destruct (Hcf x Hx) as (g & Hg & E). exists g.
      split; [apply in_or_app; now left|exact E].
Qed.

Lemma references_footage_update gid b ty :
  preserves References_ok (footage_.update gid b ty).
Proof.
  intros w [Hvf Hvu Hcf]. rewrite footage_update_run.
  destruct (footage_.findUnique_id gid (prisma w)) as [g0|] eqn:Hg0;
    [|now split].
  apply find_some in Hg0 as [_ Eg0]. apply String.eqb_eq in Eg0.
  cbv zeta. cbn [snd set_prisma prisma footage clip footageVotes user].
  set (g' := Footage.mk _ _ _ _ _ _ _).
  assert (Hkeep : forall g, In g (footage (prisma w)) ->
            exists g1,
              In g1 (map (fun x => if String.eqb (Footage.id x) gid
                                   then g' else x) (footage (prisma w)))
              /\ Footage.id g1 = Footage.id g).
  { intros g Hg. eexists. split; [apply in_map; exact Hg|].
    cbn. destruct (String.eqb_spec (Footage.id g) gid) as [E|E];
      [|reflexivity].
    subst g'. cbn. congruence. }
  split; cbn; intros x Hx.
  - destruct (Hvf x Hx) as (g & Hg & E).
    destruct (Hkeep g Hg) as (g1 & Hg1 & E1). exists g1. split; congruence.
  - now apply Hvu.
  - destruct (Hcf x Hx) as (g & Hg & E).
    destruct (Hkeep g Hg) as (g1 & Hg1 & E1). exists g1. split; congruence.
Qed.

Lemma references_footage_delete gid :
  preserves References_ok (footage_.delete gid).
Proof.
  intros w Hok.
  destruct (footage_delete_cases gid w)
    as [[e ->]|(g & clips' & votes' & _ & Hc & Hv & ->)]; [exact Hok|].
  destruct Hok as [Hvf Hvu Hcf].
  assert (Hleft : forall g1 k, In g1 (footage (prisma w)) ->
            Footage.id g1 = k -> String.eqb k gid = false ->
            exists g2,
              In g2 (filter (fun x => negb (String.eqb (Footage.id x) gid))
                            (footage (prisma w)))
              /\ Footage.id g2 = k).
  { intros g1 k Hg1 E Hk. exists g1. split; [|exact E].
    apply filter_In. split; [exact Hg1|]. now rewrite E, Hk. }
  assert (Hvin : forall v, In v votes' -> In v (footageVotes (prisma w))).
  { cbn in Hv. injection Hv as <-. intros v Hin.
    now apply filter_In in Hin as [Hin _]. }
  assert (Hcin : forall c, In c clips' -> In c (clip (prisma w))).
  { cbn in Hc. destruct (existsb _ _); [discriminate|].
    now injection Hc as <-. }
  split; cbn; intros x Hx.
  - destruct (Hvf x (Hvin x Hx)) as (g1 & Hg1 & E).
    apply (Hleft g1 _ Hg1 E).
    exact (onDelete_no_reference _ _ _ Hv x Hx).
  - apply Hvu, Hvin, Hx.
  - destruct (Hcf x (Hcin x Hx)) as (g1 & Hg1 & E).
    apply (Hleft g1 _ Hg1 E).
    exact (onDelete_no_reference _ _ _ Hc x Hx).
Qed.

Lemma references_votes_create gid isGame game uid :
  preserves References_ok (footageVotes_.create gid isGame game uid).
Proof.
  intros w Hok. rewrite votes_create_run. cbv zeta.
  destruct (existsb _ (footageVotes (prisma w))); [exact Hok|].
  destruct (existsb _ (footage (prisma w))) eqn:Eg; [|exact Hok].
  destruct (existsb _ (user (prisma w))) eqn:Eu; [|exact Hok].
  destruct Hok as [Hvf Hvu Hcf].
  apply existsb_exists in Eg as (g & Hg & Eg). apply String.eqb_eq in Eg.
  apply existsb_exists in Eu as (u & Hu & Eu). apply String.eqb_eq in Eu.
  split; cbn -[cuid_of]; intros x Hx.
  - apply in_app_or in Hx as [Hx|[<-|[]]]; [now apply Hvf|]. cbn. eauto.
  - apply in_app_or in Hx as [Hx|[<-|[]]]; [now apply Hvu|]. cbn. eauto.
  - now apply Hcf.
Qed.

Lemma Sample_db_voted_ok : Database_ok Sample.db_voted.
Proof.
  split; [destruct Sample_db1_ok as [Hid Hurl Hfk]; split; assumption|].
  split; cbn.
  - intros v [<-|[]]. exists Sample.f1. split; [now left|reflexivity].
  - intros v [<-|[]]. exists Sample.bob.
    split; [right; now left|reflexivity].
  - intros c [].
Qed.

(** X22. Consistency is kept. From a database that meets the schema's
    constraints (submission ids and urls unique, every submission owned by
    a stored user) and has no dangling reference (every vote names a stored
    submission and a stored user, every clip a stored submission), each
    writing procedure of the router, each writing REST handler and the exit
    handler of the clip collection leaves such a database, whether it
    returns or throws, for every permission engine and every caller. *)
Theorem consistency_is_kept :
  forall (hasPerms : HasPermsInput.t -> bool)
         (remote : string -> option ytdl.videoInfo)
         (s : Session.t) (w : World),
    Database_ok (prisma w) ->
    (forall url ty,
        Database_ok
          (prisma (snd (gameplayRouter.create hasPerms remote s url ty w))))
    /\ (forall gid ty b,
          Database_ok
            (prisma (snd (gameplayRouter.update hasPerms s gid ty b w))))
    /\ (forall gid,
          Database_ok (prisma (snd (gameplayRouter.delete hasPerms s gid w))))
    /\ (forall gid isGame game,
          Database_ok
            (prisma (snd (gameplayRouter.review s gid isGame game w))))
    /\ (forall id url ty,
          Database_ok (prisma (snd (createFootage remote id url ty w))))
    /\ (forall id b ty p,
          Database_ok (prisma (snd (updateFootage id b ty p w))))
    /\ (forall id, Database_ok (prisma (snd (deleteFootage id w))))
    /\ (forall loc uuid video,
          Database_ok (prisma (snd (parseClips_on_exit loc uuid video w)))).
Proof.
  intros hasPerms remote s w Hw.
  assert (Hboth : forall A (m : M A),
             preserves Prisma_ok m -> preserves References_ok m ->
             preserves Database_ok m).
  { intros A m H1 H2 w0 [Ha Hb]. split; [now apply H1|now apply H2]. }
  destruct (@handlers_preserve Database_ok
              (fun d => Hboth _ _ (@keeps_ok_footage_create d)
                                  (@references_footage_create d))
              (fun gid b ty => Hboth _ _ (keeps_ok_footage_update gid b ty)
                                         (references_footage_update gid b ty))
              (fun gid => Hboth _ _ (keeps_ok_footage_delete gid)
                                    (references_footage_delete gid))
              (fun gid isGame game uid =>
                 Hboth _ _ (keeps_ok_votes_create gid isGame game uid)
                           (references_votes_create gid isGame game uid))
              hasPerms remote s)
    as (H1 & H2 & H3 & H4 & H5 & H6 & H7 & H8).
  repeat match goal with |- _ /\ _ => split end; intros.
  - now apply H1.
  - now apply H2.
  - now apply H3.
  - now apply H4.
  - now apply H5.
  - now apply H6.
  - now apply H7.
  - now apply H8.
Qed.

Lemma consistency_is_kept_witness :
  let w := Sample.world Sample.db_voted [] in
  Database_ok (prisma w)
  /\ Database_ok
       (prisma (snd (gameplayRouter.delete (hasPerms_spec true)
                       (Sample.session_of Sample.alice) "f1" w)))
  /\ Database_ok
       (prisma (snd (gameplayRouter.review (Sample.session_of Sample.bob)
                       "f1" true VAL w))).
Proof.
  intros w.
  destruct (@consistency_is_kept (hasPerms_spec true) Sample.site
              (Sample.session_of Sample.alice) w Sample_db_voted_ok)
    as (_ & _ & Hd & _).
  destruct (@consistency_is_kept (hasPerms_spec true) Sample.site
              (Sample.session_of Sample.bob) w Sample_db_voted_ok)
    as (_ & _ & _ & Hr & _).
  split; [exact Sample_db_voted_ok|].
  split; [exact (Hd "f1") | exact (Hr "f1" true VAL)].
Defined.

Lemma clips_kept_by_writes (l : list Clip.t) :
  (forall d, preserves (fun db => clip db = l) (footage_.create d))
  /\ (forall gid b ty,
        preserves (fun db => clip db = l) (footage_.update gid b ty))
  /\ (forall gid, preserves (fun db => clip db = l) (footage_.delete gid))
  /\ (forall gid isGame game uid,
        preserves (fun db => clip db = l)
                  (footageVotes_.create gid isGame game uid)).
Proof.
  repeat match goal with |- _ /\ _ => split end.
  - intros d w Hw. rewrite footage_create_run.
    destruct (footage_.c_videoFormat d); [|exact Hw].
    cbv zeta. destruct (_ || _); [exact Hw|].
    destruct (negb _); exact Hw.
  - intros gid b ty w Hw. rewrite footage_update_run.
    destruct (footage_.findUnique_id gid (prisma w)); exact Hw.
  - intros gid w Hw.
    destruct (footage_delete_cases gid w)
      as [[e ->]|(g & clips' & votes' & _ & Hc & _ & ->)]; [exact Hw|].
    cbn in *. destruct (existsb _ _); [discriminate|]. congruence.
  - intros gid isGame game uid w Hw. rewrite votes_create_run. cbv zeta.
    destruct (existsb _ _); [exact Hw|].
    destruct (_ || _); exact Hw.
Qed.

(** X23. No procedure writes a clip. Whatever the caller, the permission
    engine and the outcome, the clip table after [create], [update],
    [delete], [review], [createFootage], [updateFootage], [deleteFootage]
    and the exit handler of the clip collection is the clip table before:
    no clip is ever stored, and none is removed, not even by deleting the
    submission it belongs to. *)
Theorem clip_table_is_never_written :
  forall (hasPerms : HasPermsInput.t -> bool)
         (remote : string -> option ytdl.videoInfo)
         (s : Session.t) (w : World),
    (forall url ty,
        clip (prisma (snd (gameplayRouter.create hasPerms remote s url ty w)))
        = clip (prisma w))
    /\ (forall gid ty b,
          clip (prisma (snd (gameplayRouter.update hasPerms s gid ty b w)))
          = clip (prisma w))
    /\ (forall gid,
          clip (prisma (snd (gameplayRouter.delete hasPerms s gid w)))
          = clip (prisma w))
    /\ (forall gid isGame game,
          clip (prisma (snd (gameplayRouter.review s gid isGame game w)))
          = clip (prisma w))
    /\ (forall id url ty,
          clip (prisma (snd (createFootage remote id url ty w)))
          = clip (prisma w))
    /\ (forall id b ty p,
          clip (prisma (snd (updateFootage id b ty p w))) = clip (prisma w))
    /\ (forall id,
          clip (prisma (snd (deleteFootage id w))) = clip (prisma w))
    /\ (forall loc uuid video,
          clip (prisma (snd (parseClips_on_exit loc uuid video w)))
          = clip (prisma w)).
Proof.
  intros hasPerms remote s w.
  destruct (clips_kept_by_writes (clip (prisma w))) as (Hc & Hu & Hd & Hv).
  destruct (@handlers_preserve (fun db => clip db = clip (prisma w))
              Hc Hu Hd Hv hasPerms remote s)
    as (H1 & H2 & H3 & H4 & H5 & H6 & H7 & H8).
  repeat match goal with |- _ /\ _ => split end; intros.
  - now apply H1.
  - now apply H2.
  - now apply H3.
  - now apply H4.
  - now apply H5.
  - now apply H6.
  - now apply H7.
  - now apply H8.
Qed.

(* ----------------------------------------------------------------- *)
(** *** The REST handlers that read *)

Lemma find_key_present {Row} (key : Row -> string) (k : string)
    (rows : list Row) (r : Row) (Hin : In r rows) (Hkey : key r = k) :
  exists r', find (fun x => String.eqb (key x) k) rows = Some r'.
Proof.
  destruct (find _ rows) as [r'|] eqn:E; [eauto|].
  apply (find_none _ _ E) in Hin. cbn in Hin.
  rewrite Hkey, String.eqb_refl in Hin. discriminate.
Qed.

(** X24. [getFootageClips] reads and changes nothing. An answer is never
    empty and lists the ids of exactly the clips that reference the
    submission, in table order. Every failure is the same 404, whether the
    submission is missing or merely has no clip. In a database without
    dangling references the submission lookup decides nothing: the call
    succeeds exactly when some clip references the id. *)
Theorem getFootageClips_answers :
  forall (id : string) (w : World),
    let clips :=
      filter (fun c => String.eqb (Clip.footageId c) id) (clip (prisma w)) in
    snd (getFootageClips id w) = w
    /\ (forall ids, fst (getFootageClips id w) = Ok ids ->
          ids = map Clip.id clips /\ ids <> []
          /\ is_some (footage_.findUnique_id id (prisma w)) = true)
    /\ (forall e, fst (getFootageClips id w) = Threw e ->
          e = HttpError 404 "No clips found with the provided footage ID."
          /\ (footage_.findUnique_id id (prisma w) = None \/ clips = []))
    /\ (References_ok (prisma w) ->
        (succeeds (getFootageClips id w)
         <-> exists c, In c (clip (prisma w)) /\ Clip.footageId c = id)).
Proof.
  intros id w clips. unfold getFootageClips; unfold_monad.
  destruct (footage_.findUnique_id id (prisma w)) as [g|] eqn:Hg; cbn.
  - fold clips. destruct clips as [|c l] eqn:Ecl; cbn.
    + split; [reflexivity|]. split; [discriminate|].
      split; [intros e [= <-]; auto|].
      intros _. split; [intros [a Ha]; discriminate|].
      intros (c & Hc & E). exfalso.
      assert (Hin : In c clips)
        by (apply filter_In; split; [exact Hc|now apply String.eqb_eq]).
      rewrite Ecl in Hin. exact Hin.
    + split; [reflexivity|]. split; [intros ids [= <-]; now repeat split|].
      split; [discriminate|].
      intros _. split; [|intros _; eexists; reflexivity].
      intros _. exists c.
      assert (Hin : In c clips) by (rewrite Ecl; now left).
      apply filter_In in Hin as [Hin E]. now apply String.eqb_eq in E.
  - split; [reflexivity|]. split; [discriminate|].
    split; [intros e [= <-]; auto|].
    intros Hok. split; [intros [a Ha]; discriminate|].
    intros (c & Hc & E). exfalso.
    destruct (clip_footage_fk Hok c Hc) as (g & Hin & Eg).
    destruct (@find_key_present _ Footage.id id (footage (prisma w)) g Hin)
      as [g' Hg']; [congruence|].
    unfold footage_.findUnique_id in Hg. congruence.
Qed.

Lemma Sample_db_clipped_references : References_ok Sample.db_clipped.
Proof.
  split; cbn.
  - intros v [<-|[]]. exists Sample.f1. split; [now left|reflexivity].
  - intros v [<-|[]]. exists Sample.bob.
    split; [right; now left|reflexivity].
  - intros c [<-|[]]. exists Sample.f1. split; [now left|reflexivity].
Qed.

Lemma getFootageClips_answers_witness :
  let w := Sample.world Sample.db_clipped [] in
  References_ok (prisma w)
  /\ fst (getFootageClips "f1" w) = Ok ["k1"]
  /\ (succeeds (getFootageClips "f1" w)
      <-> exists c, In c (clip (prisma w)) /\ Clip.footageId c = "f1").
Proof.
  intros w. split; [exact Sample_db_clipped_references|].
  split; [reflexivity|].
  destruct (getFootageClips_answers "f1" w) as (_ & _ & _ & H).
  exact (H Sample_db_clipped_references).
Defined.

(** X25. [getUserFootage] reads and changes nothing. An answer is never
    empty and lists the ids of exactly the submissions of the user, in
    table order. Every failure is the same 404, whether the user is unknown
    or merely has submitted nothing. In a database that meets the schema's
    constraints the call succeeds exactly when some submission belongs to
    the id. *)
Theorem getUserFootage_answers :
  forall (id : string) (w : World),
    let own :=
      filter (fun g => String.eqb (Footage.userId g) id)
             (footage (prisma w)) in
    snd (getUserFootage id w) = w
    /\ (forall ids, fst (getUserFootage id w) = Ok ids ->
          ids = map Footage.id own /\ ids <> []
          /\ exists u, In u (user (prisma w)) /\ User.id u = id)
    /\ (forall e, fst (getUserFootage id w) = Threw e ->
          e = HttpError 404 "No footage found with the provided User ID."
          /\ ((forall u, In u (user (prisma w)) -> User.id u <> id)
              \/ own = []))
    /\ (Prisma_ok (prisma w) ->
        (succeeds (getUserFootage id w)
         <-> exists g, In g (footage (prisma w)) /\ Footage.userId g = id)).
Proof.
  intros id w own. unfold getUserFootage, user_.findUnique_include_footage.
  unfold_monad.
  destruct (find (fun u => String.eqb (User.id u) id) (user (prisma w)))
    as [u|] eqn:Hu; cbn.
  - fold own. apply find_some in Hu as [Hu Eu]. apply String.eqb_eq in Eu.
    destruct own as [|g l] eqn:Eown; cbn.
    + split; [reflexivity|]. split; [discriminate|].
      split; [intros e [= <-]; auto|].
      intros _. split; [intros [a Ha]; discriminate|].
      intros (g & Hg & E). exfalso.
      assert (Hin : In g own)
        by (apply filter_In; split; [exact Hg|now apply String.eqb_eq]).
      rewrite Eown in Hin. exact Hin.
    + split; [reflexivity|].
      split; [intros ids [= <-]; repeat split; [discriminate|eauto]|].
      split; [discriminate|].
      intros _. split; [|intros _; eexists; reflexivity].
      intros _. exists g.
      assert (Hin : In g own) by (rewrite Eown; now left).
      apply filter_In in Hin as [Hin E]. now apply String.eqb_eq in E.
  - split; [reflexivity|]. split; [discriminate|].
    split.
    { intros e [= <-]. split; [reflexivity|]. left. intros u Hin E.
      apply (find_none _ _ Hu) in Hin. cbn in Hin.
      rewrite E, String.eqb_refl in Hin. discriminate. }
    intros Hok. split; [intros [a Ha]; discriminate|].
    intros (g & Hg & E). exfalso.
    destruct (footage_user_fk Hok g Hg) as (u & Hin & Eg).
    destruct (@find_key_present _ User.id id (user (prisma w)) u Hin)
      as [u' Hu']; [congruence|].
    congruence.
Qed.

Lemma getUserFootage_answers_witness :
  let w := Sample.world Sample.db1 [] in
  Prisma_ok (prisma w)
  /\ fst (getUserFootage "u1" w) = Ok ["f1"]
  /\ fst (getUserFootage "u2" w)
     = Threw (HttpError 404 "No footage found with the provided User ID.")
  /\ (succeeds (getUserFootage "u2" w)
      <-> exists g, In g (footage (prisma w)) /\ Footage.userId g = "u2").
Proof.
  intros w. split; [exact Sample_db1_ok|].
  split; [reflexivity|]. split; [reflexivity|].
  destruct (getUserFootage_answers "u2" w) as (_ & _ & _ & H).
  exact (H Sample_db1_ok).
Defined.

(* ----------------------------------------------------------------- *)
(** *** The REST handlers that write *)

(** X26. [updateFootage] asks no permission and ignores the [isParsed]
    it is sent. On a stored submission it succeeds: the answer is the
    stored submission with the category and the [isAnalyzed] flag sent, its
    [isParsed] flag as stored, and a [getFootage] of the same id right
    after answers with the same document. On a missing submission it
    answers 500, not 404, and the world is what it was. *)
Theorem updateFootage_then_getFootage :
  forall (id : string) (isAnalyzed : bool) (ty : GameplayType)
         (isParsed : bool) (w : World),
    updateFootage id isAnalyzed ty isParsed w
    = updateFootage id isAnalyzed ty (negb isParsed) w
    /\ (footage_.findUnique_id id (prisma w) = None ->
        updateFootage id isAnalyzed ty isParsed w
        = (Threw processing_error, w))
    /\ (forall g, footage_.findUnique_id id (prisma w) = Some g ->
        exists w',
          let g' := Footage.mk (Footage.id g) (Footage.userId g)
                               (Footage.youtubeUrl g) (Footage.videoFormat g)
                               ty isAnalyzed (Footage.isParsed g) in
          updateFootage id isAnalyzed ty isParsed w = (Ok g', w')
          /\ getFootage id w' = (Ok g', w')
          /\ fs w' = fs w /\ cuids w' = cuids w /\ calls w' = calls w).
Proof.
  intros id b ty p w. split; [reflexivity|].
  unfold updateFootage, try_catch. rewrite footage_update_run.
  split; [now intros ->|].
  intros g Hg. rewrite Hg. cbv zeta. eexists. split; [reflexivity|].
  split; [|now repeat split].
  unfold getFootage; unfold_monad. cbn.
  unfold footage_.findUnique_id in *. cbn.
  rewrite (find_replaced _ _ Hg); [reflexivity|].
  cbn. apply find_some in Hg as [_ E]. now apply String.eqb_eq in E.
Qed.

Lemma updateFootage_then_getFootage_witness :
  let w := Sample.world Sample.db1 [] in
  let g' := Footage.mk "f1" "u1" Sample.url_a 299 VAL true false in
  footage_.findUnique_id "f1" (prisma w) = Some Sample.f1
  /\ exists w', updateFootage "f1" true VAL true w = (Ok g', w')
                /\ getFootage "f1" w' = (Ok g', w').
Proof.
  intros w g'.
  assert (H : footage_.findUnique_id "f1" (prisma w) = Some Sample.f1)
    by reflexivity.
  split; [exact H|].
  destruct (updateFootage_then_getFootage "f1" true VAL true w)
    as (_ & _ & Hu).
  destruct (Hu Sample.f1 H) as (w' & H1 & H2 & _).
  exists w'. split; [exact H1 | exact H2].
Defined.

Lemma deleteFootage_run id w :
  deleteFootage id w
  = match footage_.delete id w with
    | (Ok _, w1) => (Ok "Footage deleted successfully.", w1)
    | (Threw _, w1) => (Threw processing_error, w1)
    end.
Proof.
  unfold deleteFootage; unfold_monad.
  now destruct (footage_.delete id w) as [[g|e] w1].
Qed.

(** X27. [deleteFootage] asks no permission. When it succeeds, the
    submission is gone: a [getFootage] and a [getFootageClips] of the id
    answer 404, a second [deleteFootage] and an [updateFootage] answer 500,
    and the url is free for a new submission under the schema's
    constraints. When it fails, the answer is the same 500 whether the
    submission is missing or a clip still references it, and the world is
    what it was. *)
Theorem deleteFootage_then :
  forall (id : string) (w : World),
    (forall msg w', deleteFootage id w = (Ok msg, w') ->
       (exists g,
           footage_.findUnique_id id (prisma w) = Some g
           /\ (Prisma_ok (prisma w) ->
               footage_.findUnique_youtubeUrl (Footage.youtubeUrl g)
                                              (prisma w') = None))
       /\ (forall c, In c (clip (prisma w)) -> Clip.footageId c <> id)
       /\ getFootage id w'
          = (Threw (HttpError 404
               "No footage document with the UUID or type provided could be found."),
             w')
       /\ getFootageClips id w'
          = (Threw (HttpError 404
               "No clips found with the provided footage ID."), w')
       /\ deleteFootage id w' = (Threw processing_error, w')
       /\ (forall b ty p,
             updateFootage id b ty p w' = (Threw processing_error, w')))
    /\ (forall e w', deleteFootage id w = (Threw e, w') ->
          e = processing_error /\ w' = w).
Proof.
  intros id w. rewrite (deleteFootage_run id w).
  destruct (footage_.delete id w) as [[g|e] w1] eqn:Hd.
  - split; [|discriminate]. intros msg w' [= _ <-].
    destruct (footage_delete_ok _ _ Hd) as (Hgone & Hc & _).
    assert (Hclips : clip (prisma w1) = clip (prisma w)).
    { destruct (footage_delete_cases id w)
        as [[e He]|(g0 & clips' & votes' & _ & Hcl & _ & Hd')];
        [congruence|].
      rewrite Hd' in Hd. injection Hd as _ <-. cbn in *.
      destruct (existsb _ _); [discriminate|]. congruence. }
    assert (Hg : footage_.findUnique_id id (prisma w) = Some g).
    { destruct (footage_delete_cases id w)
        as [[e He]|(g0 & clips' & votes' & Hg0 & _ & _ & Hd')];
        congruence. }
    split.
    { exists g. split; [exact Hg|]. intros Hok.
      pose proof Hg as Hg'. apply find_some in Hg' as [Hin E].
      apply String.eqb_eq in E. subst id.
      exact (@url_free_after_delete g w g w1 Hok Hin Hd). }
    split; [intros c Hin; apply Hc; now rewrite Hclips|].
    split.
    { unfold getFootage; unfold_monad. now rewrite Hgone. }
    split.
    { unfold getFootageClips; unfold_monad. now rewrite Hgone. }
    split.
    { rewrite deleteFootage_run.
      destruct (footage_delete_cases id w1)
        as [[e ->]|(g0 & _ & _ & Hg0 & _)]; [reflexivity|congruence]. }
    intros b ty p. unfold updateFootage, try_catch.
    rewrite footage_update_run, Hgone. reflexivity.
  - split; [discriminate|]. intros e0 w' [= <- <-].
    split; [reflexivity|]. exact (footage_delete_threw _ _ Hd).
Qed.

Lemma deleteFootage_then_witness :
  let w := Sample.world Sample.db_voted [] in
  let w' := Sample.world Sample.db_empty [] in
  deleteFootage "f1" w = (Ok "Footage deleted successfully.", w')
  /\ fst (getFootage "f1" w')
     = Threw (HttpError 404
         "No footage document with the UUID or type provided could be found.")
  /\ deleteFootage "f1" w' = (Threw processing_error, w')
  /\ deleteFootage "f1" (Sample.world Sample.db_clipped [])
     = (Threw processing_error, Sample.world Sample.db_clipped []).
Proof.
  intros w w'.
  assert (H : deleteFootage "f1" w = (Ok "Footage deleted successfully.", w'))
    by reflexivity.
  split; [exact H|].
  destruct (deleteFootage_then "f1" w) as [Hok _].
  destruct (Hok _ _ H) as (_ & _ & Hget & _ & Hdel & _).
  split; [exact (f_equal fst Hget)|]. split; [exact Hdel|]. reflexivity.
Defined.

(* ----------------------------------------------------------------- *)
(** *** The session callback *)

(** X28. The session callback rebuilds what the session says of its user
    from the database on every call. Where every account belongs to a
    stored user, it returns; the session keeps its name and takes the id of
    the user signed in; when that user has an account, the role and the
    blacklist flag of the session are those stored for the user, whatever
    the session said before, and the provider is that of one of the user's
    accounts; when the user has no account, provider, role and blacklist
    flag are all reset to undefined. *)
Theorem session_mirrors_the_stored_user :
  forall (su : authOptions.SessionUser) (uid : string)
         (accounts : list Account.t) (users : list User.t),
    (forall a, In a accounts ->
       exists u, In u users /\ User.id u = Account.userId a) ->
    exists out,
      authOptions.session (Some su) uid accounts users = authOptions.Returned (Some out)
      /\ authOptions.name out = authOptions.name su
      /\ authOptions.id out = Some uid
      /\ ((forall a, In a accounts -> Account.userId a <> uid) ->
          authOptions.provider out = None
          /\ authOptions.role out = None
          /\ authOptions.blacklisted out = None)
      /\ (forall a, In a accounts -> Account.userId a = uid ->
          exists u a',
            find (fun x => String.eqb (User.id x) uid) users = Some u
            /\ authOptions.role out = Some (User.role u)
            /\ authOptions.blacklisted out = Some (User.blacklisted u)
            /\ In a' accounts /\ Account.userId a' = uid
            /\ authOptions.provider out = Some (Account.provider a')).
Proof.
  intros su uid accounts users Hfk.
  unfold authOptions.session, authOptions.account_findFirst.
  destruct (find (fun a => String.eqb (Account.userId a) uid) accounts)
    as [a0|] eqn:Ha.
  - apply find_some in Ha as [Hin0 E0]. apply String.eqb_eq in E0.
    destruct (Hfk a0 Hin0) as (u0 & Hu0 & Eu0).
    destruct (@find_key_present _ User.id (Account.userId a0) users u0
                Hu0 Eu0) as [u Hu].
    rewrite Hu. eexists. split; [reflexivity|]. cbn.
    split; [reflexivity|]. split; [reflexivity|].
    split; [intros Hnone; now elim (Hnone a0 Hin0)|].
    intros a _ _. exists u, a0. rewrite <- E0. now repeat split.
  - eexists. split; [reflexivity|]. cbn.
    split; [reflexivity|]. split; [reflexivity|].
    split; [now repeat split|].
    intros a Hin E. apply (find_none _ _ Ha) in Hin. cbn in Hin.
    rewrite E, String.eqb_refl in Hin. discriminate.
Qed.

Lemma session_mirrors_the_stored_user_witness :
  let su := authOptions.mkSessionUser (Some "Mallory") None None
                                      (Some Roles.User) (Some false) in
  let accounts := [Account.mk "a1" "u3" "discord"] in
  (forall a, In a accounts ->
     exists u, In u Sample.users /\ User.id u = Account.userId a)
  /\ exists out,
       authOptions.session (Some su) "u3" accounts Sample.users
       = authOptions.Returned (Some out)
       /\ authOptions.id out = Some "u3".
Proof.
  intros su accounts.
  assert (Hfk : forall a, In a accounts ->
                  exists u, In u Sample.users
                            /\ User.id u = Account.userId a).
  { intros a [<-|[]]. exists Sample.mallory.
    split; [right; right; now left|reflexivity]. }
  split; [exact Hfk|].
  destruct (session_mirrors_the_stored_user su "u3" accounts Sample.users Hfk)
    as (out & Hout & _ & Hid & _).
  exists out. split; [exact Hout | exact Hid].
Defined.

(* ----------------------------------------------------------------- *)
(** *** Behind the output parser *)







(* ----------------------------------------------------------------- *)
(** *** Updating a submission, as the caller sees it *)



(* ----------------------------------------------------------------- *)
(** *** What a delete cascades to *)

Lemma footage_delete_run gid w :
  footage_.delete gid w
  = match footage_.findUnique_id gid (prisma w) with
    | None => (Threw (PrismaClientError RecordNotFound), w)
    | Some g =>
        if existsb (fun c => String.eqb (Clip.footageId c) gid)
                   (clip (prisma w))
        then (Threw (PrismaClientError ForeignKeyConstraintFailed), w)
        else
          (Ok g,
           set_prisma
             (mkPrisma
                (filter (fun x => negb (String.eqb (Footage.id x) gid))
                        (footage (prisma w)))
                (clip (prisma w))
                (filter (fun v =>
                           negb (String.eqb (FootageVotes.footageId v) gid))
                        (footageVotes (prisma w)))
                (user (prisma w))) w)
    end.
Proof.
  unfold footage_.delete; unfold_monad. cbn.
  destruct (footage_.findUnique_id gid (prisma w)); [|reflexivity].
  now destruct (existsb _ (clip (prisma w))).
Qed.

(** C9, as the spec has it, fails: deleting a submission does not cascade
    to its clips.  The owner's delete of a submission that has a clip is
    refused, by the router and by the REST handler alike, and the
    submission and its clip stay where they were. *)
Lemma delete_does_not_cascade_to_clips :
  let s := Sample.session_of Received.alice in
  let w := Sample.world Received.db_clipped [] in
  is_cuid Received.gid = true
  /\ hasPerms_spec true
       (gate s (Some (Footage.userId Received.g1)) Perms.isOwner) = true
  /\ gameplayRouter.delete (hasPerms_spec true) s Received.gid w
     = (Threw (gameplayRouter.server_error
                 (PrismaClientError ForeignKeyConstraintFailed)), w)
  /\ deleteFootage Received.gid w = (Threw processing_error, w)
  /\ footage_.findUnique_id Received.gid (prisma w) = Some Received.g1
  /\ In Received.clip1 (clip (prisma w))
  /\ Clip.footageId Received.clip1 = Received.gid.
Proof.
  cbv zeta. repeat split. now left.
Qed.

(** C9, as the code has it.  A delete cascades to the votes of the
    submission and to nothing else.  For a stored submission, the router's
    [delete] by a caller the gate lets through and [deleteFootage] succeed
    exactly when no clip references the submission, whatever votes it has:
    they then remove the submission and exactly the votes that reference
    it, and leave every clip in place, so that no clip and no vote
    references the deleted submission.  While a clip references the
    submission both are refused and the world is what it was. *)
Theorem delete_cascades_to_votes_only :
  forall (hasPerms : HasPermsInput.t -> bool) (s : Session.t)
         (gid : string) (w : World) (g : Footage.t),
    footage_.findUnique_id gid (prisma w) = Some g ->
    hasPerms (gate s (Some (Footage.userId g)) Perms.isOwner) = true ->
    let referenced :=
      existsb (fun c => String.eqb (Clip.footageId c) gid)
              (clip (prisma w)) in
    let w' :=
      set_prisma
        (mkPrisma
           (filter (fun x => negb (String.eqb (Footage.id x) gid))
                   (footage (prisma w)))
           (clip (prisma w))
           (filter (fun v => negb (String.eqb (FootageVotes.footageId v) gid))
                   (footageVotes (prisma w)))
           (user (prisma w))) w in
    (referenced = false ->
       gameplayRouter.delete hasPerms s gid w = (Ok tt, w')
       /\ deleteFootage gid w = (Ok "Footage deleted successfully.", w')
       /\ footage_.findUnique_id gid (prisma w') = None
       /\ (forall c, In c (clip (prisma w')) -> Clip.footageId c <> gid)
       /\ (forall v, In v (footageVotes (prisma w')) ->
                     FootageVotes.footageId v <> gid))
    /\ (referenced = true ->
          gameplayRouter.delete hasPerms s gid w
          = (Threw (gameplayRouter.server_error
                      (PrismaClientError ForeignKeyConstraintFailed)), w)
          /\ deleteFootage gid w = (Threw processing_error, w)).
Proof.
  intros hasPerms s gid w g Hg Hp referenced w'.
  pose proof (footage_delete_run gid w) as Hrun. rewrite Hg in Hrun.
  fold referenced in Hrun.
  rewrite (delete_run hasPerms s gid w Hg), Hp, deleteFootage_run, Hrun.
  split; intros Href; rewrite Href.
  - split; [reflexivity|]. split; [reflexivity|].
    subst w'. cbn [prisma set_prisma footage clip footageVotes].
    split; [apply (find_filter_none
                     (fun x => String.eqb (Footage.id x) gid))|].
    split.
    + intros c Hc E. subst referenced.
      assert (existsb (fun c => String.eqb (Clip.footageId c) gid)
                      (clip (prisma w)) = true).
      { apply existsb_exists. exists c. split; [exact Hc|].
        now apply String.eqb_eq. }
      congruence.
    + intros v Hv E. apply filter_In in Hv as [_ Hv].
      apply String.eqb_eq in E. rewrite E in Hv. discriminate.
  - split; reflexivity.
Qed.

Lemma delete_cascades_to_votes_only_witness :
  let s := Sample.session_of Received.alice in
  let w := Sample.world Received.db_voted [] in
  footage_.findUnique_id Received.gid (prisma w) = Some Received.g1
  /\ hasPerms_spec true
       (gate s (Some (Footage.userId Received.g1)) Perms.isOwner) = true
  /\ In Received.vote1 (footageVotes (prisma w))
  /\ gameplayRouter.delete (hasPerms_spec true) s Received.gid w
     = (Ok tt, Sample.world Received.db_empty [])
  /\ deleteFootage Received.gid w
     = (Ok "Footage deleted successfully.",
        Sample.world Received.db_empty []).
Proof.
  intros s w.
  assert (Hg : footage_.findUnique_id Received.gid (prisma w)
               = Some Received.g1) by reflexivity.
  assert (Hp : hasPerms_spec true
                 (gate s (Some (Footage.userId Received.g1)) Perms.isOwner)
               = true) by reflexivity.
  destruct (@delete_cascades_to_votes_only (hasPerms_spec true) s
              Received.gid w Received.g1 Hg Hp) as (Hfree & _).
  destruct (Hfree eq_refl) as (Hrouter & Hrest & _).
  split; [exact Hg|]. split; [exact Hp|]. split; [now left|].
  split; [exact Hrouter | exact Hrest].
Defined.

(* ----------------------------------------------------------------- *)
(** *** Submitting a url, as the caller sees it *)







(* ----------------------------------------------------------------- *)
(** *** The encoding that is stored *)



(* ----------------------------------------------------------------- *)
(** *** What reaches the caller *)











